(** * SingularityNET n8n node: payment channels, claim signatures, unit
      conversion and address checks

    A shallow embedding of the TypeScript sources

    - [constants/networks.ts]           (module [Networks]),
    - [utils/unitConverter.ts]          (module [UnitConverter]),
    - the payment utilities             (module [PaymentUtils]),
    - the gRPC client                   (module [GrpcClient]),
    - [transport/ethereumClient.ts] and the contract addresses it reads
                                        (module [EthereumClient]),
    - [transport/cardanoClient.ts]      (module [CardanoClient]),

    together with the parts of the JavaScript runtime ([Js]) and of the
    ethers library ([Keccak], [Ethers]) that these files call.  The
    definitions come first, the theorems about them follow. *)

From stdpp Require Import base strings gmap.
From Stdlib Require Import ZArith Lia List Ascii String.
From Stdlib Require Import Strings.Byte.
From Stdlib Require Import Floats.SpecFloat.

Local Open Scope Z_scope.

(* ===================================================================== *)
(** * The JavaScript runtime                                              *)
(* ===================================================================== *)

Module Js.

(** ** Exceptions

    A computation either returns a value or throws.  [Error msg] is a
    plain [new Error(msg)]; the other constructors are the built-in
    error classes that the modelled code can raise. *)
Inductive error : Type :=
| RangeError
| SyntaxError
| TypeError
| Error (msg : string).

Inductive Exc (A : Type) : Type :=
| Ok (a : A)
| Throw (e : error).
Arguments Ok {A} a.
Arguments Throw {A} e.

#[global] Instance Exc_ret : MRet Exc := fun A a => Ok a.
#[global] Instance Exc_bind : MBind Exc :=
  fun A B f m => match m with Ok a => f a | Throw e => Throw e end.

(** [try { body } catch { handler }] *)
Definition try_catch {A} (body : Exc A) (handler : error -> Exc A) : Exc A :=
  match body with
  | Ok a => Ok a
  | Throw e => handler e
  end.

(** ** Numbers

    A JavaScript [number] is an IEEE 754 binary64 value: 53 bits of
    precision, infinities at exponent 1024.  The arithmetic is the
    executable specification of the standard library. *)
Definition prec : Z := 53.
Definition emax : Z := 1024.

Definition number : Type := spec_float.

Definition NaN : number := S754_nan.

(** A value of the type is a binary64 value when its mantissa and
    exponent are in canonical form. *)
Definition is_binary64 (x : number) : bool := valid_binary prec emax x.

(** [Number(z)] for a bigint [z], and integer literals: round to
    nearest, ties to even. *)
Definition Number_of_bigint (z : Z) : number :=
  binary_normalize prec emax z 0 false.

Definition mul : number -> number -> number := SFmul prec emax.
Definition div : number -> number -> number := SFdiv prec emax.

(** [x < y] and [x >= y]; both are false when an operand is NaN. *)
Definition lt (x y : number) : bool := SFltb x y.
Definition ge (x y : number) : bool := SFleb y x.

Definition isNaN (x : number) : bool :=
  match x with S754_nan => true | _ => false end.

Definition isFinite (x : number) : bool :=
  match x with S754_zero _ | S754_finite _ _ _ => true | _ => false end.

Definition is_negative (x : number) : bool :=
  match x with
  | S754_finite true _ _ | S754_infinity true => true
  | _ => false
  end.

(** [Number.MAX_SAFE_INTEGER] *)
Definition MAX_SAFE_INTEGER_Z : Z := 2 ^ 53 - 1.
Definition MAX_SAFE_INTEGER : number := Number_of_bigint MAX_SAFE_INTEGER_Z.

(** A decimal literal [m / 10^k] of the source text.  For the literals
    used below both [m] and [10^k] are exactly representable, so the
    correctly rounded quotient is the binary64 value nearest to the
    literal, which is what the parser produces. *)
Definition literal (m : Z) (k : Z) : number :=
  div (Number_of_bigint m) (Number_of_bigint (10 ^ k)).

(** The integer [floor (±m * 2^e)]. *)
Definition floorZ (s : bool) (m : positive) (e : Z) : Z :=
  match e with
  | Zneg k => cond_Zopp s (Zpos m) / 2 ^ Zpos k
  | _ => cond_Zopp s (Zpos m) * 2 ^ e
  end.

(** The integer [ceil (±m * 2^e)]. *)
Definition ceilZ (s : bool) (m : positive) (e : Z) : Z :=
  - floorZ (negb s) m e.

(** [Math.floor] and [Math.ceil].  A value with a non-negative exponent
    is an integer already; otherwise the result is the integer below
    (above), whose magnitude is less than 2^53 and which keeps the sign
    of the argument when it is zero. *)
Definition Math_floor (x : number) : number :=
  match x with
  | S754_finite s m (Zneg k) =>
      binary_normalize prec emax (floorZ s m (Zneg k)) 0 s
  | _ => x
  end.

Definition Math_ceil (x : number) : number :=
  match x with
  | S754_finite s m (Zneg k) =>
      binary_normalize prec emax (ceilZ s m (Zneg k)) 0 s
  | _ => x
  end.

(** The integer a number denotes, when it denotes one. *)
Definition integer_value (x : number) : option Z :=
  match x with
  | S754_zero _ => Some 0
  | S754_finite s m (Zneg k) =>
      if Zpos m mod 2 ^ Zpos k =? 0
      then Some (cond_Zopp s (Zpos m / 2 ^ Zpos k))
      else None
  | S754_finite s m e => Some (cond_Zopp s (Zpos m * 2 ^ e))
  | _ => None
  end.

(** [Number.isInteger] *)
Definition Number_isInteger (x : number) : bool :=
  match integer_value x with Some _ => true | None => false end.

(** [BigInt(x)] for a number [x]: a RangeError unless [x] is an
    integer. *)
Definition BigInt (x : number) : Exc Z :=
  match integer_value x with
  | Some z => Ok z
  | None => Throw RangeError
  end.

(** ** Strings

    A string is a sequence of code units; the model covers the code
    units 0..255 (Latin-1), which includes every string the modelled
    code builds itself. *)
Definition code (c : ascii) : Z := Z.of_N (N_of_ascii c).
Definition char_of_code (z : Z) : ascii := ascii_of_N (Z.to_N z).

Definition in_range (lo hi : Z) (c : ascii) : bool :=
  (lo <=? code c) && (code c <=? hi).

Definition is_digit (c : ascii) : bool := in_range 48 57 c.
Definition is_lower (c : ascii) : bool := in_range 97 122 c.
Definition is_upper (c : ascii) : bool := in_range 65 90 c.
Definition is_lower_hex (c : ascii) : bool := in_range 97 102 c.
Definition is_upper_hex (c : ascii) : bool := in_range 65 70 c.
Definition is_hex_digit (c : ascii) : bool :=
  is_digit c || is_lower_hex c || is_upper_hex c.

Fixpoint all_chars (p : ascii -> bool) (s : string) : bool :=
  match s with
  | EmptyString => true
  | String c r => p c && all_chars p r
  end.

Fixpoint some_char (p : ascii -> bool) (s : string) : bool :=
  match s with
  | EmptyString => false
  | String c r => p c || some_char p r
  end.

Fixpoint map_chars (f : ascii -> ascii) (s : string) : string :=
  match s with
  | EmptyString => EmptyString
  | String c r => String (f c) (map_chars f r)
  end.

(** [s.startsWith(p)], and the rest of [s] after the prefix [p] *)
Fixpoint after_prefix (p s : string) : option string :=
  match p, s with
  | EmptyString, _ => Some s
  | String a p', String b s' =>
      if Ascii.eqb a b then after_prefix p' s' else None
  | String _ _, EmptyString => None
  end.

Definition startsWith (s p : string) : bool :=
  match after_prefix p s with Some _ => true | None => false end.

(** [s.slice(2)] *)
Definition slice2 (s : string) : string :=
  match s with
  | String _ (String _ r) => r
  | _ => EmptyString
  end.

(** [toLowerCase] and [toUpperCase] of a Latin-1 letter.  The two code
    units whose upper-case form lies outside Latin-1, and the sharp s,
    are left unchanged by [toUpperCase_char]; the modelled code applies
    it to hexadecimal digits only. *)
Definition toLowerCase_char (c : ascii) : ascii :=
  if is_upper c || (in_range 192 222 c && negb (code c =? 215))
  then char_of_code (code c + 32)
  else c.

Definition toUpperCase_char (c : ascii) : ascii :=
  if is_lower c || (in_range 224 254 c && negb (code c =? 247))
  then char_of_code (code c - 32)
  else c.

Definition toLowerCase : string -> string := map_chars toLowerCase_char.
Definition toUpperCase : string -> string := map_chars toUpperCase_char.

(** The value of a hexadecimal digit, of a digit in base 36 *)
Definition hex_value (c : ascii) : option Z :=
  if is_digit c then Some (code c - 48)
  else if is_lower_hex c then Some (code c - 87)
  else if is_upper_hex c then Some (code c - 55)
  else None.

(** The lower-case hexadecimal digit of a value below 16 *)
Definition hex_char (v : Z) : ascii :=
  if v <? 10 then char_of_code (48 + v) else char_of_code (87 + v).

(** ** Bytes *)
Definition bytes : Type := list byte.

Definition byte_value (b : byte) : Z := Z.of_N (Byte.to_N b).

Definition byte_of (z : Z) : byte :=
  match Byte.of_N (Z.to_N (z mod 256)) with
  | Some b => b
  | None => Byte.x00
  end.

(** The two lower-case hexadecimal digits of a byte *)
Definition hex_of_byte (b : byte) (rest : string) : string :=
  String (hex_char (byte_value b / 16))
         (String (hex_char (byte_value b mod 16)) rest).

Fixpoint hex_of_bytes (bs : bytes) : string :=
  match bs with
  | [] => EmptyString
  | b :: r => hex_of_byte b (hex_of_bytes r)
  end.

(** UTF-8 encoding of a string of Latin-1 code units: one byte below
    128, two bytes from 128 on. *)
Definition utf8_of_char (c : ascii) : bytes :=
  if code c <? 128 then [byte_of (code c)]
  else [byte_of (192 + code c / 64); byte_of (128 + code c mod 64)].

Fixpoint toUtf8 (s : string) : bytes :=
  match s with
  | EmptyString => []
  | String c r => utf8_of_char c ++ toUtf8 r
  end.

(** [parseInt(s, 16)]: leading white space, a sign and a [0x] prefix
    are skipped, then the longest run of hexadecimal digits is read;
    without a digit the result is NaN.  The integer read is rounded to
    a number. *)
Definition is_white_space (c : ascii) : bool :=
  in_range 9 13 c || (code c =? 32) || (code c =? 160).

Fixpoint trim_start (s : string) : string :=
  match s with
  | String c r => if is_white_space c then trim_start r else s
  | EmptyString => EmptyString
  end.

Fixpoint hex_digits_value (acc : option Z) (s : string) : option Z :=
  match s with
  | String c r =>
      match hex_value c with
      | Some v => hex_digits_value (Some (16 * default 0 acc + v)) r
      | None => acc
      end
  | EmptyString => acc
  end.

Definition parseInt16 (s : string) : number :=
  let s1 := trim_start s in
  let '(neg, s2) :=
    match s1 with
    | String "-" r => (true, r)
    | String "+" r => (false, r)
    | _ => (false, s1)
    end in
  let s3 :=
    match s2 with
    | String "0" (String "x" r) => r
    | String "0" (String "X" r) => r
    | _ => s2
    end in
  match hex_digits_value None s3 with
  | None => NaN
  | Some v => binary_normalize prec emax (cond_Zopp neg v) 0 neg
  end.

(** [z.toString()] for a bigint [z] *)
Fixpoint decimal_digits (fuel : nat) (z : Z) (acc : string) : string :=
  match fuel with
  | O => acc
  | S fuel' =>
      let acc' := String (char_of_code (48 + z mod 10)) acc in
      if z <? 10 then acc' else decimal_digits fuel' (z / 10) acc'
  end.

Definition BigInt_toString (z : Z) : string :=
  if z <? 0
  then String "-" (decimal_digits (Z.to_nat (Z.log2 (- z)) + 1) (- z) EmptyString)
  else decimal_digits (Z.to_nat (Z.log2 z) + 1) z EmptyString.

(** ** Node's [Buffer]

    [Buffer.from(s, 'hex')] decodes pairs of hexadecimal digits and
    stops at the first pair that is not one, or at a single trailing
    digit. *)
Fixpoint Buffer_from_hex (s : string) : bytes :=
  match s with
  | String a (String b r) =>
      match hex_value a, hex_value b with
      | Some h, Some l => byte_of (16 * h + l) :: Buffer_from_hex r
      | _, _ => []
      end
  | _ => []
  end.

(** [Buffer.from(s)]: the UTF-8 bytes of [s] *)
Definition Buffer_from_string (s : string) : bytes := toUtf8 s.

(** The base64 alphabet *)
Definition base64_char (v : Z) : ascii :=
  if v <? 26 then char_of_code (65 + v)
  else if v <? 52 then char_of_code (71 + v)
  else if v <? 62 then char_of_code (v - 4)
  else if v =? 62 then "+"%char
  else "/"%char.

Definition base64_value (c : ascii) : option Z :=
  if is_upper c then Some (code c - 65)
  else if is_lower c then Some (code c - 71)
  else if is_digit c then Some (code c + 4)
  else if code c =? 43 then Some 62
  else if code c =? 47 then Some 63
  else None.

(** [buf.toString('base64')] *)
Fixpoint Buffer_toString_base64 (bs : bytes) : string :=
  match bs with
  | [] => EmptyString
  | [a] =>
      let x := byte_value a in
      String (base64_char (x / 4))
        (String (base64_char (x mod 4 * 16)) "==")
  | [a; b] =>
      let x := byte_value a in
      let y := byte_value b in
      String (base64_char (x / 4))
        (String (base64_char (x mod 4 * 16 + y / 16))
           (String (base64_char (y mod 16 * 4)) "="))
  | a :: b :: c :: r =>
      let x := byte_value a in
      let y := byte_value b in
      let z := byte_value c in
      String (base64_char (x / 4))
        (String (base64_char (x mod 4 * 16 + y / 16))
           (String (base64_char (y mod 16 * 4 + z / 64))
              (String (base64_char (z mod 64))
                 (Buffer_toString_base64 r))))
  end.

(** The receiving side: strict decoding of padded base64 (RFC 4648). *)
Fixpoint base64_decode (s : string) : option bytes :=
  match s with
  | EmptyString => Some []
  | String c1 (String c2 (String c3 (String c4 r))) =>
      match base64_value c1, base64_value c2 with
      | Some v1, Some v2 =>
          let b1 := byte_of (v1 * 4 + v2 / 16) in
          match base64_value c3, base64_value c4 with
          | Some v3, Some v4 =>
              let b2 := byte_of (v2 mod 16 * 16 + v3 / 4) in
              let b3 := byte_of (v3 mod 4 * 64 + v4) in
              option_map (fun t => b1 :: b2 :: b3 :: t) (base64_decode r)
          | Some v3, None =>
              if Ascii.eqb c4 "=" && (v3 mod 4 =? 0) then
                match r with
                | EmptyString => Some [b1; byte_of (v2 mod 16 * 16 + v3 / 4)]
                | _ => None
                end
              else None
          | None, _ =>
              if Ascii.eqb c3 "=" && Ascii.eqb c4 "=" && (v2 mod 16 =? 0) then
                match r with
                | EmptyString => Some [b1]
                | _ => None
                end
              else None
          end
      | _, _ => None
      end
  | _ => None
  end.

(** ** Further operators

    [x + y]; [x || y] on numbers, where NaN and the zeros are falsy, and
    on strings, where the empty string is; a string is truthy when it is
    not empty. *)
Definition add : number -> number -> number := SFadd prec emax.

Definition number_or (x y : number) : number :=
  match x with
  | S754_nan | S754_zero _ => y
  | _ => x
  end.

Definition truthy (s : string) : bool := negb (String.eqb s EmptyString).

Definition string_or (s t : string) : string := if truthy s then s else t.

(** An optional string ([string | undefined]) is truthy when it is
    present and not empty; [a || b] on two of them. *)
Definition truthy_opt (s : option string) : bool :=
  match s with
  | Some s => truthy s
  | None => false
  end.

Definition opt_or (a b : option string) : option string :=
  if truthy_opt a then a else b.

(** [s.replace(/[^...]/g, '')]: the characters of [s] that [p] keeps *)
Fixpoint filter_chars (p : ascii -> bool) (s : string) : string :=
  match s with
  | EmptyString => EmptyString
  | String c r => if p c then String c (filter_chars p r) else filter_chars p r
  end.

(** [Math.pow(10, d)] for the exponents the sources pass (0, 6, 8, 9 and
    18), whose powers are binary64 values. *)
Definition Math_pow10 (d : Z) : number := Number_of_bigint (10 ^ d).

(** Built-in functions whose algorithms are left abstract: the decimal
    parsers and the number printer. *)
Class Builtins : Type := {
  parseFloat : string -> number;
  BigInt_of_string : string -> Exc Z;
  Number_toString : number -> string
}.

End Js.

Export Js.

(* ===================================================================== *)
(** * Keccak-256                                                          *)
(* ===================================================================== *)

(** The hash function behind [ethers.keccak256]: the Keccak sponge with a
    1088-bit rate, 24 rounds of Keccak-f[1600] on 25 lanes of 64 bits,
    and the original Keccak padding (0x01 .. 0x80). *)
Module Keccak.

Definition mask64 : Z := 2 ^ 64 - 1.

Definition rotl64 (x n : Z) : Z :=
  if n =? 0 then x
  else Z.lor (Z.land (Z.shiftl x n) mask64) (Z.shiftr x (64 - n)).

(** The state is the list of its lanes, lane (x, y) at index x + 5y. *)
Definition lane (st : list Z) (x y : nat) : Z :=
  nth (x mod 5 + 5 * (y mod 5))%nat st 0.

Definition coords : list (nat * nat) :=
  map (fun i => (i mod 5, i / 5)%nat) (seq 0 25).

Definition rotation_offsets : list Z :=
  [ 0;  1; 62; 28; 27;
   36; 44;  6; 55; 20;
    3; 10; 43; 25; 39;
   41; 45; 15; 21;  8;
   18;  2; 61; 56; 14].

Definition round_constants : list Z :=
  [0x0000000000000001; 0x0000000000008082; 0x800000000000808A;
   0x8000000080008000; 0x000000000000808B; 0x0000000080000001;
   0x8000000080008081; 0x8000000000008009; 0x000000000000008A;
   0x0000000000000088; 0x0000000080008009; 0x000000008000000A;
   0x000000008000808B; 0x800000000000008B; 0x8000000000008089;
   0x8000000000008003; 0x8000000000008002; 0x8000000000000080;
   0x000000000000800A; 0x800000008000000A; 0x8000000080008081;
   0x8000000000008080; 0x0000000080000001; 0x8000000080008008].

Definition column_parity (st : list Z) (x : nat) : Z :=
  Z.lxor (lane st x 0)
    (Z.lxor (lane st x 1)
       (Z.lxor (lane st x 2) (Z.lxor (lane st x 3) (lane st x 4)))).

Definition theta (st : list Z) : list Z :=
  let c := map (column_parity st) (seq 0 5) in
  let d x := Z.lxor (nth ((x + 4) mod 5) c 0)
                    (rotl64 (nth ((x + 1) mod 5) c 0) 1) in
  map (fun '(x, y) => Z.lxor (lane st x y) (d x)) coords.

(** Lane (x, y) moves to (y, 2x + 3y); read backwards, the lane at
    (X, Y) comes from (X + 3Y, X). *)
Definition rho_pi (st : list Z) : list Z :=
  map (fun '(X, Y) =>
         let x := ((X + 3 * Y) mod 5)%nat in
         rotl64 (lane st x X) (nth (x + 5 * X) rotation_offsets 0))
      coords.

Definition chi (st : list Z) : list Z :=
  map (fun '(x, y) =>
         Z.lxor (lane st x y)
                (Z.land (Z.lxor (lane st (x + 1) y) mask64)
                        (lane st (x + 2) y)))
      coords.

Definition iota (rc : Z) (st : list Z) : list Z :=
  match st with
  | a :: r => Z.lxor a rc :: r
  | [] => []
  end.

Definition round (st : list Z) (rc : Z) : list Z :=
  iota rc (chi (rho_pi (theta st))).

Definition keccak_f (st : list Z) : list Z :=
  fold_left round round_constants st.

Definition rate : nat := 136.

Definition padding (len : nat) : list Z :=
  let q := (rate - len mod rate)%nat in
  if (q =? 1)%nat then [0x81]
  else 0x01 :: repeat 0 (q - 2) ++ [0x80].

Fixpoint le_value (bs : list Z) : Z :=
  match bs with
  | [] => 0
  | b :: r => b + 256 * le_value r
  end.

Fixpoint lanes_of (n : nat) (bs : list Z) : list Z :=
  match n with
  | O => []
  | S n' => le_value (firstn 8 bs) :: lanes_of n' (skipn 8 bs)
  end.

Fixpoint xor_lanes (st blk : list Z) : list Z :=
  match st, blk with
  | a :: st', b :: blk' => Z.lxor a b :: xor_lanes st' blk'
  | _, _ => st
  end.

Fixpoint absorb (fuel : nat) (st : list Z) (data : list Z) : list Z :=
  match fuel, data with
  | S fuel', _ :: _ =>
      absorb fuel'
        (keccak_f (xor_lanes st (lanes_of 17 (firstn rate data))))
        (skipn rate data)
  | _, _ => st
  end.

Definition lane_bytes (l : Z) : list Z :=
  map (fun i => (l / 256 ^ Z.of_nat i) mod 256) (seq 0 8).

Definition keccak256 (msg : bytes) : bytes :=
  let data := map byte_value msg in
  let st := absorb (S (List.length data)) (repeat 0 25)
                   (data ++ padding (List.length data)) in
  map byte_of (flat_map lane_bytes (firstn 4 st)).

End Keccak.

#[global] Arguments Keccak.keccak256 : simpl never.
#[global] Opaque Keccak.keccak256.

(* ===================================================================== *)
(** * The ethers library (v6)                                             *)
(* ===================================================================== *)

(** The functions of ethers that the sources call.  Hashing, byte and
    address handling and tight packing are written out after the
    library's implementation; signing and signer recovery over secp256k1
    are an interface ([Signer]). *)
Module Ethers.

(** A failed [assertArgument] *)
Definition invalid_argument (msg : string) : error := Error msg.

Fixpoint hex_pairs (s : string) : option bytes :=
  match s with
  | EmptyString => Some []
  | String a (String b r) =>
      match hex_value a, hex_value b with
      | Some h, Some l =>
          option_map (cons (byte_of (16 * h + l))) (hex_pairs r)
      | _, _ => None
      end
  | _ => None
  end.

(** [getBytes(value)] for a string: it has to match
    [/^0x(?:[0-9a-f][0-9a-f])*$/i]. *)
Definition getBytes (value : string) : Exc bytes :=
  match value with
  | String "0" (String x r) =>
      if Ascii.eqb x "x" || Ascii.eqb x "X" then
        match hex_pairs r with
        | Some bs => Ok bs
        | None => Throw (invalid_argument "invalid BytesLike value")
        end
      else Throw (invalid_argument "invalid BytesLike value")
  | _ => Throw (invalid_argument "invalid BytesLike value")
  end.

Definition hexlify (bs : bytes) : string :=
  String "0" (String "x" (hex_of_bytes bs)).

Definition keccak256 (data : bytes) : string :=
  hexlify (Keccak.keccak256 data).

(** [ethers.id(s)] *)
Definition id (s : string) : string := keccak256 (toUtf8 s).

(** The four-bit halves of the hash bytes, the high half first *)
Definition nibbles (bs : bytes) : list Z :=
  flat_map (fun b => [byte_value b / 16; byte_value b mod 16]) bs.

Fixpoint apply_checksum (chars : string) (ns : list Z) : string :=
  match chars, ns with
  | String c r, n :: ns' =>
      String (if 8 <=? n then toUpperCase_char c else c)
             (apply_checksum r ns')
  | _, _ => chars
  end.

Definition char_codes (s : string) : bytes :=
  map (fun c => byte_of (code c)) (list_ascii_of_string s).

(** [getChecksumAddress(address)]: [address] is [0x] followed by at
    least 40 hexadecimal digits; the letters among the first 40 are put
    in upper case where the hash of the lower-case digits says so. *)
Definition getChecksumAddress (address : string) : string :=
  let chars := slice2 (toLowerCase address) in
  let expanded := char_codes (substring 0 40 chars) in
  let hashed := Keccak.keccak256 expanded in
  String "0" (String "x" (apply_checksum chars (nibbles (firstn 20 hashed)))).

(** [/^(0x)?[0-9a-fA-F]{40}$/] *)
Definition is_hex40 (s : string) : bool :=
  (String.length s =? 40)%nat && all_chars is_hex_digit s.

Definition matches_hex_address (s : string) : bool :=
  match after_prefix "0x" s with
  | Some r => is_hex40 r
  | None => is_hex40 s
  end.

(** [/([A-F].*[a-f])|([a-f].*[A-F])/] on a string of hexadecimal
    digits *)
Definition mixed_case (s : string) : bool :=
  some_char is_upper_hex s && some_char is_lower_hex s.

(** [/^XE[0-9]{2}[0-9A-Za-z]{30,31}$/] *)
Definition is_alnum (c : ascii) : bool :=
  is_digit c || is_upper c || is_lower c.

Definition matches_icap (s : string) : bool :=
  match s with
  | String "X" (String "E" (String d1 (String d2 r))) =>
      is_digit d1 && is_digit d2 && all_chars is_alnum r
      && ((String.length r =? 30) || (String.length r =? 31))%nat
  | _ => false
  end.

(** The decimal expansion used by the IBAN checksum: a digit stands
    for itself, a letter for 10 + its rank; the number is reduced
    modulo 97. *)
Fixpoint iban_mod97 (acc : Z) (s : string) : Z :=
  match s with
  | EmptyString => acc
  | String c r =>
      if is_digit c then iban_mod97 ((acc * 10 + (code c - 48)) mod 97) r
      else iban_mod97 ((acc * 100 + (code c - 55)) mod 97) r
  end.

Definition ibanChecksum (address : string) : string :=
  let a := toUpperCase address in
  let a := (substring 4 (String.length a - 4) a ++ substring 0 2 a ++ "00")%string in
  let checksum := 98 - iban_mod97 0 a in
  String (char_of_code (48 + checksum / 10))
         (String (char_of_code (48 + checksum mod 10)) EmptyString).

Definition base36_value (c : ascii) : Z :=
  if is_digit c then code c - 48 else code (toLowerCase_char c) - 87.

Fixpoint fromBase36 (acc : Z) (s : string) : Z :=
  match s with
  | EmptyString => acc
  | String c r => fromBase36 (acc * 36 + base36_value c) r
  end.

(** [z.toString(16)] for a non-negative bigint, left-padded with zeros
    to 40 digits *)
Fixpoint hex_digits (fuel : nat) (z : Z) (acc : string) : string :=
  match fuel with
  | O => acc
  | S fuel' =>
      let acc' := String (hex_char (z mod 16)) acc in
      if z <? 16 then acc' else hex_digits fuel' (z / 16) acc'
  end.

Fixpoint pad_zeros (n : nat) (s : string) : string :=
  match n with
  | O => s
  | S n' => String "0" (pad_zeros n' s)
  end.

Definition hex40 (z : Z) : string :=
  let h := hex_digits (Z.to_nat (Z.log2 z) + 1) z EmptyString in
  pad_zeros (40 - String.length h) h.

(** [getAddress(address)] *)
Definition getAddress (address : string) : Exc string :=
  if matches_hex_address address then
    let address := if startsWith address "0x" then address
                   else String "0" (String "x" address) in
    let result := getChecksumAddress address in
    if mixed_case address && negb (String.eqb result address)
    then Throw (invalid_argument "bad address checksum")
    else Ok result
  else if matches_icap address then
    if String.eqb (substring 2 2 address) (ibanChecksum address)
    then Ok (getChecksumAddress
               (String "0" (String "x"
                  (hex40 (fromBase36 0 (substring 4 (String.length address - 4) address))))))
    else Throw (invalid_argument "bad icap checksum")
  else Throw (invalid_argument "invalid address").

(** [isAddress(value)]:
    [try { getAddress(value); return true; } catch { } return false] *)
Definition isAddress (value : string) : bool :=
  match try_catch (_ ← getAddress value; mret true) (fun _ => Ok false) with
  | Ok b => b
  | Throw _ => false
  end.

(** Numeric arguments: a number or a bigint *)
Inductive numeric : Type :=
| OfNumber (n : number)
| OfBigInt (z : Z).

Definition getBigInt (value : numeric) : Exc Z :=
  match value with
  | OfBigInt z => Ok z
  | OfNumber n =>
      if negb (Number_isInteger n)
      then Throw (invalid_argument "underflow")
      else if negb (ge n (Number_of_bigint (- MAX_SAFE_INTEGER_Z))
                    && ge MAX_SAFE_INTEGER n)
      then Throw (invalid_argument "overflow")
      else BigInt n
  end.

Definition getUint (value : numeric) : Exc Z :=
  z ← getBigInt value;
  if z <? 0 then Throw (invalid_argument "unsigned value cannot be negative")
  else Ok z.

(** [toBeArray(z)]: the big-endian bytes of [z], none for zero *)
Fixpoint be_bytes (fuel : nat) (z : Z) (acc : bytes) : bytes :=
  match fuel with
  | O => acc
  | S fuel' =>
      if z =? 0 then acc else be_bytes fuel' (z / 256) (byte_of z :: acc)
  end.

Definition toBeArray (value : numeric) : Exc bytes :=
  z ← getUint value;
  mret (be_bytes (Z.to_nat (Z.log2 z / 8) + 1) z []).

Definition zeroPadValue (data : bytes) (len : nat) : Exc bytes :=
  if (len <? List.length data)%nat
  then Throw (invalid_argument "padding exceeds data length")
  else Ok (repeat Byte.x00 (len - List.length data) ++ data).

(** The Solidity types passed to [solidityPacked] *)
Inductive sol_value : Type :=
| SolString (s : string)
| SolAddress (a : string)
| SolUint256 (v : numeric).

Definition pack (v : sol_value) : Exc bytes :=
  match v with
  | SolString s => Ok (toUtf8 s)
  | SolAddress a => addr ← getAddress a; getBytes addr
  | SolUint256 v => b ← toBeArray v; zeroPadValue b 32
  end.

Fixpoint solidityPacked (values : list sol_value) : Exc bytes :=
  match values with
  | [] => Ok []
  | v :: r =>
      b ← pack v;
      t ← solidityPacked r;
      mret (b ++ t)
  end.

Definition solidityPackedKeccak256 (values : list sol_value) : Exc string :=
  packed ← solidityPacked values;
  mret (keccak256 packed).

(** Signing and recovery.  [signMessage w m] is the serialized
    signature of the message bytes [m] under the wallet's key;
    [verifyMessage m sig] recovers the address that signed [m], and
    throws when [sig] is not a signature; [Signature_from] splits a
    serialized signature into [(v, r, s)]. *)
Class Signer : Type := {
  wallet : Type;
  wallet_address : wallet -> string;
  signMessage : wallet -> bytes -> Exc string;
  verifyMessage : bytes -> string -> Exc string;
  Signature_from : string -> Exc (Z * string * string)
}.

End Ethers.

(* ===================================================================== *)
(** * [constants/networks.ts]                                             *)
(* ===================================================================== *)

Module Networks.

(** [COGS_PER_AGIX = 100000000] *)
Definition COGS_PER_AGIX : number := Number_of_bigint 100000000.

(** [ETHEREUM_MAINNET.mpeAddress] and [ETHEREUM_SEPOLIA.mpeAddress] *)
Definition ETHEREUM_MAINNET_mpeAddress : string :=
  "0x5e592F9b1d303183d963635f895f0f0C48284f4e".
Definition ETHEREUM_SEPOLIA_mpeAddress : string :=
  "0x7E0aF8988eb8d127D74cc1F8D07B34dA31d3C76d".

(** [interface NetworkConfig]; an optional field is [None] where the
    literal leaves it out. *)
Record NetworkConfig : Type := {
  name : string;
  chainId : option Z;
  rpcUrl : string;
  explorerUrl : string;
  registryAddress : string;
  mpeAddress : string;
  tokenAddress : string;
  stakingAddress : option string;
  bridgeAddress : option string;
  ipfsGateway : string;
  platformApi : string;
  daemonApi : option string
}.

Definition ETHEREUM_MAINNET : NetworkConfig :=
  {| name := "Ethereum Mainnet";
     chainId := Some 1;
     rpcUrl := "https://mainnet.infura.io/v3/";
     explorerUrl := "https://etherscan.io";
     registryAddress := "0x663422c6999Ff94933DBCb388623952CF2407F6f";
     mpeAddress := ETHEREUM_MAINNET_mpeAddress;
     tokenAddress := "0x5B7533812759B45C2B44C19e320ba2cD2681b542";
     stakingAddress := Some "0x6e3e2Cf40Ee42f25B13e2DDd8FA51178c0C51E21";
     bridgeAddress := Some "0x2775E72C4e7fc98B8c5B0Ff1E6b54e6bEe9C8b4C";
     ipfsGateway := "https://ipfs.singularitynet.io/ipfs/";
     platformApi := "https://marketplace-api.singularitynet.io";
     daemonApi := Some "https://daemon.singularitynet.io" |}.

Definition ETHEREUM_SEPOLIA : NetworkConfig :=
  {| name := "Ethereum Sepolia";
     chainId := Some 11155111;
     rpcUrl := "https://sepolia.infura.io/v3/";
     explorerUrl := "https://sepolia.etherscan.io";
     registryAddress := "0x663422c6999Ff94933DBCb388623952CF2407F6f";
     mpeAddress := ETHEREUM_SEPOLIA_mpeAddress;
     tokenAddress := "0x5B7533812759B45C2B44C19e320ba2cD2681b542";
     stakingAddress := None;
     bridgeAddress := None;
     ipfsGateway := "https://ipfs.singularitynet.io/ipfs/";
     platformApi := "https://marketplace-api-staging.singularitynet.io";
     daemonApi := None |}.

Definition CARDANO_MAINNET : NetworkConfig :=
  {| name := "Cardano Mainnet";
     chainId := None;
     rpcUrl := "https://cardano-mainnet.blockfrost.io/api/v0";
     explorerUrl := "https://cardanoscan.io";
     registryAddress := EmptyString;
     mpeAddress := EmptyString;
     tokenAddress := EmptyString;
     stakingAddress := None;
     bridgeAddress := None;
     ipfsGateway := "https://ipfs.singularitynet.io/ipfs/";
     platformApi := "https://marketplace-api.singularitynet.io";
     daemonApi := None |}.

Definition CARDANO_PREPROD : NetworkConfig :=
  {| name := "Cardano Preprod";
     chainId := None;
     rpcUrl := "https://cardano-preprod.blockfrost.io/api/v0";
     explorerUrl := "https://preprod.cardanoscan.io";
     registryAddress := EmptyString;
     mpeAddress := EmptyString;
     tokenAddress := EmptyString;
     stakingAddress := None;
     bridgeAddress := None;
     ipfsGateway := "https://ipfs.singularitynet.io/ipfs/";
     platformApi := "https://marketplace-api-staging.singularitynet.io";
     daemonApi := None |}.

(** The own properties of [NETWORKS], in the order of the literal *)
Definition NETWORKS : list (string * NetworkConfig) :=
  [("ethereumMainnet", ETHEREUM_MAINNET);
   ("ethereumSepolia", ETHEREUM_SEPOLIA);
   ("cardanoMainnet", CARDANO_MAINNET);
   ("cardanoPreprod", CARDANO_PREPROD)].

(** The properties every object literal inherits from
    [Object.prototype] *)
Definition Object_prototype_names : list string :=
  ["constructor"; "__defineGetter__"; "__defineSetter__"; "hasOwnProperty";
   "__lookupGetter__"; "__lookupSetter__"; "isPrototypeOf";
   "propertyIsEnumerable"; "toString"; "valueOf"; "__proto__";
   "toLocaleString"].

(** The value of [NETWORKS[networkId]]: the configuration stored under
    an own key, a member of [Object.prototype] under an inherited one
    (a function or an object, none of which carries the fields of a
    configuration), [undefined] otherwise. *)
Inductive network_lookup : Type :=
| Configured (config : NetworkConfig)
| Inherited
| Undefined.

Fixpoint own_property {A : Type} (key : string) (entries : list (string * A))
    : option A :=
  match entries with
  | [] => None
  | (k, v) :: rest => if String.eqb k key then Some v else own_property key rest
  end.

Definition getNetworkConfig (networkId : string) : network_lookup :=
  match own_property networkId NETWORKS with
  | Some config => Configured config
  | None =>
      if existsb (String.eqb networkId) Object_prototype_names
      then Inherited
      else Undefined
  end.

Definition isEthereumNetwork (networkId : string) : bool :=
  startsWith networkId "ethereum" || String.eqb networkId "custom".

Definition isCardanoNetwork (networkId : string) : bool :=
  startsWith networkId "cardano".

(** [TOKEN_DECIMALS] *)
Definition TOKEN_DECIMALS_AGIX : Z := 8.
Definition TOKEN_DECIMALS_ASI : Z := 18.
Definition TOKEN_DECIMALS_ETH : Z := 18.
Definition TOKEN_DECIMALS_ADA : Z := 6.

End Networks.

(* ===================================================================== *)
(** * [utils/unitConverter.ts]                                            *)
(* ===================================================================== *)

Module UnitConverter.
Import Networks.

(** Arguments of type [number | string] *)
Inductive amount_arg : Type :=
| ANum (n : number)
| AStr (s : string).

(** Arguments of type [bigint | number | string] *)
Inductive units_arg : Type :=
| UBig (z : Z)
| UNum (n : number)
| UStr (s : string).

Section WithBuiltins.
Context `{Builtins}.

(** [typeof a === 'string' ? parseFloat(a) : a] *)
Definition amount_number (a : amount_arg) : number :=
  match a with
  | AStr s => parseFloat s
  | ANum n => n
  end.

(** [typeof u === 'bigint' ? u : BigInt(u)] *)
Definition units_bigint (u : units_arg) : Exc Z :=
  match u with
  | UBig z => Ok z
  | UNum n => BigInt n
  | UStr s => BigInt_of_string s
  end.

Definition agixToCogs (agix : amount_arg) : Exc Z :=
  let agixNum := amount_number agix in
  BigInt (Math_floor (mul agixNum COGS_PER_AGIX)).

Definition cogsToAgix (cogs : units_arg) : Exc number :=
  cogsNum ← units_bigint cogs;
  mret (div (Number_of_bigint cogsNum) COGS_PER_AGIX).

Definition ethToWei (eth : amount_arg) : Exc Z :=
  let ethNum := amount_number eth in
  BigInt (Math_floor (mul ethNum (Number_of_bigint (10 ^ 18)))).

Definition weiToEth (wei : units_arg) : Exc number :=
  weiNum ← units_bigint wei;
  mret (div (Number_of_bigint weiNum) (Number_of_bigint (10 ^ 18))).

Definition adaToLovelace (ada : amount_arg) : Exc Z :=
  let adaNum := amount_number ada in
  BigInt (Math_floor (mul adaNum (Number_of_bigint (10 ^ 6)))).

Definition lovelaceToAda (lovelace : units_arg) : Exc number :=
  lovelaceNum ← units_bigint lovelace;
  mret (div (Number_of_bigint lovelaceNum) (Number_of_bigint (10 ^ 6))).

Definition validateAmount (amount : amount_arg) : bool :=
  let num := amount_number amount in
  negb (isNaN num) && ge num (Number_of_bigint 0) && lt num MAX_SAFE_INTEGER.

(** [amountStr.replace(/[^0-9.]/g, '')], then [parseFloat(cleaned) || 0] *)
Definition is_numeric_char (c : ascii) : bool :=
  is_digit c || Ascii.eqb c ".".

Definition parseTokenAmount (amountStr : string) : number :=
  let cleaned := filter_chars is_numeric_char amountStr in
  number_or (parseFloat cleaned) (Number_of_bigint 0).

(** The [switch] on the lower-cased unit; the case [gwei] shares the
    branch of [wei] and is told apart inside it. *)
Definition getUnitDecimals (unit : string) : Z :=
  let unitLower := toLowerCase unit in
  if String.eqb unitLower "agix" then 0
  else if String.eqb unitLower "cogs" then TOKEN_DECIMALS_AGIX
  else if String.eqb unitLower "eth" || String.eqb unitLower "ether" then 0
  else if String.eqb unitLower "wei" || String.eqb unitLower "gwei" then
    if String.eqb unitLower "gwei" then 9 else TOKEN_DECIMALS_ETH
  else if String.eqb unitLower "ada" then 0
  else if String.eqb unitLower "lovelace" then TOKEN_DECIMALS_ADA
  else if String.eqb unitLower "asi" then 0
  else 0.

Definition convertUnits (amount : amount_arg) (fromUnit toUnit : string) : number :=
  let num := amount_number amount in
  let fromDecimals := getUnitDecimals fromUnit in
  let toDecimals := getUnitDecimals toUnit in
  let baseAmount := mul num (Math_pow10 fromDecimals) in
  div baseAmount (Math_pow10 toDecimals).

(** [numCalls] defaults to [1]. *)
Definition calculateServiceCost (pricePerCall : number) (numCalls : option number)
    : Exc Z :=
  let numCalls := default (Number_of_bigint 1) numCalls in
  agixToCogs (ANum (mul pricePerCall numCalls)).

Definition isSufficientBalance (balance : Z) (pricePerCall : number)
    (numCalls : option number) : Exc bool :=
  let numCalls := default (Number_of_bigint 1) numCalls in
  requiredCogs ← calculateServiceCost pricePerCall (Some numCalls);
  mret (requiredCogs <=? balance).

(** [conversionRate] defaults to [1]. *)
Definition agixToAsi (agix : number) (conversionRate : option number) : number :=
  mul agix (default (Number_of_bigint 1) conversionRate).

Definition asiToAgix (asi : number) (conversionRate : option number) : number :=
  div asi (default (Number_of_bigint 1) conversionRate).

End WithBuiltins.

End UnitConverter.

(* ===================================================================== *)
(** * Objects used as string maps                                         *)
(* ===================================================================== *)

(** A [Record<string, string>] is a finite map; an object literal inserts
    its entries in the order they are written, a later entry replacing an
    earlier one with the same key. *)
Definition object_literal (entries : list (string * string)) : gmap string string :=
  fold_left (fun m kv => <[kv.1 := kv.2]> m) entries ∅.

(* ===================================================================== *)
(** * Payment utilities                                                   *)
(* ===================================================================== *)

Module PaymentUtils.
Import Ethers.

Record PaymentChannel : Type := {
  channelId : number;
  nonce : number;
  sender : string;
  signer : string;
  recipient : string;
  groupId : string;
  value : Z;
  expiration : number
}.

Record PaymentSignature : Type := {
  signature : string;
  v : Z;
  r : string;
  s : string
}.

(** The tuple [(nonce, sender, signer, recipient, groupId, value,
    expiration)] that the contract's [channels] getter returns, in that
    order. *)
Record channel_tuple : Type := {
  t_nonce : Z;
  t_sender : string;
  t_signer : string;
  t_recipient : string;
  t_groupId : string;
  t_value : Z;
  t_expiration : Z
}.

Section WithSigner.
Context `{Signer}.

Definition generatePaymentSignature (signer : wallet) (mpeAddress : string)
    (channelId nonce : number) (amount : Z) : Exc PaymentSignature :=
  messageHash ← solidityPackedKeccak256
    [SolString "__MPE_claim_message"; SolAddress mpeAddress;
     SolUint256 (OfNumber channelId); SolUint256 (OfNumber nonce);
     SolUint256 (OfBigInt amount)];
  digest ← getBytes messageHash;
  signature ← signMessage signer digest;
  sig ← Signature_from signature;
  mret {| signature := signature; v := sig.1.1; r := sig.1.2; s := sig.2 |}.

Definition verifyPaymentSignature (mpeAddress : string)
    (channelId nonce : number) (amount : Z) (signature : string)
    (expectedSigner : string) : Exc bool :=
  try_catch
    (messageHash ← solidityPackedKeccak256
       [SolString "__MPE_claim_message"; SolAddress mpeAddress;
        SolUint256 (OfNumber channelId); SolUint256 (OfNumber nonce);
        SolUint256 (OfBigInt amount)];
     digest ← getBytes messageHash;
     recoveredAddress ← verifyMessage digest signature;
     mret (String.eqb (toLowerCase recoveredAddress)
                      (toLowerCase expectedSigner)))
    (fun _ => mret false).

Definition generateFreeCallToken (signer : wallet)
    (userAddress organizationId serviceId : string)
    (currentBlock : number) : Exc string :=
  message ← solidityPackedKeccak256
    [SolString "__free_call_prefix"; SolAddress userAddress;
     SolString organizationId; SolString serviceId;
     SolUint256 (OfNumber currentBlock)];
  digest ← getBytes message;
  signature ← signMessage signer digest;
  mret (Buffer_toString_base64 (Buffer_from_string signature)).

End WithSigner.

(** [safetyMultiplier] defaults to [1.2]. *)
Definition calculateMinimumDeposit (pricePerCall : Z) (estimatedCalls : number)
    (safetyMultiplier : option number) : Exc Z :=
  let safetyMultiplier := default (literal 12 1) safetyMultiplier in
  calls ← BigInt estimatedCalls;
  let baseDeposit := pricePerCall * calls in
  BigInt (Math_ceil (mul (Number_of_bigint baseDeposit) safetyMultiplier)).

Section WithBuiltins.
Context `{Builtins}.

Definition createPaymentMetadata (channelId nonce : number) (amount : Z)
    (signature : PaymentSignature) : gmap string string :=
  object_literal
    [("snet-payment-type", "escrow");
     ("snet-payment-channel-id", Number_toString channelId);
     ("snet-payment-channel-nonce", Number_toString nonce);
     ("snet-payment-channel-amount", BigInt_toString amount);
     ("snet-payment-channel-signature-bin",
      Buffer_toString_base64
        (Buffer_from_hex (slice2 signature.(PaymentUtils.signature))))].

Definition createFreeCallMetadata
    (userAddress organizationId serviceId authToken : string)
    (currentBlock : number) : gmap string string :=
  object_literal
    [("snet-payment-type", "free-call");
     ("snet-free-call-user-id", userAddress);
     ("snet-current-block-number", Number_toString currentBlock);
     ("snet-free-call-auth-token-bin", authToken);
     ("snet-payment-channel-signature-bin", EmptyString)].

End WithBuiltins.

(** [channelData] is the tuple the contract returned; [channelId] is
    left at 0 for the caller to set. *)
Definition parseChannelData (channelData : channel_tuple) : PaymentChannel :=
  {| channelId := Number_of_bigint 0;
     nonce := Number_of_bigint channelData.(t_nonce);
     sender := channelData.(t_sender);
     signer := channelData.(t_signer);
     recipient := channelData.(t_recipient);
     groupId := channelData.(t_groupId);
     value := channelData.(t_value);
     expiration := Number_of_bigint channelData.(t_expiration) |}.

Definition generateGroupId (groupName : string) : string :=
  Ethers.id groupName.

(** [daysUntilExpiration] defaults to [7], [blocksPerDay] to [6500]. *)
Definition calculateExpirationBlock (currentBlock : number)
    (daysUntilExpiration blocksPerDay : option number) : number :=
  let daysUntilExpiration := default (Number_of_bigint 7) daysUntilExpiration in
  let blocksPerDay := default (Number_of_bigint 6500) blocksPerDay in
  add currentBlock (mul daysUntilExpiration blocksPerDay).

Definition isChannelExpired (expiration currentBlock : number) : bool :=
  ge currentBlock expiration.

(** [GAS_ESTIMATES] *)
Definition GAS_ESTIMATES_OPEN_CHANNEL : Z := 150000.
Definition GAS_ESTIMATES_ADD_FUNDS : Z := 50000.
Definition GAS_ESTIMATES_EXTEND_CHANNEL : Z := 50000.
Definition GAS_ESTIMATES_CLAIM_TIMEOUT : Z := 100000.
Definition GAS_ESTIMATES_DEPOSIT : Z := 60000.
Definition GAS_ESTIMATES_WITHDRAW : Z := 60000.

Definition calculateTotalCost (amount gasEstimate gasPrice : Z) : Z :=
  amount + gasEstimate * gasPrice.

End PaymentUtils.

(* ===================================================================== *)
(** * The gRPC client: metadata helpers                                   *)
(* ===================================================================== *)

Module GrpcClient.

Section WithBuiltins.
Context `{Builtins}.

Definition createPaymentMetadata (channelId nonce : number) (amount : Z)
    (signature : string) : gmap string string :=
  object_literal
    [("snet-payment-type", "escrow");
     ("snet-payment-channel-id", Number_toString channelId);
     ("snet-payment-channel-nonce", Number_toString nonce);
     ("snet-payment-channel-amount", BigInt_toString amount);
     ("snet-payment-channel-signature-bin",
      Buffer_toString_base64 (Buffer_from_hex (slice2 signature)))].

Definition createFreeCallMetadata
    (userId organizationId serviceId token : string)
    (blockNumber : number) : gmap string string :=
  object_literal
    [("snet-payment-type", "free-call");
     ("snet-free-call-user-id", userId);
     ("snet-current-block-number", Number_toString blockNumber);
     ("snet-free-call-auth-token-bin", token);
     ("snet-payment-channel-signature-bin", EmptyString)].

End WithBuiltins.

Definition normalizeEndpoint (endpoint : string) (useSsl : bool) : string :=
  if startsWith endpoint "http://" || startsWith endpoint "https://"
  then endpoint
  else ((if useSsl then "https" else "http") ++ "://" ++ endpoint)%string.

(** The client object: its endpoint and the defaults of its HTTP
    client. *)
Record client : Type := {
  endpoint : string;
  baseURL : string;
  default_timeout : number;
  default_headers : gmap string string;
  common_headers : gmap string string
}.

(** [new GrpcClient(endpoint, useSsl = true)] *)
Definition new_GrpcClient (endpoint : string) (useSsl : option bool) : client :=
  let endpoint := normalizeEndpoint endpoint (default true useSsl) in
  {| endpoint := endpoint;
     baseURL := endpoint;
     default_timeout := Number_of_bigint 300000;
     default_headers :=
       object_literal
         [("Content-Type", "application/grpc-web+proto");
          ("Accept", "application/grpc-web+proto")];
     common_headers := ∅ |}.

Definition createGrpcClient (endpoint : string) (useSsl : option bool) : client :=
  new_GrpcClient endpoint useSsl.

Definition getEndpoint (this : client) : string := this.(endpoint).

Definition setEndpoint (this : client) (endpoint : string) (useSsl : option bool)
    : client :=
  let endpoint := normalizeEndpoint endpoint (default true useSsl) in
  {| endpoint := endpoint;
     baseURL := endpoint;
     default_timeout := this.(default_timeout);
     default_headers := this.(default_headers);
     common_headers := this.(common_headers) |}.

Definition setTimeout (this : client) (timeout : number) : client :=
  {| endpoint := this.(endpoint);
     baseURL := this.(baseURL);
     default_timeout := timeout;
     default_headers := this.(default_headers);
     common_headers := this.(common_headers) |}.

Definition addHeader (this : client) (key value : string) : client :=
  {| endpoint := this.(endpoint);
     baseURL := this.(baseURL);
     default_timeout := this.(default_timeout);
     default_headers := this.(default_headers);
     common_headers := <[key := value]> this.(common_headers) |}.

Definition removeHeader (this : client) (key : string) : client :=
  {| endpoint := this.(endpoint);
     baseURL := this.(baseURL);
     default_timeout := this.(default_timeout);
     default_headers := this.(default_headers);
     common_headers := delete key this.(common_headers) |}.

(** [method.startsWith('/') ? method : `/${method}`] *)
Definition methodPath (method : string) : string :=
  if startsWith method "/" then method else String "/" method.

(** The headers of a unary call: the literal
    [{ 'Content-Type': 'application/json', ...metadata }], into which
    every entry of [metadata] is then assigned once more. *)
Definition call_headers (metadata : gmap string string) : gmap string string :=
  let headers := metadata ∪ object_literal [("Content-Type", "application/json")] in
  foldl (fun h kv => <[kv.1 := kv.2]> h) headers (map_to_list metadata).

(** The headers of a streaming call *)
Definition stream_headers (metadata : gmap string string) : gmap string string :=
  metadata ∪ object_literal [("Content-Type", "application/json");
                             ("Accept", "text/event-stream")].

(** The options of a call: [metadata] defaults to the empty object,
    [timeout] to 60000 for [call]. *)
Record GrpcCallOptions : Type := {
  metadata : option (gmap string string);
  timeout : option number
}.

(** The outcome of a request of the HTTP client: a response, an axios
    error with the message of the response body, if any, and its own
    message, or another exception. *)
Inductive outcome (A : Type) : Type :=
| Response (a : A)
| AxiosError (response_message : option string) (message : string)
| Failure (e : error).
Arguments Response {A} a.
Arguments AxiosError {A} response_message message.
Arguments Failure {A} e.

(** The HTTP client, for request bodies [body] and response data
    [data]: [http_post this path input headers timeout] posts, and
    [http_get this path timeout] answers with the status of the
    response. *)
Class Http (body data : Type) : Type := {
  http_post : client -> string -> body -> gmap string string -> number
              -> outcome data;
  http_get : client -> string -> number -> outcome Z
}.

Section WithHttp.
Context {body data : Type} `{Http body data}.

Definition call (this : client) (method : string) (input : body)
    (options : option GrpcCallOptions) : Exc data :=
  let options := default {| metadata := None; timeout := None |} options in
  let metadata := default ∅ options.(metadata) in
  let timeout := default (Number_of_bigint 60000) options.(timeout) in
  match http_post this (methodPath method) input (call_headers metadata) timeout with
  | Response response_data => Ok response_data
  | AxiosError response_message message =>
      Throw (Error ("gRPC call failed: "
                    ++ default message (opt_or response_message (Some message))))
  | Failure e => Throw e
  end.

Definition healthCheck (this : client) : bool :=
  match http_get this "/health" (Number_of_bigint 5000) with
  | Response status => status =? 200
  | _ => false
  end.

End WithHttp.

End GrpcClient.

(* ===================================================================== *)
(** * [transport/ethereumClient.ts]                                       *)
(* ===================================================================== *)

Module EthereumClient.
Import Ethers PaymentUtils.

(** An event log of a receipt; the client reads its topics only. *)
Record Log : Type := { topics : list string }.

(** The fields of a transaction receipt that the client reads *)
Record Receipt : Type := {
  rc_blockNumber : number;
  rc_status : Z;
  rc_gasUsed : Z;
  rc_gasPrice : Z;
  rc_logs : list Log
}.

Inductive tx_status : Type := pending | success | failed.

Record TransactionResult : Type := {
  hash : string;
  blockNumber : number;
  status : tx_status;
  gasUsed : Z;
  effectiveGasPrice : Z
}.

Record ChannelInfo : Type := {
  ci_channelId : number;
  ci_nonce : number;
  ci_sender : string;
  ci_signer : string;
  ci_recipient : string;
  ci_groupId : string;
  ci_value : Z;
  ci_expiration : number
}.

Record OpenChannelResult : Type := {
  oc_channelId : number;
  oc_tx : TransactionResult
}.

(** The escrow contract behind the provider, over a chain state [chain]:
    [mpe_openChannel] sends the transaction and waits for its receipt
    (it throws when sending or waiting fails), [mpe_channels] is the
    read-only getter of the channel table. *)
Class Mpe (chain : Type) : Type := {
  mpe_openChannel :
    string -> string -> string -> Z -> number -> chain ->
    Exc (string * Receipt * chain);
  mpe_channels : number -> chain -> Exc channel_tuple
}.

(** The client object: its wallet, if any, and whether the escrow
    contract was initialised. *)
Record client `{Signer} : Type := {
  cl_wallet : option wallet;
  cl_mpe : bool
}.

Definition ChannelOpen_topic : string :=
  Eval vm_compute in
    Ethers.id "ChannelOpen(uint256,uint256,address,address,address,bytes32,uint256,uint256)".

(** [log.topics[0] === ChannelOpen_topic] *)
Definition is_ChannelOpen (log : Log) : bool :=
  match log.(topics) with
  | t0 :: _ => String.eqb t0 ChannelOpen_topic
  | [] => false
  end.

(** [event.topics[1]], the string ["undefined"] when it is missing, as
    [parseInt] converts its argument to a string. *)
Definition topic1_string (event : Log) : string :=
  match event.(topics) with
  | _ :: t1 :: _ => t1
  | _ => "undefined"
  end.

Section WithChain.
Context `{Signer} {chain : Type} `{Mpe chain}.

Definition openChannel (this : client) (recipient groupId : string)
    (amount : Z) (expiration : number) (st : chain)
    : Exc (OpenChannelResult * chain) :=
  match this.(cl_mpe), this.(cl_wallet) with
  | true, Some w =>
      let signer := wallet_address w in
      sent ← mpe_openChannel signer recipient groupId amount expiration st;
      let '(tx_hash, receipt, st') := sent in
      let event := List.find is_ChannelOpen receipt.(rc_logs) in
      let channelId :=
        match event with
        | Some e => parseInt16 (topic1_string e)
        | None => Number_of_bigint 0
        end in
      mret ({| oc_channelId := channelId;
               oc_tx := {| hash := tx_hash;
                           blockNumber := receipt.(rc_blockNumber);
                           status := if receipt.(rc_status) =? 1
                                     then success else failed;
                           gasUsed := receipt.(rc_gasUsed);
                           effectiveGasPrice := receipt.(rc_gasPrice) |} |},
            st')
  | _, _ => Throw (Error "MPE contract or wallet not initialized")
  end.

Definition getChannel (this : client) (channelId : number) (st : chain)
    : Exc ChannelInfo :=
  if negb this.(cl_mpe) then Throw (Error "MPE contract not initialized")
  else
    channel ← mpe_channels channelId st;
    mret {| ci_channelId := channelId;
            ci_nonce := Number_of_bigint channel.(t_nonce);
            ci_sender := channel.(t_sender);
            ci_signer := channel.(t_signer);
            ci_recipient := channel.(t_recipient);
            ci_groupId := channel.(t_groupId);
            ci_value := channel.(t_value);
            ci_expiration := Number_of_bigint channel.(t_expiration) |}.

End WithChain.

Definition isValidAddress (address : string) : bool :=
  Ethers.isAddress address.

(** [CONTRACT_ADDRESSES] of [constants/contracts.ts] *)
Record ContractAddresses : Type := {
  ca_agixToken : string;
  ca_mpe : string;
  ca_registry : string;
  ca_staking : string;
  ca_bridge : string;
  ca_rfai : string;
  ca_governance : string;
  ca_asiToken : string
}.

Definition zero_address : string := "0x0000000000000000000000000000000000000000".

Definition CONTRACT_ADDRESSES_ethereumMainnet : ContractAddresses :=
  {| ca_agixToken := "0x5B7533812759B45C2B44C19e320ba2cD2681b542";
     ca_mpe := "0x5e592F9b1d303183d963635f895f0f0C48284f4e";
     ca_registry := "0x663422c6999Ff94933DBCb388623952CF2407F6f";
     ca_staking := "0x6e3e2Cf40Ee42f25B13e2DDd8FA51178c0C51E21";
     ca_bridge := "0x2775E72C4e7fc98B8c5B0Ff1E6b54e6bEe9C8b4C";
     ca_rfai := zero_address;
     ca_governance := zero_address;
     ca_asiToken := zero_address |}.

Definition CONTRACT_ADDRESSES_ethereumSepolia : ContractAddresses :=
  {| ca_agixToken := "0x5B7533812759B45C2B44C19e320ba2cD2681b542";
     ca_mpe := "0x7E0aF8988eb8d127D74cc1F8D07B34dA31d3C76d";
     ca_registry := "0x663422c6999Ff94933DBCb388623952CF2407F6f";
     ca_staking := zero_address;
     ca_bridge := zero_address;
     ca_rfai := zero_address;
     ca_governance := zero_address;
     ca_asiToken := zero_address |}.

(** [interface EthereumClientConfig] *)
Record EthereumClientConfig : Type := {
  network : string;
  rpcUrl : option string;
  privateKey : option string;
  mnemonic : option string;
  derivationPath : option string
}.

(** The contract instances of a client, each known by the address it
    was created at *)
Record Contracts : Type := {
  agixToken : option string;
  mpe : option string;
  registry : option string;
  staking : option string;
  asiToken : option string
}.

(** Wallets from credentials: [new ethers.Wallet(privateKey)],
    [ethers.Wallet.fromPhrase(mnemonic)] and [derivePath(path)] on its
    result; each throws on a malformed argument. *)
Class Wallets `{Signer} : Type := {
  Wallet_new : string -> Exc wallet;
  hd_wallet : Type;
  Wallet_fromPhrase : string -> Exc hd_wallet;
  derivePath : hd_wallet -> string -> Exc wallet
}.

(** The state of an [EthereumClient] object.  [networkConfig] is the
    value found in [NETWORKS], which the constructor has checked to be
    truthy; [provider] is the URL the provider was created with
    ([undefined] lets it use its default). *)
Record instance `{Signer} : Type := {
  provider : option string;
  inst_wallet : option wallet;
  networkConfig : Networks.network_lookup;
  contracts : Contracts
}.

(** The calls that the client sends as transactions *)
Inductive contract_call : Type :=
| agixToken_transfer (to : string) (amount : Z)
| agixToken_approve (spender : option string) (amount : Z)
| mpe_deposit (amount : Z)
| mpe_withdraw (amount : Z)
| mpe_channelAddFunds (channelId : number) (amount : Z)
| mpe_channelExtend (channelId : number) (newExpiration : number)
| mpe_channelClaimTimeout (channelId : number).

(** The chain behind the provider.  [send from to call st] sends [call]
    from the wallet at [from] to the contract at [to] and waits for the
    receipt; it returns the hash and the receipt, or throws, together
    with the state of the chain afterwards.  The other members are the
    reads of the token, of the escrow contract and of the provider. *)
Class Chain (chain : Type) : Type := {
  send : string -> string -> contract_call -> chain
         -> Exc (string * Receipt) * chain;
  agixToken_balanceOf : string -> string -> chain -> Exc Z;
  mpe_balances : string -> string -> chain -> Exc Z;
  getBalance : string -> chain -> Exc Z;
  getBlockNumber : chain -> Exc number;
  getFeeData_gasPrice : chain -> Exc (option Z)
}.

(** The field [name] of the value found in [NETWORKS], compared with
    ['Ethereum Mainnet'] *)
Definition is_mainnet (networkConfig : Networks.network_lookup) : bool :=
  match networkConfig with
  | Networks.Configured config =>
      String.eqb config.(Networks.name) "Ethereum Mainnet"
  | _ => false
  end.

Definition initializeContracts (networkConfig : Networks.network_lookup)
    : Contracts :=
  let addresses := if is_mainnet networkConfig
                   then CONTRACT_ADDRESSES_ethereumMainnet
                   else CONTRACT_ADDRESSES_ethereumSepolia in
  {| agixToken := if truthy addresses.(ca_agixToken)
                  then Some addresses.(ca_agixToken) else None;
     mpe := if truthy addresses.(ca_mpe) then Some addresses.(ca_mpe) else None;
     registry := if truthy addresses.(ca_registry)
                 then Some addresses.(ca_registry) else None;
     staking := if truthy addresses.(ca_staking)
                   && negb (String.eqb addresses.(ca_staking) zero_address)
                then Some addresses.(ca_staking) else None;
     asiToken := if truthy addresses.(ca_asiToken)
                    && negb (String.eqb addresses.(ca_asiToken) zero_address)
                 then Some addresses.(ca_asiToken) else None |}.

Section WithWallets.
Context `{Wallets}.

(** [new EthereumClient(config)] *)
Definition new_EthereumClient (config : EthereumClientConfig) : Exc instance :=
  match Networks.getNetworkConfig config.(network) with
  | Networks.Undefined =>
      Throw (Error ("Unknown network: " ++ config.(network)))
  | networkConfig =>
      let rpcUrl :=
        opt_or config.(rpcUrl)
          match networkConfig with
          | Networks.Configured c => Some c.(Networks.rpcUrl)
          | _ => None
          end in
      wallet ←
        (if truthy_opt config.(privateKey) then
           w ← Wallet_new (default EmptyString config.(privateKey));
           mret (Some w)
         else if truthy_opt config.(mnemonic) then
           let path := default EmptyString
                         (opt_or config.(derivationPath) (Some "m/44'/60'/0'/0/0")) in
           hd ← Wallet_fromPhrase (default EmptyString config.(mnemonic));
           w ← derivePath hd path;
           mret (Some w)
         else mret None);
      mret {| provider := rpcUrl;
              inst_wallet := wallet;
              networkConfig := networkConfig;
              contracts := initializeContracts networkConfig |}
  end.

(** [credentials] is a [Record<string, unknown>] of strings; a missing
    [network] reads as [undefined], which the lookup and the message of
    the constructor both turn into the string ["undefined"]. *)
Definition createEthereumClient (credentials : gmap string string)
    : Exc instance :=
  let authMethod := credentials !! "authMethod" in
  new_EthereumClient
    {| network := default "undefined" (credentials !! "network");
       rpcUrl := credentials !! "ethereumRpcUrl";
       privateKey := if decide (authMethod = Some "privateKey")
                     then credentials !! "privateKey" else None;
       mnemonic := if decide (authMethod = Some "mnemonic")
                   then credentials !! "mnemonic" else None;
       derivationPath := if decide (authMethod = Some "mnemonic")
                         then credentials !! "derivationPath" else None |}.

End WithWallets.

Section Methods.
Context `{Signer} {chain : Type} `{Chain chain}.

(** What [openChannel] and [getChannel] read of the object *)
Definition as_client (this : instance) : client :=
  {| cl_wallet := this.(inst_wallet);
     cl_mpe := match this.(contracts).(mpe) with Some _ => true | None => false end |}.

Definition getAddress (this : instance) : Exc string :=
  match this.(inst_wallet) with
  | None => Throw (Error "No wallet configured")
  | Some w => Ok (wallet_address w)
  end.

(** [address || this.getAddress()] *)
Definition address_or_own (this : instance) (address : option string)
    : Exc string :=
  if truthy_opt address then Ok (default EmptyString address)
  else getAddress this.

Definition getEthBalance (this : instance) (address : option string)
    (st : chain) : Exc Z :=
  addr ← address_or_own this address;
  getBalance addr st.

Definition getAgixBalance (this : instance) (address : option string)
    (st : chain) : Exc Z :=
  match this.(contracts).(agixToken) with
  | None => Throw (Error "AGIX token contract not initialized")
  | Some token =>
      addr ← address_or_own this address;
      agixToken_balanceOf token addr st
  end.

(** [networkConfig.mpeAddress], [undefined] on a value without the
    field *)
Definition getMpeAddress (this : instance) : option string :=
  match this.(networkConfig) with
  | Networks.Configured config => Some config.(Networks.mpeAddress)
  | _ => None
  end.

Definition getRegistryAddress (this : instance) : option string :=
  match this.(networkConfig) with
  | Networks.Configured config => Some config.(Networks.registryAddress)
  | _ => None
  end.

(** The result object that every transaction method builds from the
    hash and the receipt *)
Definition transaction_result (tx_hash : string) (receipt : Receipt)
    : TransactionResult :=
  {| hash := tx_hash;
     blockNumber := receipt.(rc_blockNumber);
     status := if receipt.(rc_status) =? 1 then success else failed;
     gasUsed := receipt.(rc_gasUsed);
     effectiveGasPrice := receipt.(rc_gasPrice) |}.

(** [tx = await contract.method(...); receipt = await tx.wait()] and the
    result object *)
Definition send_and_wait (w : wallet) (to : string) (call : contract_call)
    (st : chain) : Exc TransactionResult * chain :=
  match send (wallet_address w) to call st with
  | (Ok (tx_hash, receipt), st') => (Ok (transaction_result tx_hash receipt), st')
  | (Throw e, st') => (Throw e, st')
  end.

Definition transferAgix (this : instance) (to : string) (amount : Z)
    (st : chain) : Exc TransactionResult * chain :=
  match this.(contracts).(agixToken), this.(inst_wallet) with
  | Some token, Some w => send_and_wait w token (agixToken_transfer to amount) st
  | _, _ => (Throw (Error "AGIX token contract or wallet not initialized"), st)
  end.

Definition approveAgix (this : instance) (amount : Z) (st : chain)
    : Exc TransactionResult * chain :=
  match this.(contracts).(agixToken), this.(inst_wallet) with
  | Some token, Some w =>
      let mpeAddress := getMpeAddress this in
      send_and_wait w token (agixToken_approve mpeAddress amount) st
  | _, _ => (Throw (Error "AGIX token contract or wallet not initialized"), st)
  end.

Definition getEscrowBalance (this : instance) (address : option string)
    (st : chain) : Exc Z :=
  match this.(contracts).(mpe) with
  | None => Throw (Error "MPE contract not initialized")
  | Some escrow =>
      addr ← address_or_own this address;
      mpe_balances escrow addr st
  end.

Definition depositToEscrow (this : instance) (amount : Z) (st : chain)
    : Exc TransactionResult * chain :=
  match this.(contracts).(mpe), this.(inst_wallet) with
  | Some escrow, Some w =>
      match approveAgix this amount st with
      | (Throw e, st') => (Throw e, st')
      | (Ok _, st') => send_and_wait w escrow (mpe_deposit amount) st'
      end
  | _, _ => (Throw (Error "MPE contract or wallet not initialized"), st)
  end.

Definition withdrawFromEscrow (this : instance) (amount : Z) (st : chain)
    : Exc TransactionResult * chain :=
  match this.(contracts).(mpe), this.(inst_wallet) with
  | Some escrow, Some w => send_and_wait w escrow (mpe_withdraw amount) st
  | _, _ => (Throw (Error "MPE contract or wallet not initialized"), st)
  end.

Definition addFundsToChannel (this : instance) (channelId : number) (amount : Z)
    (st : chain) : Exc TransactionResult * chain :=
  match this.(contracts).(mpe), this.(inst_wallet) with
  | Some escrow, Some w =>
      send_and_wait w escrow (mpe_channelAddFunds channelId amount) st
  | _, _ => (Throw (Error "MPE contract or wallet not initialized"), st)
  end.

Definition extendChannel (this : instance) (channelId newExpiration : number)
    (st : chain) : Exc TransactionResult * chain :=
  match this.(contracts).(mpe), this.(inst_wallet) with
  | Some escrow, Some w =>
      send_and_wait w escrow (mpe_channelExtend channelId newExpiration) st
  | _, _ => (Throw (Error "MPE contract or wallet not initialized"), st)
  end.

Definition claimChannelTimeout (this : instance) (channelId : number)
    (st : chain) : Exc TransactionResult * chain :=
  match this.(contracts).(mpe), this.(inst_wallet) with
  | Some escrow, Some w =>
      send_and_wait w escrow (mpe_channelClaimTimeout channelId) st
  | _, _ => (Throw (Error "MPE contract or wallet not initialized"), st)
  end.

Definition getCurrentBlock (st : chain) : Exc number := getBlockNumber st.

(** [feeData.gasPrice || 0n] *)
Definition getGasPrice (st : chain) : Exc Z :=
  gasPrice ← getFeeData_gasPrice st;
  mret (default 0 gasPrice).

End Methods.

End EthereumClient.

(* ===================================================================== *)
(** * [transport/cardanoClient.ts]                                        *)
(* ===================================================================== *)

Module CardanoClient.

(** [/[a-z0-9]+$/] *)
Definition is_payload (s : string) : bool :=
  negb (String.eqb s EmptyString) && all_chars (fun c => is_lower c || is_digit c) s.

(** [/^addr(_test)?1[a-z0-9]+$/.test(address)] *)
Definition isValidAddress (address : string) : bool :=
  match after_prefix "addr" address with
  | Some rest =>
      let rest := match after_prefix "_test" rest with
                  | Some rest' => rest'
                  | None => rest
                  end in
      match rest with
      | String "1" payload => is_payload payload
      | _ => false
      end
  | None => false
  end.

(** [interface CardanoAmount] and [interface CardanoAddressInfo] *)
Record CardanoAmount : Type := {
  ca_unit : string;
  ca_quantity : string
}.

Record CardanoAddressInfo : Type := {
  ai_address : string;
  ai_amount : list CardanoAmount;
  ai_stake_address : option string;
  ai_type : string;
  ai_script : bool
}.

Inductive tx_status : Type := pending | success | failed.

Record CardanoTransactionResult : Type := {
  hash : string;
  block : option string;
  slot : option number;
  status : tx_status
}.

(** The body of the answer to [/txs/{hash}] *)
Record transaction_data : Type := {
  td_hash : string;
  td_block : option string;
  td_slot : option number
}.

Definition AGIX_POLICY_ID : string :=
  "f43a62fdc3965df486de8a0d32fe800963589c41b38946602a0dc535".
Definition AGIX_ASSET_NAME : string := "41474958".

(** The Blockfrost API behind [this.api]: [get] on the path of an
    address and on the path of a transaction, each answering with the
    body of the response or throwing. *)
Class Blockfrost : Type := {
  get_address : string -> Exc CardanoAddressInfo;
  get_transaction : string -> Exc transaction_data
}.

(** [obj[key] = value] on a fresh object literal: an own property is
    written, except under the key [__proto__], where the assignment of a
    primitive value changes nothing. *)
Definition assign {A : Type} (key : string) (value : A) (obj : gmap string A)
    : gmap string A :=
  if String.eqb key "__proto__" then obj else <[key := value]> obj.

Section WithApi.
Context `{Builtins} `{Blockfrost}.

Definition getAddressInfo (address : string) : Exc CardanoAddressInfo :=
  get_address ("/addresses/" ++ address).

(** [found?.quantity || '0'] *)
Definition quantity_or_zero (found : option CardanoAmount) : string :=
  match found with
  | Some a => string_or a.(ca_quantity) "0"
  | None => "0"
  end.

Definition getAdaBalance (address : string) : Exc Z :=
  info ← getAddressInfo address;
  let lovelace :=
    List.find (fun a => String.eqb a.(ca_unit) "lovelace") info.(ai_amount) in
  BigInt_of_string (quantity_or_zero lovelace).

Definition getAgixBalance (address : string) : Exc Z :=
  info ← getAddressInfo address;
  let agixUnit := (AGIX_POLICY_ID ++ AGIX_ASSET_NAME)%string in
  let agix :=
    List.find (fun a => String.eqb a.(ca_unit) agixUnit) info.(ai_amount) in
  BigInt_of_string (quantity_or_zero agix).

(** The loop of [getTokenBalances] over the amounts that are left *)
Fixpoint token_balances (amounts : list CardanoAmount) (balances : gmap string Z)
    : Exc (gmap string Z) :=
  match amounts with
  | [] => Ok balances
  | amount :: rest =>
      q ← BigInt_of_string amount.(ca_quantity);
      token_balances rest (assign amount.(ca_unit) q balances)
  end.

Definition getTokenBalances (address : string) : Exc (gmap string Z) :=
  info ← getAddressInfo address;
  token_balances info.(ai_amount) ∅.

Definition getTransaction (hash : string) : Exc CardanoTransactionResult :=
  try_catch
    (response_data ← get_transaction ("/txs/" ++ hash);
     mret {| hash := response_data.(td_hash);
             block := response_data.(td_block);
             slot := response_data.(td_slot);
             status := success |})
    (fun _ => mret {| hash := hash; block := None; slot := None;
                      status := pending |}).

End WithApi.

End CardanoClient.

(* ===================================================================== *)
(** * Reference instances of the interfaces                               *)
(* ===================================================================== *)

(** Small instances of [Builtins], [Signer] and [Mpe], on which the
    statements below are evaluated. *)
Module Models.
Import Ethers PaymentUtils EthereumClient.

(** A runtime whose string parsers recognise no input: [parseFloat]
    answers NaN and [BigInt] throws on every string.  Numbers are
    printed through their integer value. *)
Definition unparsed : Builtins :=
  {| parseFloat := fun _ => NaN;
     BigInt_of_string := fun _ => Throw SyntaxError;
     Number_toString := fun n =>
       match integer_value n with
       | Some z => BigInt_toString z
       | None => "NaN"
       end |}.

(** A signature scheme without secrets and with one wallet: the
    signature of a message is the message in hexadecimal, and recovery
    succeeds on exactly that string. *)
Definition symbolic_address : string :=
  "0x00c5496aEe77C1bA1f0854206A26DdA82a81D6D8".

Definition symbolic : Signer :=
  {| wallet := unit;
     wallet_address := fun _ => symbolic_address;
     signMessage := fun _ m => Ok (hexlify m);
     verifyMessage := fun m sig =>
       if String.eqb sig (hexlify m) then Ok symbolic_address
       else Throw (Error "invalid signature");
     Signature_from := fun sig => Ok (27, sig, sig) |}.

(** A chain that answers the next transaction with the next receipt of
    a script, and whose channel table is a Solidity mapping: the getter
    returns the stored tuple, and the zero tuple for an id that was
    never written. *)
Record scripted : Type := {
  script : list (string * Receipt);
  table : gmap Z channel_tuple
}.

Definition zero_address : string := "0x0000000000000000000000000000000000000000".
Definition zero_bytes32 : string :=
  "0x0000000000000000000000000000000000000000000000000000000000000000".

Definition zero_tuple : channel_tuple :=
  {| t_nonce := 0; t_sender := zero_address; t_signer := zero_address;
     t_recipient := zero_address; t_groupId := zero_bytes32;
     t_value := 0; t_expiration := 0 |}.

Definition scripted_mpe : Mpe scripted :=
  {| mpe_openChannel := fun _ _ _ _ _ st =>
       match st.(script) with
       | [] => Throw (Error "could not send the transaction")
       | (h, rc) :: rest => Ok (h, rc, {| script := rest; table := st.(table) |})
       end;
     mpe_channels := fun id st =>
       z ← getUint (OfNumber id);
       mret (default zero_tuple (st.(table) !! z)) |}.

(** Two receipts: one whose second log is the ChannelOpen event of
    channel 42, one without such an event. *)
Definition transfer_topic : string :=
  "0xddf252ad1be2c89b69c2b069fc378daa952ba7f163c4a11628f55a4df523b3ef".

Definition receipt_with_event : Receipt :=
  {| rc_blockNumber := Number_of_bigint 19000001;
     rc_status := 1;
     rc_gasUsed := 143210;
     rc_gasPrice := 20000000000;
     rc_logs :=
       [ {| topics := [transfer_topic] |};
         {| topics :=
              [ChannelOpen_topic;
               "0x000000000000000000000000000000000000000000000000000000000000002a";
               "0x00000000000000000000000000c5496aee77c1ba1f0854206a26dda82a81d6d8";
               "0x0000000000000000000000005e592f9b1d303183d963635f895f0f0c48284f4e"] |} ] |}.

Definition receipt_without_event : Receipt :=
  {| rc_blockNumber := Number_of_bigint 19000002;
     rc_status := 1;
     rc_gasUsed := 51234;
     rc_gasPrice := 20000000000;
     rc_logs := [ {| topics := [transfer_topic] |} ] |}.

(** A receipt whose ChannelOpen log carries the signature hash and no
    second topic. *)
Definition receipt_with_bare_event : Receipt :=
  {| rc_blockNumber := Number_of_bigint 19000003;
     rc_status := 1;
     rc_gasUsed := 140001;
     rc_gasPrice := 20000000000;
     rc_logs := [ {| topics := [ChannelOpen_topic] |} ] |}.

(** A ledger on which channel 3 is open. *)
Definition channel_3 : channel_tuple :=
  {| t_nonce := 0;
     t_sender := symbolic_address;
     t_signer := symbolic_address;
     t_recipient := "0x5e592F9b1d303183d963635f895f0f0C48284f4e";
     t_groupId := "0x0100000000000000000000000000000000000000000000000000000000000000";
     t_value := 500000000;
     t_expiration := 19011520 |}.

Definition ledger_3 : scripted :=
  {| script := [("0x01", receipt_with_event); ("0x02", receipt_without_event)];
     table := {[ 3 := channel_3 ]} |}.

Definition ready_client : @client symbolic :=
  @Build_client symbolic (Some (tt : @wallet symbolic)) true.

(** Wallets for the symbolic scheme: every key and every phrase gives
    the one wallet. *)
Definition symbolic_wallets : @Wallets symbolic :=
  {| Wallet_new := fun _ => Ok (tt : @wallet symbolic);
     hd_wallet := unit;
     Wallet_fromPhrase := fun _ => Ok tt;
     derivePath := fun _ _ => Ok (tt : @wallet symbolic) |}.

(** The scripted chain answers every transaction with the next receipt
    of its script and fails when the script is used up; its balances are
    zero. *)
Definition scripted_chain : Chain scripted :=
  {| send := fun _ _ _ st =>
       match st.(script) with
       | [] => (Throw (Error "could not send the transaction"), st)
       | (h, rc) :: rest => (Ok (h, rc), {| script := rest; table := st.(table) |})
       end;
     agixToken_balanceOf := fun _ _ _ => Ok 0;
     mpe_balances := fun _ _ _ => Ok 0;
     getBalance := fun _ _ => Ok 0;
     getBlockNumber := fun _ => Ok (Number_of_bigint 19000000);
     getFeeData_gasPrice := fun _ => Ok None |}.

(** Three credentials: a private key on Ethereum Mainnet, the same on
    Cardano Mainnet, and an empty private key on Sepolia. *)
Definition mainnet_credentials : gmap string string :=
  object_literal
    [("network", "ethereumMainnet"); ("ethereumRpcUrl", EmptyString);
     ("authMethod", "privateKey");
     ("privateKey",
      "0x0123456789abcdef0123456789abcdef0123456789abcdef0123456789abcdef")].

Definition cardano_credentials : gmap string string :=
  object_literal
    [("network", "cardanoMainnet"); ("ethereumRpcUrl", EmptyString);
     ("authMethod", "privateKey");
     ("privateKey",
      "0x0123456789abcdef0123456789abcdef0123456789abcdef0123456789abcdef")].

Definition keyless_credentials : gmap string string :=
  object_literal
    [("network", "ethereumSepolia"); ("ethereumRpcUrl", EmptyString);
     ("authMethod", "privateKey"); ("privateKey", EmptyString)].

(** The clients that [createEthereumClient] makes of them *)
Definition mainnet_instance : @instance symbolic :=
  @Build_instance symbolic
    (Some Networks.ETHEREUM_MAINNET.(Networks.rpcUrl))
    (Some (tt : @wallet symbolic))
    (Networks.Configured Networks.ETHEREUM_MAINNET)
    (initializeContracts (Networks.Configured Networks.ETHEREUM_MAINNET)).

Definition cardano_instance : @instance symbolic :=
  @Build_instance symbolic
    (Some Networks.CARDANO_MAINNET.(Networks.rpcUrl))
    (Some (tt : @wallet symbolic))
    (Networks.Configured Networks.CARDANO_MAINNET)
    (initializeContracts (Networks.Configured Networks.CARDANO_MAINNET)).

Definition keyless_instance : @instance symbolic :=
  @Build_instance symbolic
    (Some Networks.ETHEREUM_SEPOLIA.(Networks.rpcUrl))
    None
    (Networks.Configured Networks.ETHEREUM_SEPOLIA)
    (initializeContracts (Networks.Configured Networks.ETHEREUM_SEPOLIA)).

(** A runtime whose [BigInt] parses the strings of decimal digits, the
    empty string being 0, and throws on every other string. *)
Fixpoint decimal_value (acc : Z) (s : string) : option Z :=
  match s with
  | EmptyString => Some acc
  | String c r =>
      if is_digit c then decimal_value (10 * acc + (code c - 48)) r else None
  end.

Definition decimal : Builtins :=
  {| parseFloat := fun _ => NaN;
     BigInt_of_string := fun s =>
       match decimal_value 0 s with
       | Some z => Ok z
       | None => Throw SyntaxError
       end;
     Number_toString := @Number_toString unparsed |}.

(** A Blockfrost API that knows one address and one transaction *)
Definition sample_address : string :=
  "addr1qx2fxv2umyhttkxyxp8x0dlpdt3k6cwng5pxj3jhsydzer3n0d3vllmyqwsx5wktcd8".

Definition sample_address_info : CardanoClient.CardanoAddressInfo :=
  {| CardanoClient.ai_address := sample_address;
     CardanoClient.ai_amount :=
       [ {| CardanoClient.ca_unit := "lovelace";
            CardanoClient.ca_quantity := "1500000" |};
         {| CardanoClient.ca_unit :=
              (CardanoClient.AGIX_POLICY_ID ++ CardanoClient.AGIX_ASSET_NAME)%string;
            CardanoClient.ca_quantity := "250000000" |} ];
     CardanoClient.ai_stake_address := None;
     CardanoClient.ai_type := "shelley";
     CardanoClient.ai_script := false |}.

Definition sample_transaction : string :=
  "6e5f825c42c1c6d6b77f2a14092f3b78c8f1b66db6f4cf8caec1555b6f967b3b".

Definition sample_blockfrost : CardanoClient.Blockfrost :=
  {| CardanoClient.get_address := fun path =>
       if String.eqb path ("/addresses/" ++ sample_address)
       then Ok sample_address_info
       else Throw (Error "Request failed with status code 404");
     CardanoClient.get_transaction := fun path =>
       if String.eqb path ("/txs/" ++ sample_transaction)
       then Ok {| CardanoClient.td_hash := sample_transaction;
                  CardanoClient.td_block := Some "7e16781b40ebf8b6da18f7b5e8ade855d6738095ef2f1c58c77e88b6e45997a4";
                  CardanoClient.td_slot := Some (Number_of_bigint 412162133) |}
       else Throw (Error "Request failed with status code 404") |}.

(** An HTTP client that serves one method, which answers with the
    request headers it was sent; every other path is an axios error with
    a message in the body of the response.  Its health endpoint answers
    with status 200. *)
Definition echo_http : GrpcClient.Http (gmap string string) (gmap string string) :=
  {| GrpcClient.http_post := fun _ path _ headers _ =>
       if String.eqb path "/example.Service/Method"
       then GrpcClient.Response headers
       else GrpcClient.AxiosError (Some "unavailable")
              "Request failed with status code 503";
     GrpcClient.http_get := fun _ _ _ => GrpcClient.Response 200 |}.

(** A chain together with the record of what was sent to it: the
    sender, the contract and the call of every transaction, the oldest
    first. *)
Record traced (chain : Type) : Type := {
  sent : list (string * string * contract_call);
  inner : chain
}.
Arguments sent {chain} _.
Arguments inner {chain} _.

Definition traced_chain {chain : Type} `{Chain chain} : Chain (traced chain) :=
  {| send := fun from to call st =>
       let '(result, st') := send from to call st.(inner) in
       (result, {| sent := st.(sent) ++ [(from, to, call)]; inner := st' |});
     agixToken_balanceOf := fun token addr st =>
       agixToken_balanceOf token addr st.(inner);
     mpe_balances := fun escrow addr st => mpe_balances escrow addr st.(inner);
     getBalance := fun addr st => getBalance addr st.(inner);
     getBlockNumber := fun st => getBlockNumber st.(inner);
     getFeeData_gasPrice := fun st => getFeeData_gasPrice st.(inner) |}.

End Models.

(* ===================================================================== *)
(** * Notions used in the statements                                      *)
(* ===================================================================== *)

Module Spec.
Import Ethers.

(** The bytes that a claim over [(mpeAddress, channelId, nonce, amount)]
    packs, and the 32-byte digest that is signed and verified. *)
Definition claim_packed (mpeAddress : string) (channelId nonce : number)
    (amount : Z) : Exc bytes :=
  solidityPacked
    [SolString "__MPE_claim_message"; SolAddress mpeAddress;
     SolUint256 (OfNumber channelId); SolUint256 (OfNumber nonce);
     SolUint256 (OfBigInt amount)].

Definition claim_digest (mpeAddress : string) (channelId nonce : number)
    (amount : Z) : Exc bytes :=
  packed ← claim_packed mpeAddress channelId nonce amount;
  getBytes (keccak256 packed).

(** The fields a claim binds, as the packing reads them: the 20 bytes
    of the address and the three unsigned integers. *)
Definition claim_fields (mpeAddress : string) (channelId nonce : number)
    (amount : Z) : Exc (bytes * Z * Z * Z) :=
  a ← pack (SolAddress mpeAddress);
  c ← getUint (OfNumber channelId);
  n ← getUint (OfNumber nonce);
  v ← getUint (OfBigInt amount);
  mret (a, c, n, v).

(** The two ideal properties of the signature scheme: recovery returns
    the address of the wallet that signed, and it does not return that
    address when it is run on another message. *)
Definition recovers_signer `{Signer} : Prop :=
  forall (w : wallet) (m : bytes) (sig : string),
    signMessage w m = Ok sig -> verifyMessage m sig = Ok (wallet_address w).

Definition binds_message `{Signer} : Prop :=
  forall (w : wallet) (m m' : bytes) (sig recovered : string),
    signMessage w m = Ok sig -> m' <> m ->
    verifyMessage m' sig = Ok recovered ->
    toLowerCase recovered <> toLowerCase (wallet_address w).

(** The shapes of string that the two address checks know, written out:
    40 hexadecimal digits (the pattern [[0-9a-fA-F]{40}] that ethers
    tries with an optional [0x] in front), the ICAP form
    [XE[0-9]{2}[0-9A-Za-z]{30,31}], and the payload [[a-z0-9]+] of the
    Cardano pattern. *)
Definition hex40_digits (h : string) : Prop :=
  String.length h = 40%nat /\ all_chars is_hex_digit h = true.

Definition icap_form (s : string) : Prop :=
  exists (d1 d2 : ascii) (r : string),
    s = String "X" (String "E" (String d1 (String d2 r)))
    /\ is_digit d1 = true /\ is_digit d2 = true
    /\ all_chars (fun c => is_digit c || is_upper c || is_lower c) r = true
    /\ (String.length r = 30%nat \/ String.length r = 31%nat).

Definition cardano_payload (p : string) : Prop :=
  p <> EmptyString /\ all_chars (fun c => is_lower c || is_digit c) p = true.

(** [z] is the floor of the finite number [x]. *)
Definition floor_of (z : Z) (x : number) : Prop :=
  match x with
  | S754_zero _ => z = 0
  | S754_finite s m (Zneg k) =>
      z * 2 ^ Zpos k <= cond_Zopp s (Zpos m) < (z + 1) * 2 ^ Zpos k
  | S754_finite s m e => z = cond_Zopp s (Zpos m) * 2 ^ e
  | _ => False
  end.

(** The big-endian value of a byte sequence *)
Definition be_step (acc : Z) (b : byte) : Z := 256 * acc + byte_value b.

Definition be_value (bs : bytes) : Z := fold_left be_step bs 0.

(** The last entry for [unit] among the amounts of an address *)
Definition last_entry (unit : string)
    (amounts : list CardanoClient.CardanoAmount)
    : option CardanoClient.CardanoAmount :=
  List.find (fun a => String.eqb a.(CardanoClient.ca_unit) unit) (rev amounts).

End Spec.

(* ===================================================================== *)
(** * Theorems                                                            *)
(* ===================================================================== *)

(** Unfolding the exception monad *)
Ltac exc_unfold :=
  unfold mbind, Exc_bind, mret, Exc_ret, try_catch in *.

(** ** Known values of the runtime and library functions *)

Section KnownValues.
Import Ethers.

(** The Keccak-256 hash of the empty input. *)
Example keccak256_empty :
  keccak256 []
  = "0xc5d2460186f7233c927e7db2dcc703c0e500b653ca82273b7bfad8045d85a470"%string.
Proof. vm_compute. reflexivity. Qed.

(** The checksum spelling of the mainnet escrow address, from either
    single-case spelling and without the prefix. *)
Example getAddress_mainnet_escrow :
  getAddress "0x5e592f9b1d303183d963635f895f0f0c48284f4e"
  = Ok Networks.ETHEREUM_MAINNET_mpeAddress
  /\ getAddress "0x5E592F9B1D303183D963635F895F0F0C48284F4E"
     = Ok Networks.ETHEREUM_MAINNET_mpeAddress
  /\ getAddress "5e592f9b1d303183d963635f895f0f0c48284f4e"
     = Ok Networks.ETHEREUM_MAINNET_mpeAddress
  /\ getAddress Networks.ETHEREUM_MAINNET_mpeAddress
     = Ok Networks.ETHEREUM_MAINNET_mpeAddress.
Proof. repeat split; vm_compute; reflexivity. Qed.

(** An address in ICAP form. *)
Example getAddress_icap :
  getAddress "XE7338O073KYGTWWZN0F2WZ0R8PX5ZPPZS"
  = Ok "0x00c5496aEe77C1bA1f0854206A26DdA82a81D6D8"%string.
Proof. vm_compute. reflexivity. Qed.

Example getBytes_examples :
  getBytes "0x01ff" = Ok [Byte.x01; Byte.xff]
  /\ getBytes "0x1" = Throw (invalid_argument "invalid BytesLike value")
  /\ getBytes "01ff" = Throw (invalid_argument "invalid BytesLike value").
Proof. repeat split; vm_compute; reflexivity. Qed.

(** A [uint256] is packed on 32 bytes, a number outside the safe
    integers or below zero is refused. *)
Example pack_uint256_examples :
  pack (SolUint256 (OfNumber (Number_of_bigint 258)))
  = Ok (repeat Byte.x00 30 ++ [Byte.x01; Byte.x02])
  /\ pack (SolUint256 (OfNumber (literal 15 1))) = Throw (invalid_argument "underflow")
  /\ pack (SolUint256 (OfNumber (Number_of_bigint (2 ^ 53))))
     = Throw (invalid_argument "overflow")
  /\ pack (SolUint256 (OfBigInt (-1)))
     = Throw (invalid_argument "unsigned value cannot be negative")
  /\ pack (SolUint256 (OfBigInt (2 ^ 256)))
     = Throw (invalid_argument "padding exceeds data length").
Proof. repeat split; vm_compute; reflexivity. Qed.

Example base64_examples :
  Buffer_toString_base64 (toUtf8 "f") = "Zg=="%string
  /\ Buffer_toString_base64 (toUtf8 "fo") = "Zm8="%string
  /\ Buffer_toString_base64 (toUtf8 "foobar") = "Zm9vYmFy"%string
  /\ base64_decode "Zm9vYg==" = Some (toUtf8 "foob")
  /\ base64_decode "Zm9vYg=" = None.
Proof. repeat split; vm_compute; reflexivity. Qed.

Example Buffer_from_hex_examples :
  Buffer_from_hex "1634" = [Byte.x16; Byte.x34]
  /\ Buffer_from_hex "1ag123" = [Byte.x1a]
  /\ Buffer_from_hex "1a7" = [Byte.x1a].
Proof. repeat split; vm_compute; reflexivity. Qed.

Example parseInt16_examples :
  parseInt16 "0x000000000000000000000000000000000000000000000000000000000000002a"
  = Number_of_bigint 42
  /\ parseInt16 "ff" = Number_of_bigint 255
  /\ parseInt16 "  -0X1fz" = Number_of_bigint (-31)
  /\ parseInt16 "0x" = NaN
  /\ parseInt16 "undefined" = NaN.
Proof. repeat split; vm_compute; reflexivity. Qed.

Example BigInt_toString_examples :
  BigInt_toString 0 = "0"%string
  /\ BigInt_toString 500000000 = "500000000"%string
  /\ BigInt_toString (-45) = "-45"%string.
Proof. repeat split; vm_compute; reflexivity. Qed.

(** The topic of the ChannelOpen event is the hash of its signature. *)
Example ChannelOpen_topic_value :
  EthereumClient.ChannelOpen_topic
  = Ethers.id "ChannelOpen(uint256,uint256,address,address,address,bytes32,uint256,uint256)"
  /\ EthereumClient.ChannelOpen_topic
     = "0x172899db3034d5e4e68a2873998cc66a59bad4610fa6319a51f31f75e84452b7"%string.
Proof. split; vm_compute; reflexivity. Qed.

End KnownValues.

(** ** Unit conversion and minimum deposit *)

Section UnitConversion.
Import UnitConverter PaymentUtils.
Context `{Builtins}.

(** The literal [1.1] is the binary64 value 4953959590107546 * 2^-52,
    the one nearest to 11/10: twice its distance to 11/10 is below one
    unit in the last place. *)
Lemma literal_1_1 :
  literal 11 1 = S754_finite false 4953959590107546 (-52)
  /\ 2 * Z.abs (10 * 4953959590107546 - 11 * 2 ^ 52) <= 10.
Proof. split; [ vm_compute; reflexivity | vm_compute; discriminate ]. Qed.

(** The values of the converter's own test cases. *)
Lemma agixToCogs_examples :
  agixToCogs (ANum (Number_of_bigint 1)) = Ok 100000000
  /\ agixToCogs (ANum (literal 25 1)) = Ok 250000000
  /\ agixToCogs (ANum (Number_of_bigint 0)) = Ok 0
  /\ ethToWei (ANum (Number_of_bigint 1)) = Ok (10 ^ 18)
  /\ adaToLovelace (ANum (Number_of_bigint 1)) = Ok 1000000
  /\ cogsToAgix (UBig 250000000) = Ok (literal 25 1).
Proof. repeat split; vm_compute; reflexivity. Qed.

(** C2.  The round trip through the display denomination loses one
    smallest unit on small amounts: 3 cogs come back as 2, 447 wei as
    446 and 249 lovelace as 248.  The quotient [c / 10^k] is rounded to
    binary64, the product with [10^k] lands just below [c], and
    [Math.floor] drops it to [c - 1]. *)
Theorem unit_round_trip_loses_a_unit :
  (x ← cogsToAgix (UBig 3); agixToCogs (ANum x)) = Ok 2
  /\ (x ← weiToEth (UBig 447); ethToWei (ANum x)) = Ok 446
  /\ (x ← lovelaceToAda (UBig 249); adaToLovelace (ANum x)) = Ok 248.
Proof. repeat split; vm_compute; reflexivity. Qed.

(** C3.  For a price of 1000000 cogs, 100 calls and the multiplier
    [1.1] the deposit computed is 110000001 cogs, one more than the
    integer ceiling 110000000 of the decimal product. *)
Theorem minimum_deposit_drifts :
  calculateMinimumDeposit 1000000 (Number_of_bigint 100) (Some (literal 11 1))
  = Ok 110000001.
Proof. vm_compute. reflexivity. Qed.

(** With the default multiplier [1.2] the same plan comes out at the
    integer ceiling. *)
Example minimum_deposit_default :
  calculateMinimumDeposit 1000000 (Number_of_bigint 100) None = Ok 120000000
  /\ calculateMinimumDeposit 1000000 (literal 15 1) None = Throw RangeError.
Proof. split; vm_compute; reflexivity. Qed.

End UnitConversion.

(** ** Metadata maps *)

Section Metadata.
Context `{Builtins}.

(** C10.  The payment-type key tells the two kinds of authorization
    apart: a free-call map carries ["free-call"] and an empty claim
    signature, an escrow map carries ["escrow"], in the payment
    utilities and in the gRPC client alike. *)
Theorem payment_type_discriminates
    (userAddress organizationId serviceId authToken : string)
    (currentBlock channelId nonce : number) (amount : Z)
    (sig : PaymentUtils.PaymentSignature) (sigText : string) :
  let free := PaymentUtils.createFreeCallMetadata
                userAddress organizationId serviceId authToken currentBlock in
  let free' := GrpcClient.createFreeCallMetadata
                 userAddress organizationId serviceId authToken currentBlock in
  let paid := PaymentUtils.createPaymentMetadata channelId nonce amount sig in
  let paid' := GrpcClient.createPaymentMetadata channelId nonce amount sigText in
  free !! "snet-payment-type" = Some "free-call"
  /\ free !! "snet-payment-channel-signature-bin" = Some EmptyString
  /\ free' !! "snet-payment-type" = Some "free-call"
  /\ free' !! "snet-payment-channel-signature-bin" = Some EmptyString
  /\ paid !! "snet-payment-type" = Some "escrow"
  /\ paid' !! "snet-payment-type" = Some "escrow"
  /\ free !! "snet-payment-type" <> paid !! "snet-payment-type"
  /\ free' !! "snet-payment-type" <> paid' !! "snet-payment-type".
Proof.
  cbv zeta.
  unfold PaymentUtils.createFreeCallMetadata, GrpcClient.createFreeCallMetadata,
    PaymentUtils.createPaymentMetadata, GrpcClient.createPaymentMetadata,
    object_literal.
  cbn [fold_left fst snd].
  repeat split; by simplify_map_eq.
Qed.

End Metadata.

(** ** Characters and strings *)

Section Strings.

Lemma toLowerCase_char_idem (c : ascii) :
  toLowerCase_char (toLowerCase_char c) = toLowerCase_char c.
Proof. destruct c as [[] [] [] [] [] [] [] []]; vm_compute; reflexivity. Qed.

Lemma toLowerCase_toUpperCase_char (c : ascii) :
  toLowerCase_char (toUpperCase_char c) = toLowerCase_char c.
Proof. destruct c as [[] [] [] [] [] [] [] []]; vm_compute; reflexivity. Qed.

Lemma toLowerCase_idem (s : string) :
  toLowerCase (toLowerCase s) = toLowerCase s.
Proof.
  induction s as [|c s IH]; [reflexivity|].
  cbn [toLowerCase map_chars] in *.
  now rewrite toLowerCase_char_idem, IH.
Qed.

Lemma toLowerCase_toUpperCase (s : string) :
  toLowerCase (toUpperCase s) = toLowerCase s.
Proof.
  induction s as [|c s IH]; [reflexivity|].
  unfold toLowerCase, toUpperCase in *. cbn [map_chars].
  now rewrite toLowerCase_toUpperCase_char, IH.
Qed.

End Strings.

(** ** The claim verifier *)

Section Verifier.
Import Ethers PaymentUtils Spec.
Context `{Signer}.

(** The verifier, without its [try] and [catch]. *)
Lemma verifyPaymentSignature_eq (mpeAddress : string) (channelId nonce : number)
    (amount : Z) (signature expectedSigner : string) :
  verifyPaymentSignature mpeAddress channelId nonce amount signature expectedSigner
  = Ok match claim_digest mpeAddress channelId nonce amount with
       | Throw _ => false
       | Ok digest =>
           match verifyMessage digest signature with
           | Throw _ => false
           | Ok recovered =>
               String.eqb (toLowerCase recovered) (toLowerCase expectedSigner)
           end
       end.
Proof.
  unfold verifyPaymentSignature, claim_digest, claim_packed,
    solidityPackedKeccak256.
  destruct (solidityPacked _) as [packed|e]; exc_unfold; [|reflexivity].
  destruct (getBytes (keccak256 packed)) as [digest|e]; [|reflexivity].
  destruct (verifyMessage digest signature) as [recovered|e]; reflexivity.
Qed.

(** C4.  The verifier returns a boolean on every input: [false] when
    packing the claim throws or when the signature does not yield a
    signer, and otherwise the comparison of the recovered address with
    the expected signer after both were put in lower case; so the
    verdict does not depend on the letter case of [expectedSigner]. *)
Theorem verifier_never_throws (mpeAddress : string) (channelId nonce : number)
    (amount : Z) (signature expectedSigner : string) :
  verifyPaymentSignature mpeAddress channelId nonce amount signature expectedSigner
  = Ok match claim_digest mpeAddress channelId nonce amount with
       | Throw _ => false
       | Ok digest =>
           match verifyMessage digest signature with
           | Throw _ => false
           | Ok recovered =>
               String.eqb (toLowerCase recovered) (toLowerCase expectedSigner)
           end
       end
  /\ verifyPaymentSignature mpeAddress channelId nonce amount signature
       (toUpperCase expectedSigner)
     = verifyPaymentSignature mpeAddress channelId nonce amount signature
         expectedSigner
  /\ verifyPaymentSignature mpeAddress channelId nonce amount signature
       (toLowerCase expectedSigner)
     = verifyPaymentSignature mpeAddress channelId nonce amount signature
         expectedSigner.
Proof.
  rewrite !verifyPaymentSignature_eq.
  now rewrite toLowerCase_toUpperCase, toLowerCase_idem.
Qed.

End Verifier.

(** ** Address checks *)

Section Addresses.
Import Ethers.

Lemma mixed_case_0x (s : string) :
  mixed_case (String "0" (String "x" s)) = mixed_case s.
Proof. reflexivity. Qed.

Lemma after_prefix_app (p s : string) :
  after_prefix p (p ++ s) = Some s.
Proof.
  induction p as [|a p IH]; [reflexivity|].
  change (after_prefix (String a p) (String a p ++ s)%string)
    with (if Ascii.eqb a a then after_prefix p (p ++ s)%string else None).
  now rewrite Ascii.eqb_refl.
Qed.

(** The checks are decided by three patterns only. *)
Lemma isAddress_hex (s : string) :
  is_hex40 s = true ->
  isAddress ("0x" ++ s)
  = negb (mixed_case s) || String.eqb (getChecksumAddress ("0x" ++ s)) ("0x" ++ s).
Proof.
  intros Hs. unfold isAddress, getAddress, matches_hex_address, startsWith.
  rewrite after_prefix_app, Hs.
  change ("0x" ++ s)%string with (String "0" (String "x" s)).
  rewrite mixed_case_0x.
  destruct (mixed_case s); [|reflexivity].
  destruct (String.eqb _ _); reflexivity.
Qed.

Lemma isAddress_unmatched (s : string) :
  matches_hex_address s = false -> matches_icap s = false ->
  isAddress s = false.
Proof.
  intros H1 H2. unfold isAddress, getAddress. now rewrite H1, H2.
Qed.

Lemma addr1_not_ethereum (p : string) :
  matches_hex_address ("addr1" ++ p) = false
  /\ matches_icap ("addr1" ++ p) = false.
Proof.
  split; [|reflexivity].
  unfold matches_hex_address, is_hex40.
  change (after_prefix "0x" ("addr1" ++ p)) with (@None string).
  apply andb_false_r.
Qed.

Lemma after_prefix_inv (p s r : string) :
  after_prefix p s = Some r -> s = (p ++ r)%string.
Proof.
  revert s. induction p as [|a p IH]; intros s.
  - cbn [after_prefix]. intros Hr. inversion Hr. reflexivity.
  - destruct s as [|b s]; [discriminate|]. cbn [after_prefix].
    destruct (Ascii.eqb_spec a b) as [->|]; [|discriminate].
    intros Hr. now rewrite (IH _ Hr).
Qed.

Lemma is_hex40_digits (h : string) :
  is_hex40 h = true <-> Spec.hex40_digits h.
Proof.
  unfold is_hex40, Spec.hex40_digits.
  rewrite andb_true_iff, Nat.eqb_eq. reflexivity.
Qed.

Lemma is_payload_cardano (p : string) :
  CardanoClient.is_payload p = true <-> Spec.cardano_payload p.
Proof.
  unfold CardanoClient.is_payload, Spec.cardano_payload.
  rewrite andb_true_iff, negb_true_iff, String.eqb_neq. reflexivity.
Qed.

(** What the patterns of the two checks accept has one of the three
    shapes. *)
Lemma matches_hex_address_inv (s : string) :
  matches_hex_address s = true ->
  exists h, Spec.hex40_digits h /\ (s = h \/ s = ("0x" ++ h)%string).
Proof.
  unfold matches_hex_address.
  destruct (after_prefix "0x" s) as [r|] eqn:Hprefix; intros Hhex.
  - exists r. split; [now apply is_hex40_digits|].
    right. now apply after_prefix_inv.
  - exists s. split; [now apply is_hex40_digits|]. now left.
Qed.

Lemma matches_icap_inv (s : string) :
  matches_icap s = true -> Spec.icap_form s.
Proof.
  destruct s as [|c1 s]; [discriminate|].
  destruct (Ascii.eqb_spec c1 "X") as [->|Hc1];
    [|destruct c1 as [[] [] [] [] [] [] [] []]; try discriminate;
      now destruct Hc1].
  destruct s as [|c2 s]; [discriminate|].
  destruct (Ascii.eqb_spec c2 "E") as [->|Hc2];
    [|destruct c2 as [[] [] [] [] [] [] [] []]; try discriminate;
      now destruct Hc2].
  destruct s as [|d1 [|d2 r]]; try discriminate.
  unfold matches_icap, is_alnum.
  rewrite !andb_true_iff, orb_true_iff, !Nat.eqb_eq.
  intros [[[Hd1 Hd2] Hr] Hlen]. exists d1, d2, r. auto.
Qed.

Lemma isValidAddress_inv (s : string) :
  CardanoClient.isValidAddress s = true ->
  exists p, Spec.cardano_payload p
            /\ (s = ("addr1" ++ p)%string \/ s = ("addr_test1" ++ p)%string).
Proof.
  unfold CardanoClient.isValidAddress.
  destruct (after_prefix "addr" s) as [rest|] eqn:Haddr; [|discriminate].
  apply after_prefix_inv in Haddr. subst s.
  destruct (after_prefix "_test" rest) as [rest'|] eqn:Htest.
  - apply after_prefix_inv in Htest. subst rest.
    destruct rest' as [|c p]; [discriminate|].
    destruct (Ascii.eqb_spec c "1") as [->|Hc];
      [|destruct c as [[] [] [] [] [] [] [] []]; try discriminate;
        now destruct Hc].
    intros Hp. exists p. split; [now apply is_payload_cardano|]. now right.
  - destruct rest as [|c p]; [discriminate|].
    destruct (Ascii.eqb_spec c "1") as [->|Hc];
      [|destruct c as [[] [] [] [] [] [] [] []]; try discriminate;
        now destruct Hc].
    intros Hp. exists p. split; [now apply is_payload_cardano|]. now left.
Qed.

Lemma addr_test1_not_ethereum (p : string) :
  matches_hex_address ("addr_test1" ++ p) = false
  /\ matches_icap ("addr_test1" ++ p) = false.
Proof.
  split; [|reflexivity].
  unfold matches_hex_address, is_hex40.
  change (after_prefix "0x" ("addr_test1" ++ p)) with (@None string).
  apply andb_false_r.
Qed.

(** C9, as the code has it.  [0x] followed by 40 hexadecimal digits
    passes the EVM check exactly when its letters are in one case, or in
    mixed case with the letters that the address checksum prescribes,
    and it never passes the Cardano check.  [addr1] or [addr_test1]
    followed by a payload passes the Cardano check exactly when the
    payload is a non-empty string of lower-case letters and digits, and
    it never passes the EVM check.  A string of none of the shapes the
    two checks know (40 hexadecimal digits with an optional [0x], the
    ICAP form, [addr1] or [addr_test1] with such a payload) fails
    both. *)
Theorem address_classification :
  (forall h, Spec.hex40_digits h ->
     (EthereumClient.isValidAddress ("0x" ++ h) = true
      <-> mixed_case h = false
          \/ getChecksumAddress ("0x" ++ h) = ("0x" ++ h)%string)
     /\ CardanoClient.isValidAddress ("0x" ++ h) = false)
  /\ (forall p,
        (CardanoClient.isValidAddress ("addr1" ++ p) = true
         <-> Spec.cardano_payload p)
        /\ (CardanoClient.isValidAddress ("addr_test1" ++ p) = true
            <-> Spec.cardano_payload p)
        /\ EthereumClient.isValidAddress ("addr1" ++ p) = false
        /\ EthereumClient.isValidAddress ("addr_test1" ++ p) = false)
  /\ (forall s,
        (forall h, Spec.hex40_digits h -> s <> h /\ s <> ("0x" ++ h)%string) ->
        ~ Spec.icap_form s ->
        (forall p, Spec.cardano_payload p ->
           s <> ("addr1" ++ p)%string /\ s <> ("addr_test1" ++ p)%string) ->
        EthereumClient.isValidAddress s = false
        /\ CardanoClient.isValidAddress s = false).
Proof.
  split; [|split].
  - intros h Hh. split; [|reflexivity].
    unfold EthereumClient.isValidAddress.
    rewrite isAddress_hex by now apply is_hex40_digits.
    rewrite orb_true_iff, negb_true_iff, String.eqb_eq. reflexivity.
  - intros p. split; [|split; [|split]].
    + rewrite <- is_payload_cardano. reflexivity.
    + rewrite <- is_payload_cardano. reflexivity.
    + destruct (addr1_not_ethereum p) as [H1 H2].
      now apply isAddress_unmatched.
    + destruct (addr_test1_not_ethereum p) as [H1 H2].
      now apply isAddress_unmatched.
  - intros s Hhex Hicap Hcardano. split.
    + apply isAddress_unmatched.
      * destruct (matches_hex_address s) eqn:Hm; [|reflexivity].
        apply matches_hex_address_inv in Hm as (h & Hh & Hs).
        destruct (Hhex h Hh) as [Hbare Hprefixed].
        destruct Hs; contradiction.
      * destruct (matches_icap s) eqn:Hm; [|reflexivity].
        apply matches_icap_inv in Hm. contradiction.
    + destruct (CardanoClient.isValidAddress s) eqn:Hm; [|reflexivity].
      apply isValidAddress_inv in Hm as (p & Hp & Hs).
      destruct (Hcardano p Hp) as [Hmain Htest].
      destruct Hs; contradiction.
Qed.

Lemma address_classification_witness :
  (EthereumClient.isValidAddress "0x5e592F9b1d303183d963635f895f0f0C48284f4e" = true
   /\ CardanoClient.isValidAddress "0x5e592F9b1d303183d963635f895f0f0C48284f4e" = false)
  /\ (CardanoClient.isValidAddress "addr1qx2fxv2umyhttkxyxp8x0dlpdt3k6cwng5pxj3jhsydzer3n0d3vllmyqwsx5wktcd8" = true
      /\ EthereumClient.isValidAddress "addr1qx2fxv2umyhttkxyxp8x0dlpdt3k6cwng5pxj3jhsydzer3n0d3vllmyqwsx5wktcd8" = false)
  /\ (EthereumClient.isValidAddress "not an address" = false
      /\ CardanoClient.isValidAddress "not an address" = false).
Proof.
  destruct address_classification as (Hhex & Hcardano & Hother).
  split; [|split].
  - destruct (Hhex "5e592F9b1d303183d963635f895f0f0C48284f4e") as [Hevm Hno].
    + split; vm_compute; reflexivity.
    + split; [|exact Hno]. apply Hevm. right. vm_compute; reflexivity.
  - destruct (Hcardano "qx2fxv2umyhttkxyxp8x0dlpdt3k6cwng5pxj3jhsydzer3n0d3vllmyqwsx5wktcd8")
      as (Hmain & _ & Hevm & _).
    split; [|exact Hevm]. apply Hmain.
    split; [discriminate | vm_compute; reflexivity].
  - apply (Hother "not an address").
    + intros h [Hlen _]. split; intros Hs.
      * subst h. discriminate Hlen.
      * discriminate Hs.
    + intros (d1 & d2 & r & Hs & _). discriminate Hs.
    + intros p _. split; intros Hs; discriminate Hs.
Defined.

(** C9 as stated fails on the escrow address configured for Sepolia,
    [0x] with 40 hexadecimal digits whose letter case is not the
    checksum's: the EVM check rejects it.  Forty hexadecimal digits
    without the prefix fit neither syntax and pass the EVM check. *)
Lemma sepolia_escrow_address_rejected :
  (String.length Networks.ETHEREUM_SEPOLIA_mpeAddress = 42%nat
   /\ option_map is_hex40 (after_prefix "0x" Networks.ETHEREUM_SEPOLIA_mpeAddress)
      = Some true
   /\ EthereumClient.isValidAddress Networks.ETHEREUM_SEPOLIA_mpeAddress = false)
  /\ (after_prefix "0x" "5e592f9b1d303183d963635f895f0f0c48284f4e" = None
      /\ after_prefix "addr" "5e592f9b1d303183d963635f895f0f0c48284f4e" = None
      /\ EthereumClient.isValidAddress "5e592f9b1d303183d963635f895f0f0c48284f4e" = true).
Proof. repeat split; vm_compute; reflexivity. Qed.

End Addresses.

(** ** Integers as numbers *)

Section Integers.

Lemma digits2_pos_size (p : positive) : digits2_pos p = Pos.size p.
Proof. induction p as [p IH|p IH|]; cbn; now rewrite ?IH. Qed.

Lemma digits2_pos_bound (a : positive) :
  Zpos a < 2 ^ 53 -> Zpos (digits2_pos a) <= 53.
Proof.
  intros Ha. rewrite digits2_pos_size.
  pose proof (Pos.size_le a) as Hs.
  assert (Hz : 2 ^ Zpos (Pos.size a) <= 2 * Zpos a).
  { change 2 with (Zpos 2) at 1. rewrite <- Pos2Z.inj_pow.
    change (2 * Zpos a) with (Zpos a~0). now apply Pos2Z.pos_le_pos. }
  destruct (Z_lt_le_dec 53 (Zpos (Pos.size a))) as [Hgt|]; [|assumption].
  exfalso.
  assert (2 ^ 54 <= 2 ^ Zpos (Pos.size a)) by (apply Z.pow_le_mono_r; lia).
  change (2 ^ 54) with (2 * 2 ^ 53) in *. lia.
Qed.

Lemma iter_xO_digits (a k : positive) :
  digits2_pos (Pos.iter xO a k) = (digits2_pos a + k)%positive.
Proof.
  induction k as [|k IH] using Pos.peano_ind.
  - cbn. now rewrite Pos.add_1_r.
  - rewrite Pos.iter_succ. cbn [digits2_pos]. rewrite IH. lia.
Qed.

Lemma iter_xO_value (a k : positive) :
  Zpos (Pos.iter xO a k) = Zpos a * 2 ^ Zpos k.
Proof.
  induction k as [|k IH] using Pos.peano_ind.
  - cbn. lia.
  - rewrite Pos.iter_succ, Pos2Z.inj_succ, Z.pow_succ_r by lia.
    rewrite Pos2Z.inj_xO, IH. lia.
Qed.

(** Rounding leaves a mantissa in canonical position as it is. *)
Lemma binary_round_aux_canonical (s : bool) (m : positive) (e : Z) :
  fexp prec emax (Zpos (digits2_pos m) + e) = e ->
  e <= emax - prec ->
  binary_round_aux prec emax s (Zpos m) e loc_Exact = S754_finite s m e.
Proof.
  intros Hcanon Hmax.
  unfold binary_round_aux, shr_fexp.
  cbn [Zdigits2]. rewrite Hcanon, Z.sub_diag.
  cbn [shr shr_record_of_loc loc_of_shr_record shr_m round_nearest_even Zdigits2].
  rewrite Hcanon, Z.sub_diag.
  cbn [shr shr_record_of_loc loc_of_shr_record shr_m round_nearest_even].
  apply Z.leb_le in Hmax. now rewrite Hmax.
Qed.

(** An integer below 2^53 in magnitude is a number, exactly. *)
Lemma binary_round_exact (s : bool) (a : positive) :
  Zpos a < 2 ^ 53 ->
  integer_value (binary_round prec emax s a 0) = Some (cond_Zopp s (Zpos a)).
Proof.
  intros Ha. pose proof (digits2_pos_bound a Ha) as Hd.
  pose proof (Pos2Z.is_pos (digits2_pos a)) as Hd0.
  assert (Hfexp : forall d, 0 < d <= 53 -> fexp prec emax d = d - 53).
  { intros d Hd'. unfold fexp, emin, prec, emax. lia. }
  unfold binary_round, shl_align.
  rewrite Z.add_0_r, Hfexp, Z.sub_0_r by lia.
  destruct (Zpos (digits2_pos a) - 53) as [|k|k] eqn:Hk; [|lia|].
  - rewrite binary_round_aux_canonical.
    + cbn [integer_value]. now rewrite Z.pow_0_r, Z.mul_1_r.
    + rewrite Z.add_0_r, Hfexp; lia.
    + unfold emax, prec. lia.
  - rewrite binary_round_aux_canonical.
    + cbn [integer_value].
      rewrite iter_xO_value, Z.mod_mul, Z.eqb_refl, Z.div_mul by lia.
      reflexivity.
    + rewrite iter_xO_digits, Pos2Z.inj_add.
      replace (Zpos (digits2_pos a) + Zpos k + Zneg k)
        with (Zpos (digits2_pos a)) by lia.
      rewrite Hfexp; lia.
    + unfold emax, prec. lia.
Qed.

Lemma binary_normalize_exact (q : Z) (sz : bool) :
  Z.abs q < 2 ^ 53 ->
  integer_value (binary_normalize prec emax q 0 sz) = Some q.
Proof.
  intros Hq. destruct q as [|a|a]; cbn [binary_normalize].
  - reflexivity.
  - apply (binary_round_exact false). exact Hq.
  - apply (binary_round_exact true). exact Hq.
Qed.

End Integers.

(** ** Display amounts to smallest units *)

Section Amounts.
Import UnitConverter Networks Spec.
Context `{Builtins}.

Lemma binary64_mantissa (s : bool) (m : positive) (e : Z) :
  is_binary64 (S754_finite s m e) = true -> Zpos m < 2 ^ 53.
Proof.
  unfold is_binary64, valid_binary, bounded, canonical_mantissa.
  intros Hv. apply andb_prop in Hv as [Hc _]. apply Z.eqb_eq in Hc.
  assert (Hd : Zpos (digits2_pos m) <= 53).
  { unfold fexp, emin, prec, emax in Hc. lia. }
  rewrite digits2_pos_size in Hd.
  pose proof (Pos.size_gt m) as Hs.
  apply Pos2Z.pos_lt_pos in Hs. rewrite Pos2Z.inj_pow in Hs.
  assert (2 ^ Zpos (Pos.size m) <= 2 ^ 53) by (apply Z.pow_le_mono_r; lia).
  lia.
Qed.

(** [BigInt(Math.floor(p))] is the floor of a finite [p]. *)
Lemma BigInt_Math_floor (p : number) :
  is_binary64 p = true -> isFinite p = true ->
  exists z, BigInt (Math_floor p) = Ok z /\ floor_of z p
            /\ if is_negative p then z < 0 else 0 <= z.
Proof.
  intros Hv Hfin. destruct p as [s| | |s m e]; try discriminate.
  - exists 0. split; [reflexivity|]. split; cbn; [reflexivity|lia].
  - destruct e as [|e|k].
    + exists (cond_Zopp s (Zpos m * 2 ^ 0)). split; [reflexivity|].
      split; destruct s; cbn; lia.
    + exists (cond_Zopp s (Zpos m * 2 ^ Zpos e)). split; [reflexivity|].
      assert (0 < 2 ^ Zpos e) by (apply Z.pow_pos_nonneg; lia).
      split; destruct s; cbn [floor_of cond_Zopp is_negative]; nia.
    + pose proof (binary64_mantissa s m _ Hv) as Hm.
      assert (Hpow : 0 < 2 ^ Zpos k) by (apply Z.pow_pos_nonneg; lia).
      set (q := cond_Zopp s (Zpos m) / 2 ^ Zpos k).
      pose proof (Z.mul_div_le (cond_Zopp s (Zpos m)) _ Hpow) as Hlo.
      pose proof (Z.mul_succ_div_gt (cond_Zopp s (Zpos m)) _ Hpow) as Hhi.
      fold q in Hlo, Hhi.
      assert (Hq : Z.abs q < 2 ^ 53 /\ if s then q < 0 else 0 <= q).
      { destruct s; cbn [cond_Zopp] in *; split; nia. }
      exists q. split; [|split].
      * unfold BigInt, Math_floor, floorZ. fold q.
        now rewrite binary_normalize_exact by apply Hq.
      * cbn [floor_of]. lia.
      * destruct s; apply Hq.
Qed.

Lemma cogs_per_agix_finite :
  COGS_PER_AGIX = S754_finite false 6710886400000000 (-26).
Proof. vm_compute. reflexivity. Qed.

Lemma validateAmount_rejects (amount : amount_arg) :
  isFinite (amount_number amount) = false
  \/ is_negative (amount_number amount) = true ->
  validateAmount amount = false.
Proof.
  unfold validateAmount.
  destruct (amount_number amount) as [s|[]| |[] m e]; intros [Hx|Hx];
    try discriminate; reflexivity.
Qed.

(** Scaling keeps the sign of a finite amount. *)
Lemma mul_cogs_sign (s : bool) (m : positive) (e : Z) :
  let p := mul (S754_finite s m e) COGS_PER_AGIX in
  p = S754_zero s \/ p = S754_infinity s \/ p = NaN
  \/ exists m' e', p = S754_finite s m' e'.
Proof.
  cbv zeta. rewrite cogs_per_agix_finite. unfold mul. cbn [SFmul].
  rewrite xorb_false_r. unfold binary_round_aux.
  destruct (shr_fexp _ _ _ _ _) as [mrs' e'].
  destruct (shr_fexp _ _ _ _ _) as [mrs'' e''].
  destruct (shr_m mrs'') as [|m''|m''].
  - now left.
  - destruct (e'' <=? emax - prec).
    + right. right. right. now exists m'', e''.
    + right. now left.
  - right. right. now left.
Qed.

(** C7, as the code has it.  The conversion validates nothing.  A NaN
    or infinite amount makes the [BigInt] conversion throw a
    RangeError; any other amount is scaled, and when the binary64
    product is finite the result is its floor: a negative number of
    cogs for a negative product, the product truncated toward zero
    otherwise; a product that overflowed throws the same RangeError.
    So a negative amount gives a RangeError or an amount that is not
    positive.  [validateAmount] does reject NaN, infinite and negative
    amounts, and the conversion does not consult it. *)
Theorem agixToCogs_floors_unvalidated (agix : amount_arg) :
  let x := amount_number agix in
  let p := mul x COGS_PER_AGIX in
  (isFinite x = false -> agixToCogs agix = Throw RangeError)
  /\ (is_binary64 p = true ->
      if isFinite p
      then exists z, agixToCogs agix = Ok z /\ floor_of z p
                     /\ if is_negative p then z < 0 else 0 <= z
      else agixToCogs agix = Throw RangeError)
  /\ (is_binary64 p = true -> isFinite x = true -> is_negative x = true ->
      agixToCogs agix = Throw RangeError
      \/ exists z, agixToCogs agix = Ok z /\ z <= 0)
  /\ (isFinite x = false \/ is_negative x = true ->
      validateAmount agix = false).
Proof.
  cbv zeta.
  assert (Hproduct :
    is_binary64 (mul (amount_number agix) COGS_PER_AGIX) = true ->
    if isFinite (mul (amount_number agix) COGS_PER_AGIX)
    then exists z, agixToCogs agix = Ok z
                   /\ floor_of z (mul (amount_number agix) COGS_PER_AGIX)
                   /\ if is_negative (mul (amount_number agix) COGS_PER_AGIX)
                      then z < 0 else 0 <= z
    else agixToCogs agix = Throw RangeError).
  { intros Hv. unfold agixToCogs.
    destruct (isFinite _) eqn:Hfin.
    - now apply BigInt_Math_floor.
    - destruct (mul _ _) as [s|s| |s m e]; try discriminate; reflexivity. }
  split; [|split; [|split]].
  - unfold agixToCogs. rewrite cogs_per_agix_finite.
    destruct (amount_number agix) as [s|s| |s m e]; intros Hx;
      try discriminate; reflexivity.
  - exact Hproduct.
  - intros Hv Hfin Hneg. specialize (Hproduct Hv).
    destruct (amount_number agix) as [s|s| |s m e]; try discriminate.
    destruct s; [|discriminate].
    destruct (mul_cogs_sign true m e) as [Hp|[Hp|[Hp|(m' & e' & Hp)]]];
      cbv zeta in Hp; rewrite Hp in Hproduct; cbn [isFinite is_negative] in Hproduct.
    + destruct Hproduct as (z & Hz & Hfloor & _). cbn [floor_of] in Hfloor.
      right. exists z. split; [exact Hz|lia].
    + now left.
    + now left.
    + destruct Hproduct as (z & Hz & _ & Hsign).
      right. exists z. split; [exact Hz|lia].
  - apply validateAmount_rejects.
Qed.

End Amounts.

Section AmountsEvaluated.
Import UnitConverter Networks Spec.

Lemma agixToCogs_floors_unvalidated_witness :
  @agixToCogs Models.unparsed (ANum NaN) = Throw RangeError
  /\ (exists z, @agixToCogs Models.unparsed (ANum (literal 1123456789 9)) = Ok z
                /\ floor_of z (mul (literal 1123456789 9) COGS_PER_AGIX)
                /\ 0 <= z)
  /\ (@agixToCogs Models.unparsed (ANum (literal (-15) 1)) = Throw RangeError
      \/ exists z, @agixToCogs Models.unparsed (ANum (literal (-15) 1)) = Ok z
                   /\ z <= 0)
  /\ @validateAmount Models.unparsed (ANum (literal (-15) 1)) = false.
Proof.
  split; [|split; [|split]].
  - apply (@agixToCogs_floors_unvalidated Models.unparsed (ANum NaN)).
    reflexivity.
  - apply (@agixToCogs_floors_unvalidated Models.unparsed
             (ANum (literal 1123456789 9))).
    vm_compute. reflexivity.
  - apply (@agixToCogs_floors_unvalidated Models.unparsed
             (ANum (literal (-15) 1))); vm_compute; reflexivity.
  - apply (@agixToCogs_floors_unvalidated Models.unparsed
             (ANum (literal (-15) 1))).
    right. vm_compute. reflexivity.
Defined.

(** C7 as stated fails on the amount -1: the conversion returns
    -100000000 cogs and raises nothing. *)
Lemma agixToCogs_accepts_negative :
  is_negative (Number_of_bigint (-1)) = true
  /\ @agixToCogs Models.unparsed (ANum (Number_of_bigint (-1)))
     = Ok (-100000000).
Proof. split; vm_compute; reflexivity. Qed.

End AmountsEvaluated.

(** ** Bytes, hexadecimal and base64 *)

Section Encodings.
Import Ethers.

Lemma byte_value_range (b : byte) : 0 <= byte_value b < 256.
Proof.
  unfold byte_value. pose proof (Byte.to_N_bounded b). lia.
Qed.

Lemma byte_of_value (b : byte) (z : Z) : z = byte_value b -> byte_of z = b.
Proof.
  intros ->. pose proof (byte_value_range b) as Hb.
  unfold byte_of. rewrite Z.mod_small by exact Hb.
  unfold byte_value. now rewrite N2Z.id, Byte.of_to_N.
Qed.

(** A property of the first [n] naturals, checked one by one. *)
Lemma below_forallb (n : nat) (p : nat -> bool) :
  forallb p (seq 0 n) = true -> forall v, 0 <= v < Z.of_nat n -> p (Z.to_nat v) = true.
Proof.
  intros Hall v Hv. rewrite forallb_forall in Hall.
  apply Hall, in_seq. lia.
Qed.

Lemma hex_value_char (v : Z) : 0 <= v < 16 -> hex_value (hex_char v) = Some v.
Proof.
  intros Hv.
  pose proof (below_forallb 16
    (fun n => match hex_value (hex_char (Z.of_nat n)) with
              | Some w => w =? Z.of_nat n
              | None => false
              end) eq_refl v Hv) as Hp.
  cbv beta in Hp. rewrite Z2Nat.id in Hp by lia.
  destruct (hex_value (hex_char v)); [|discriminate].
  apply Z.eqb_eq in Hp. now subst.
Qed.

Lemma base64_value_char (v : Z) :
  0 <= v < 64 -> base64_value (base64_char v) = Some v.
Proof.
  intros Hv.
  pose proof (below_forallb 64
    (fun n => match base64_value (base64_char (Z.of_nat n)) with
              | Some w => w =? Z.of_nat n
              | None => false
              end) eq_refl v Hv) as Hp.
  cbv beta in Hp. rewrite Z2Nat.id in Hp by lia.
  destruct (base64_value (base64_char v)); [|discriminate].
  apply Z.eqb_eq in Hp. now subst.
Qed.

(** [Buffer.from(hex, 'hex')] reads back the bytes that were written in
    hexadecimal. *)
Lemma Buffer_from_hex_of_bytes (bs : bytes) :
  Buffer_from_hex (hex_of_bytes bs) = bs.
Proof.
  induction bs as [|b bs IH]; [reflexivity|].
  pose proof (byte_value_range b) as Hb.
  cbn [hex_of_bytes hex_of_byte Buffer_from_hex].
  rewrite !hex_value_char by (Z.div_mod_to_equations; lia).
  rewrite IH. f_equal. apply byte_of_value.
  Z.div_mod_to_equations; lia.
Qed.

Lemma hex_pairs_of_bytes (bs : bytes) : hex_pairs (hex_of_bytes bs) = Some bs.
Proof.
  induction bs as [|b bs IH]; [reflexivity|].
  pose proof (byte_value_range b) as Hb.
  cbn [hex_of_bytes hex_of_byte hex_pairs].
  rewrite !hex_value_char by (Z.div_mod_to_equations; lia).
  rewrite IH. cbn [option_map]. do 2 f_equal. apply byte_of_value.
  Z.div_mod_to_equations; lia.
Qed.

Lemma getBytes_hexlify (bs : bytes) : getBytes (hexlify bs) = Ok bs.
Proof.
  unfold getBytes, hexlify. cbn [Ascii.eqb orb].
  change (Ascii.eqb "x" "x") with true. cbn [orb].
  now rewrite hex_pairs_of_bytes.
Qed.

Lemma hexlify_inj (a b : bytes) : hexlify a = hexlify b -> a = b.
Proof.
  intros Heq. pose proof (getBytes_hexlify a) as Ha.
  rewrite Heq, getBytes_hexlify in Ha. now inversion Ha.
Qed.

(** Induction on strings two characters at a time, on lists three
    elements at a time. *)
Lemma string_ind2 (P : string -> Prop) :
  P EmptyString ->
  (forall a, P (String a EmptyString)) ->
  (forall a b r, P r -> P (String a (String b r))) ->
  forall s, P s.
Proof.
  intros H0 H1 H2 s.
  enough (Hboth : P s /\ forall a, P (String a s)) by apply Hboth.
  induction s as [|c s [IHs IHc]]; split; auto.
Qed.

Lemma list_ind3 {A : Type} (P : list A -> Prop) :
  P [] ->
  (forall a, P [a]) ->
  (forall a b, P [a; b]) ->
  (forall a b c r, P r -> P (a :: b :: c :: r)) ->
  forall l, P l.
Proof.
  intros H0 H1 H2 H3 l.
  enough (Hall : P l /\ (forall a, P (a :: l)) /\ forall a b, P (a :: b :: l))
    by apply Hall.
  induction l as [|c l (IH0 & IH1 & IH2)]; repeat split; auto.
Qed.

Lemma hex_pairs_length (s : string) :
  forall bs, hex_pairs s = Some bs ->
             String.length s = (2 * List.length bs)%nat.
Proof.
  induction s as [|a|a b r IH] using string_ind2; intros bs Hbs.
  - inversion Hbs. reflexivity.
  - discriminate.
  - cbn [hex_pairs] in Hbs.
    destruct (hex_value a); [|discriminate].
    destruct (hex_value b); [|discriminate].
    destruct (hex_pairs r) as [t|] eqn:Hr; [|discriminate].
    inversion Hbs; subst. cbn [String.length List.length].
    rewrite (IH t eq_refl). lia.
Qed.

Lemma getBytes_length (s : string) (bs : bytes) :
  getBytes s = Ok bs -> String.length s = (2 + 2 * List.length bs)%nat.
Proof.
  intros Hs. destruct s as [|c0 s']; [discriminate|].
  destruct c0 as [[] [] [] [] [] [] [] []]; try discriminate Hs.
  destruct s' as [|c1 r]; [discriminate|].
  unfold getBytes in Hs.
  destruct (Ascii.eqb c1 "x" || Ascii.eqb c1 "X"); [|discriminate].
  destruct (hex_pairs r) as [t|] eqn:Hr; [|discriminate].
  inversion Hs; subst. cbn [String.length].
  now rewrite (hex_pairs_length r bs Hr).
Qed.

Lemma toUtf8_length (s : string) :
  (String.length s <= List.length (toUtf8 s))%nat.
Proof.
  induction s as [|c s IH]; [reflexivity|].
  cbn [toUtf8 String.length]. rewrite length_app.
  unfold utf8_of_char. destruct (code c <? 128); cbn [List.length]; lia.
Qed.

(** Decoding base64 gives back the bytes that were encoded. *)
Lemma base64_round_trip (bs : bytes) :
  base64_decode (Buffer_toString_base64 bs) = Some bs.
Proof.
  induction bs as [|a|a b|a b c r IH] using list_ind3.
  - reflexivity.
  - pose proof (byte_value_range a).
    cbn [Buffer_toString_base64 base64_decode].
    rewrite !base64_value_char by (Z.div_mod_to_equations; lia).
    change (base64_value "=") with (@None Z).
    change (Ascii.eqb "=" "=") with true. cbn [andb].
    replace (_ mod 16 =? 0) with true
      by (symmetry; apply Z.eqb_eq; Z.div_mod_to_equations; lia).
    do 2 f_equal. apply byte_of_value. Z.div_mod_to_equations; lia.
  - pose proof (byte_value_range a). pose proof (byte_value_range b).
    cbn [Buffer_toString_base64 base64_decode].
    rewrite !base64_value_char by (Z.div_mod_to_equations; lia).
    change (base64_value "=") with (@None Z).
    change (Ascii.eqb "=" "=") with true. cbn [andb].
    replace (_ mod 4 =? 0) with true
      by (symmetry; apply Z.eqb_eq; Z.div_mod_to_equations; lia).
    do 2 f_equal; [|f_equal]; apply byte_of_value; Z.div_mod_to_equations; lia.
  - pose proof (byte_value_range a). pose proof (byte_value_range b).
    pose proof (byte_value_range c).
    cbn [Buffer_toString_base64 base64_decode].
    rewrite !base64_value_char by (Z.div_mod_to_equations; lia).
    rewrite IH. cbn [option_map].
    do 2 f_equal; [|f_equal; [|f_equal]]; apply byte_of_value;
      Z.div_mod_to_equations; lia.
Qed.

End Encodings.

(** ** The signature in the metadata, and the free-call token *)

Section SignatureEncoding.
Import Ethers PaymentUtils.
Context `{Builtins} `{Signer}.

(** C5.  The escrow metadata carries the five fields, and decoding its
    signature field from base64 gives the raw bytes of the serialized
    signature, in the payment utilities and in the gRPC client.  The
    free-call token does not do the same: it is the base64 form of the
    signature's hexadecimal text, so decoding it gives the UTF-8 bytes
    of ["0x..."], never the raw signature bytes. *)
Theorem signature_round_trip_and_free_call_token :
  (forall (raw : bytes) (channelId nonce : number) (amount v : Z) (r s : string),
      let meta := createPaymentMetadata channelId nonce amount
                    {| signature := hexlify raw; v := v; r := r; s := s |} in
      meta !! "snet-payment-type" = Some "escrow"
      /\ meta !! "snet-payment-channel-id" = Some (Number_toString channelId)
      /\ meta !! "snet-payment-channel-nonce" = Some (Number_toString nonce)
      /\ meta !! "snet-payment-channel-amount" = Some (BigInt_toString amount)
      /\ meta !! "snet-payment-channel-signature-bin" ≫= base64_decode = Some raw
      /\ GrpcClient.createPaymentMetadata channelId nonce amount (hexlify raw)
         = meta)
  /\ (forall (w : wallet) (userAddress organizationId serviceId : string)
             (currentBlock : number) (token : string),
        generateFreeCallToken w userAddress organizationId serviceId currentBlock
        = Ok token ->
        exists digest sigText,
          signMessage w digest = Ok sigText
          /\ base64_decode token = Some (toUtf8 sigText)
          /\ forall raw, getBytes sigText = Ok raw ->
                         base64_decode token <> Some raw).
Proof.
  split.
  - intros raw channelId nonce amount v r s. cbv zeta.
    unfold createPaymentMetadata, GrpcClient.createPaymentMetadata,
      object_literal.
    cbn [fold_left fst snd signature].
    repeat split; try by simplify_map_eq.
    simplify_map_eq. cbn [mbind option_bind].
    change (slice2 (hexlify raw)) with (hex_of_bytes raw).
    now rewrite Buffer_from_hex_of_bytes, base64_round_trip.
  - intros w userAddress organizationId serviceId currentBlock token.
    unfold generateFreeCallToken.
    destruct (solidityPackedKeccak256 _) as [message|e]; exc_unfold;
      [|discriminate].
    destruct (getBytes message) as [digest|e]; [|discriminate].
    destruct (signMessage w digest) as [sigText|e] eqn:Hsig; [|discriminate].
    intros Htoken. inversion Htoken; subst token.
    exists digest, sigText. split; [exact Hsig|].
    unfold Buffer_from_string. rewrite base64_round_trip.
    split; [reflexivity|].
    intros raw Hraw Heq. inversion Heq as [Hbytes].
    pose proof (getBytes_length _ _ Hraw) as Hlen.
    pose proof (toUtf8_length sigText) as Hutf.
    rewrite Hbytes in Hutf. lia.
Qed.

End SignatureEncoding.


Section SignatureEncodingEvaluated.
Import Ethers PaymentUtils.

Lemma signature_round_trip_and_free_call_token_witness :
  exists token,
    @generateFreeCallToken Models.symbolic tt
      Networks.ETHEREUM_MAINNET_mpeAddress "snet" "example-service"
      (Number_of_bigint 19000000) = Ok token
    /\ exists digest sigText,
         @signMessage Models.symbolic tt digest = Ok sigText
         /\ base64_decode token = Some (toUtf8 sigText)
         /\ forall raw, getBytes sigText = Ok raw ->
                        base64_decode token <> Some raw.
Proof.
  pose (token :=
    match @generateFreeCallToken Models.symbolic tt
            Networks.ETHEREUM_MAINNET_mpeAddress "snet" "example-service"
            (Number_of_bigint 19000000)
    with Ok t => t | Throw _ => EmptyString end).
  assert (Hcall : @generateFreeCallToken Models.symbolic tt
            Networks.ETHEREUM_MAINNET_mpeAddress "snet" "example-service"
            (Number_of_bigint 19000000) = Ok token)
    by (vm_compute; reflexivity).
  exists token. split; [exact Hcall|].
  exact (proj2 (@signature_round_trip_and_free_call_token
                  Models.unparsed Models.symbolic)
           tt Networks.ETHEREUM_MAINNET_mpeAddress "snet" "example-service"
           (Number_of_bigint 19000000) token Hcall).
Defined.

End SignatureEncodingEvaluated.

(** ** Opening and reading channels *)

Section Channels.
Import Ethers PaymentUtils EthereumClient.
Context `{Signer} {chain : Type} `{Mpe chain}.

Lemma find_first (p : Log -> bool) (pre post : list Log) (e : Log) :
  Forall (fun l => p l = false) pre -> p e = true ->
  List.find p (pre ++ e :: post) = Some e.
Proof.
  induction 1 as [|l pre Hl _ IH]; intros He; cbn [app List.find].
  - now rewrite He.
  - rewrite Hl. now apply IH.
Qed.

Lemma find_none (p : Log -> bool) (logs : list Log) :
  Forall (fun l => p l = false) logs -> List.find p logs = None.
Proof.
  induction 1 as [|l logs Hl _ IH]; cbn [List.find]; [reflexivity|].
  now rewrite Hl.
Qed.

(** C6, as the code has it.  Once the transaction has a receipt,
    [openChannel] returns, and the channel id it reports is read from
    the receipt: it is the second topic of the first log whose first
    topic is the ChannelOpen signature hash, parsed as a hexadecimal
    integer, and it is 0 when the receipt has no such log.  The
    arguments of the call do not enter into it. *)
Theorem openChannel_reads_the_event (this : client) (w : wallet)
    (recipient groupId : string) (amount : Z) (expiration : number)
    (st st' : chain) (tx_hash : string) (receipt : Receipt) :
  this.(cl_mpe) = true ->
  this.(cl_wallet) = Some w ->
  mpe_openChannel (wallet_address w) recipient groupId amount expiration st
  = Ok (tx_hash, receipt, st') ->
  exists result,
    openChannel this recipient groupId amount expiration st = Ok (result, st')
    /\ (forall pre e post,
          receipt.(rc_logs) = pre ++ e :: post ->
          Forall (fun l => is_ChannelOpen l = false) pre ->
          is_ChannelOpen e = true ->
          result.(oc_channelId) = parseInt16 (topic1_string e))
    /\ (Forall (fun l => is_ChannelOpen l = false) receipt.(rc_logs) ->
        result.(oc_channelId) = Number_of_bigint 0).
Proof.
  intros Hmpe Hwallet Hsent. unfold openChannel.
  rewrite Hmpe, Hwallet, Hsent. exc_unfold.
  eexists. split; [reflexivity|]. cbn [oc_channelId]. split.
  - intros pre e post Hlogs Hpre He.
    now rewrite Hlogs, (find_first _ pre post e Hpre He).
  - intros Hnone. now rewrite (find_none _ _ Hnone).
Qed.

(** C8, as the code has it.  [getChannel] asks the contract for the
    tuple of the channel and decodes it by position, as
    [parseChannelData] does, with the id that was asked for; an error of
    the read is passed on as it is.  No error of its own tells an
    assigned id from one that was never assigned. *)
Theorem getChannel_decodes_the_read (this : client) (channelId : number)
    (st : chain) :
  this.(cl_mpe) = true ->
  (forall t, mpe_channels channelId st = Ok t ->
     exists info,
       getChannel this channelId st = Ok info
       /\ info.(ci_channelId) = channelId
       /\ info.(ci_nonce) = (parseChannelData t).(nonce)
       /\ info.(ci_sender) = (parseChannelData t).(sender)
       /\ info.(ci_signer) = (parseChannelData t).(signer)
       /\ info.(ci_recipient) = (parseChannelData t).(recipient)
       /\ info.(ci_groupId) = (parseChannelData t).(groupId)
       /\ info.(ci_value) = (parseChannelData t).(value)
       /\ info.(ci_expiration) = (parseChannelData t).(expiration))
  /\ (forall e, mpe_channels channelId st = Throw e ->
        getChannel this channelId st = Throw e).
Proof.
  intros Hmpe. unfold getChannel. rewrite Hmpe. cbn [negb]. split.
  - intros t Ht. rewrite Ht. exc_unfold. eexists. split; [reflexivity|].
    repeat split.
  - intros e He. now rewrite He.
Qed.

End Channels.

Section ChannelsEvaluated.
Import Ethers PaymentUtils EthereumClient Models.

(** On a ledger whose channel table is a mapping, reading any id that
    was never written gives the all-zero channel. *)
Lemma getChannel_unassigned (tbl : gmap Z channel_tuple) (rs : list (string * Receipt))
    (channelId : number) (z : Z) :
  getUint (OfNumber channelId) = Ok z ->
  tbl !! z = None ->
  @getChannel symbolic scripted scripted_mpe ready_client channelId
    {| script := rs; table := tbl |}
  = Ok {| ci_channelId := channelId;
          ci_nonce := Number_of_bigint 0;
          ci_sender := zero_address;
          ci_signer := zero_address;
          ci_recipient := zero_address;
          ci_groupId := zero_bytes32;
          ci_value := 0;
          ci_expiration := Number_of_bigint 0 |}.
Proof.
  intros Hz Hnone. unfold getChannel. cbn [ready_client cl_mpe negb].
  unfold mpe_channels, scripted_mpe. cbn [table].
  rewrite Hz. exc_unfold. now rewrite Hnone.
Qed.

(** C8 as stated fails on the empty ledger: channel 7 was never
    assigned, and the read returns a channel of zeros, not an error. *)
Lemma getChannel_never_assigned_returns_zeros :
  @getChannel symbolic scripted scripted_mpe ready_client (Number_of_bigint 7)
    {| script := []; table := ∅ |}
  = Ok {| ci_channelId := Number_of_bigint 7;
          ci_nonce := Number_of_bigint 0;
          ci_sender := zero_address;
          ci_signer := zero_address;
          ci_recipient := zero_address;
          ci_groupId := zero_bytes32;
          ci_value := 0;
          ci_expiration := Number_of_bigint 0 |}.
Proof. now apply (getChannel_unassigned ∅ [] _ 7). Qed.

End ChannelsEvaluated.

Section ChannelsWitnesses.
Import Ethers PaymentUtils EthereumClient Models.

Lemma openChannel_reads_the_event_witness :
  (exists result,
     @openChannel symbolic scripted scripted_mpe ready_client
       Networks.ETHEREUM_MAINNET_mpeAddress zero_bytes32 500000000
       (Number_of_bigint 19011520) ledger_3
     = Ok (result, {| script := [("0x02", receipt_without_event)];
                      table := ledger_3.(table) |})
     /\ result.(oc_channelId) = Number_of_bigint 42)
  /\ (exists result,
        @openChannel symbolic scripted scripted_mpe ready_client
          Networks.ETHEREUM_MAINNET_mpeAddress zero_bytes32 500000000
          (Number_of_bigint 19011520)
          {| script := [("0x02", receipt_without_event)];
             table := ledger_3.(table) |}
        = Ok (result, {| script := []; table := ledger_3.(table) |})
        /\ result.(oc_channelId) = Number_of_bigint 0).
Proof.
  split.
  - destruct (@openChannel_reads_the_event symbolic scripted scripted_mpe
                ready_client tt Networks.ETHEREUM_MAINNET_mpeAddress zero_bytes32
                500000000 (Number_of_bigint 19011520) ledger_3
                {| script := [("0x02", receipt_without_event)];
                   table := ledger_3.(table) |}
                "0x01" receipt_with_event eq_refl eq_refl eq_refl)
      as (result & Hopen & Hevent & _).
    exists result. split; [exact Hopen|].
    transitivity
      (parseInt16
         (topic1_string (nth 1 receipt_with_event.(rc_logs) {| topics := [] |}))).
    + apply (Hevent [ {| topics := [transfer_topic] |} ] _ []).
      * reflexivity.
      * constructor; [reflexivity|constructor].
      * reflexivity.
    + vm_compute. reflexivity.
  - destruct (@openChannel_reads_the_event symbolic scripted scripted_mpe
                ready_client tt Networks.ETHEREUM_MAINNET_mpeAddress zero_bytes32
                500000000 (Number_of_bigint 19011520)
                {| script := [("0x02", receipt_without_event)];
                   table := ledger_3.(table) |}
                {| script := []; table := ledger_3.(table) |}
                "0x02" receipt_without_event eq_refl eq_refl eq_refl)
      as (result & Hopen & _ & Hnone).
    exists result. split; [exact Hopen|].
    apply Hnone. constructor; [reflexivity|constructor].
Defined.

(** C6 as stated fails on a receipt whose ChannelOpen log cannot be
    parsed: the log carries the signature hash and nothing else, and the
    channel id returned is NaN, not 0.  The call does not raise. *)
Lemma openChannel_bare_event_gives_NaN :
  @openChannel symbolic scripted scripted_mpe ready_client
    Networks.ETHEREUM_MAINNET_mpeAddress zero_bytes32 500000000
    (Number_of_bigint 19011520)
    {| script := [("0x03", receipt_with_bare_event)]; table := ∅ |}
  = Ok ({| oc_channelId := NaN;
           oc_tx := {| hash := "0x03";
                       blockNumber := Number_of_bigint 19000003;
                       status := success;
                       gasUsed := 140001;
                       effectiveGasPrice := 20000000000 |} |},
        {| script := []; table := ∅ |}).
Proof. vm_compute. reflexivity. Qed.

Lemma getChannel_decodes_the_read_witness :
  (exists info,
     @getChannel symbolic scripted scripted_mpe ready_client
       (Number_of_bigint 3) ledger_3 = Ok info
     /\ info.(ci_channelId) = Number_of_bigint 3
     /\ info.(ci_value) = 500000000)
  /\ @getChannel symbolic scripted scripted_mpe ready_client NaN ledger_3
     = Throw (Error "underflow").
Proof.
  destruct (@getChannel_decodes_the_read symbolic scripted scripted_mpe
              ready_client (Number_of_bigint 3) ledger_3 eq_refl)
    as [Hok _].
  destruct (@getChannel_decodes_the_read symbolic scripted scripted_mpe
              ready_client NaN ledger_3 eq_refl)
    as [_ Hthrow].
  split.
  - destruct (Hok channel_3 eq_refl)
      as (info & Hget & Hid & _ & _ & _ & _ & _ & Hvalue & _).
    exists info. repeat split; assumption.
  - exact (Hthrow (Error "underflow") eq_refl).
Defined.

End ChannelsWitnesses.


(** ** Tight packing of a claim *)

Section Packing.
Import Ethers Spec.

Lemma byte_value_of (z : Z) : byte_value (byte_of z) = z mod 256.
Proof.
  assert (Hz : 0 <= z mod 256 < 256) by (apply Z.mod_pos_bound; lia).
  unfold byte_of, byte_value.
  destruct (Byte.of_N (Z.to_N (z mod 256))) as [b|] eqn:Hb.
  - apply Byte.to_of_N in Hb. rewrite Hb. lia.
  - apply Byte.of_N_None_iff in Hb. lia.
Qed.

Lemma be_bytes_fold (fuel : nat) :
  forall z acc, 0 <= z < 256 ^ Z.of_nat fuel ->
    fold_left be_step (be_bytes fuel z acc) 0 = fold_left be_step acc z.
Proof.
  induction fuel as [|fuel IH]; intros z acc Hz.
  - cbn [be_bytes]. change (256 ^ Z.of_nat 0) with 1 in Hz.
    now replace z with 0 by lia.
  - cbn [be_bytes]. destruct (Z.eqb_spec z 0) as [->|Hnz]; [reflexivity|].
    rewrite IH.
    + cbn [fold_left]. unfold be_step at 2. rewrite byte_value_of.
      f_equal. Z.div_mod_to_equations; lia.
    + rewrite Nat2Z.inj_succ, Z.pow_succ_r in Hz by lia.
      Z.div_mod_to_equations; lia.
Qed.

Lemma be_value_zeros (k : nat) (data : bytes) :
  be_value (repeat Byte.x00 k ++ data) = be_value data.
Proof.
  unfold be_value. rewrite fold_left_app. f_equal.
  induction k as [|k IH]; [reflexivity|]. cbn [repeat fold_left]. exact IH.
Qed.

Lemma getUint_nonneg (v : numeric) (z : Z) : getUint v = Ok z -> 0 <= z.
Proof.
  unfold getUint. destruct (getBigInt v) as [y|e]; exc_unfold; [|discriminate].
  destruct (Z.ltb_spec y 0); [discriminate|]. intros Hy. inversion Hy. lia.
Qed.

Lemma log2_fuel (z : Z) :
  0 <= z -> z < 256 ^ Z.of_nat (Z.to_nat (Z.log2 z / 8) + 1).
Proof.
  intros Hz. destruct (Z.eq_dec z 0) as [->|Hnz].
  - apply Z.pow_pos_nonneg; lia.
  - pose proof (Z.log2_nonneg z) as Hl.
    assert (Hspec : z < 2 ^ Z.succ (Z.log2 z)) by (apply Z.log2_spec; lia).
    assert (Hq : 0 <= Z.log2 z / 8) by (apply Z.div_pos; lia).
    rewrite Nat2Z.inj_add, Z2Nat.id by exact Hq.
    change 256 with (2 ^ 8). rewrite <- Z.pow_mul_r by lia.
    eapply Z.lt_le_trans; [exact Hspec|].
    apply Z.pow_le_mono_r; [lia|]. Z.div_mod_to_equations; lia.
Qed.

(** A packed [uint256] is 32 bytes long and holds its value. *)
Lemma pack_uint256 (v : numeric) (b : bytes) :
  pack (SolUint256 v) = Ok b ->
  exists z, getUint v = Ok z /\ List.length b = 32%nat /\ be_value b = z.
Proof.
  unfold pack, toBeArray.
  destruct (getUint v) as [z|e] eqn:Hv; exc_unfold; [|discriminate].
  unfold zeroPadValue.
  destruct (Nat.ltb_spec 32 (List.length (be_bytes (Z.to_nat (Z.log2 z / 8) + 1) z [])))
    as [|Hlen]; [discriminate|].
  intros Hb. inversion Hb; subst b. exists z. split; [reflexivity|]. split.
  - rewrite length_app, repeat_length. lia.
  - rewrite be_value_zeros. unfold be_value.
    rewrite be_bytes_fold; [reflexivity|].
    split; [now apply getUint_nonneg in Hv | apply log2_fuel].
    now apply getUint_nonneg in Hv.
Qed.

(** The packing of a claim is injective on the fields it reads. *)
Lemma claim_packed_inj (mpe mpe' : string) (ch ch' n n' : number) (amt amt' : Z)
    (p : bytes) :
  claim_packed mpe ch n amt = Ok p ->
  claim_packed mpe' ch' n' amt' = Ok p ->
  claim_fields mpe ch n amt = claim_fields mpe' ch' n' amt'.
Proof.
  unfold claim_packed, claim_fields. cbn [solidityPacked].
  change (pack (SolString "__MPE_claim_message"))
    with (@Ok bytes (toUtf8 "__MPE_claim_message")).
  destruct (pack (SolAddress mpe)) as [A|e]; exc_unfold; [|discriminate].
  destruct (pack (SolUint256 (OfNumber ch))) as [C|e] eqn:HC; [|discriminate].
  destruct (pack (SolUint256 (OfNumber n))) as [N|e] eqn:HN; [|discriminate].
  destruct (pack (SolUint256 (OfBigInt amt))) as [V|e] eqn:HV; [|discriminate].
  intros Hp. inversion Hp; subst p. clear Hp.
  destruct (pack (SolAddress mpe')) as [A'|e]; [|discriminate].
  destruct (pack (SolUint256 (OfNumber ch'))) as [C'|e] eqn:HC'; [|discriminate].
  destruct (pack (SolUint256 (OfNumber n'))) as [N'|e] eqn:HN'; [|discriminate].
  destruct (pack (SolUint256 (OfBigInt amt'))) as [V'|e] eqn:HV'; [|discriminate].
  intros Hp. inversion Hp as [Heq]. clear Hp.
  apply pack_uint256 in HC as (c & -> & LC & VC).
  apply pack_uint256 in HN as (m & -> & LN & VN).
  apply pack_uint256 in HV as (v & -> & LV & VV).
  apply pack_uint256 in HC' as (c' & -> & LC' & VC').
  apply pack_uint256 in HN' as (m' & -> & LN' & VN').
  apply pack_uint256 in HV' as (v' & -> & LV' & VV').
  apply app_inj_2 in Heq as [HA Heq];
    [|rewrite !length_app; cbn [List.length]; lia].
  apply app_inj_1 in Heq as [HCC Heq]; [|lia].
  apply app_inj_1 in Heq as [HNN Heq]; [|lia].
  apply app_inj_1 in Heq as [HVV _]; [|lia].
  subst. reflexivity.
Qed.

End Packing.

(** ** Signing and verifying a claim *)

Section ClaimSignature.
Import Ethers PaymentUtils Spec.
Context `{Signer}.

Lemma generatePaymentSignature_inv (w : wallet) (mpeAddress : string)
    (channelId nonce : number) (amount : Z) (sig : PaymentSignature) :
  generatePaymentSignature w mpeAddress channelId nonce amount = Ok sig ->
  exists packed digest,
    claim_packed mpeAddress channelId nonce amount = Ok packed
    /\ claim_digest mpeAddress channelId nonce amount = Ok digest
    /\ signMessage w digest = Ok sig.(signature).
Proof.
  unfold generatePaymentSignature, claim_digest, claim_packed,
    solidityPackedKeccak256.
  destruct (solidityPacked _) as [packed|e]; exc_unfold; [|discriminate].
  destruct (getBytes (keccak256 packed)) as [digest|e] eqn:Hdigest;
    [|discriminate].
  destruct (signMessage w digest) as [text|e] eqn:Hsign; [|discriminate].
  destruct (Signature_from text) as [vrs|e]; [|discriminate].
  intros Hsig. inversion Hsig. exists packed, digest. auto.
Qed.

(** C1.  With a signature scheme that recovers the signer and binds the
    message, a claim signed for [(mpeAddress, channelId, nonce, amount)]
    verifies against the wallet's address with the same four arguments,
    and it does not verify after one of the four fields is altered,
    provided the two packed messages do not collide under Keccak-256.
    The fields are the values the claim packs: the address that
    [mpeAddress] denotes (its 20 bytes) and the three unsigned
    integers. *)
Theorem claim_signature_binds :
  recovers_signer -> binds_message ->
  forall (w : wallet) (mpeAddress : string) (channelId nonce : number)
         (amount : Z) (sig : PaymentSignature),
    generatePaymentSignature w mpeAddress channelId nonce amount = Ok sig ->
    verifyPaymentSignature mpeAddress channelId nonce amount
      sig.(signature) (wallet_address w) = Ok true
    /\ forall (mpeAddress' : string) (channelId' nonce' : number) (amount' : Z),
         claim_fields mpeAddress' channelId' nonce' amount'
         <> claim_fields mpeAddress channelId nonce amount ->
         (claim_packed mpeAddress' channelId' nonce' amount'
          <> claim_packed mpeAddress channelId nonce amount ->
          claim_digest mpeAddress' channelId' nonce' amount'
          <> claim_digest mpeAddress channelId nonce amount) ->
         verifyPaymentSignature mpeAddress' channelId' nonce' amount'
           sig.(signature) (wallet_address w) = Ok false.
Proof.
  intros Hrecover Hbinds w mpeAddress channelId nonce amount sig Hsig.
  apply generatePaymentSignature_inv in Hsig
    as (packed & digest & Hpacked & Hdigest & Hsign).
  split.
  - rewrite verifyPaymentSignature_eq, Hdigest, (Hrecover _ _ _ Hsign).
    now rewrite String.eqb_refl.
  - intros mpeAddress' channelId' nonce' amount' Hfields Hcollision.
    rewrite verifyPaymentSignature_eq.
    destruct (claim_digest mpeAddress' channelId' nonce' amount')
      as [digest'|e] eqn:Hdigest'; [|reflexivity].
    assert (Hother : digest' <> digest).
    { intros ->. apply Hcollision; [|now rewrite Hdigest].
      intros Hsame. apply Hfields. rewrite Hpacked in Hsame.
      symmetry. now apply (claim_packed_inj _ _ _ _ _ _ _ _ packed). }
    destruct (verifyMessage digest' sig.(signature)) as [recovered|e] eqn:Hrec;
      [|reflexivity].
    f_equal. apply String.eqb_neq.
    exact (Hbinds _ _ _ _ _ Hsign Hother Hrec).
Qed.

Lemma pack_uint256_eq (v : numeric) :
  pack (SolUint256 v)
  = (z ← getUint v;
     zeroPadValue (be_bytes (Z.to_nat (Z.log2 z / 8) + 1) z []) 32).
Proof. unfold pack, toBeArray. destruct (getUint v); reflexivity. Qed.

(** Arguments with the same fields pack the same bytes, so a claim is
    verified by every spelling of its arguments: letter case and a
    missing [0x] in the address alter no field. *)
Lemma same_fields_same_packing (mpe mpe' : string) (ch ch' n n' : number)
    (amt amt' : Z) (packed : bytes) :
  claim_packed mpe ch n amt = Ok packed ->
  claim_fields mpe' ch' n' amt' = claim_fields mpe ch n amt ->
  claim_packed mpe' ch' n' amt' = Ok packed.
Proof.
  unfold claim_packed, claim_fields. cbn [solidityPacked].
  rewrite !pack_uint256_eq. exc_unfold.
  destruct (pack (SolAddress mpe)) as [A|e]; [|discriminate].
  destruct (getUint (OfNumber ch)) as [c|e]; [|discriminate].
  destruct (getUint (OfNumber n)) as [m|e];
    [|destruct (zeroPadValue _ _); discriminate].
  destruct (getUint (OfBigInt amt)) as [v|e];
    [|destruct (zeroPadValue _ _); [destruct (zeroPadValue _ _)|]; discriminate].
  intros Hpacked.
  destruct (pack (SolAddress mpe')) as [A'|e]; [|discriminate].
  destruct (getUint (OfNumber ch')) as [c'|e]; [|discriminate].
  destruct (getUint (OfNumber n')) as [m'|e]; [|discriminate].
  destruct (getUint (OfBigInt amt')) as [v'|e]; [|discriminate].
  intros Hfields. inversion Hfields; subst. exact Hpacked.
Qed.

Lemma same_fields_still_verify :
  recovers_signer ->
  forall (w : wallet) (mpeAddress mpeAddress' : string)
         (channelId channelId' nonce nonce' : number) (amount amount' : Z)
         (sig : PaymentSignature),
    generatePaymentSignature w mpeAddress channelId nonce amount = Ok sig ->
    claim_fields mpeAddress' channelId' nonce' amount'
    = claim_fields mpeAddress channelId nonce amount ->
    verifyPaymentSignature mpeAddress' channelId' nonce' amount'
      sig.(signature) (wallet_address w) = Ok true.
Proof.
  intros Hrecover w mpeAddress mpeAddress' channelId channelId' nonce nonce'
    amount amount' sig Hsig Hfields.
  apply generatePaymentSignature_inv in Hsig
    as (packed & digest & Hpacked & Hdigest & Hsign).
  rewrite verifyPaymentSignature_eq.
  unfold claim_digest in *.
  rewrite (same_fields_same_packing _ _ _ _ _ _ _ _ _ Hpacked Hfields).
  rewrite Hpacked in Hdigest. rewrite Hdigest, (Hrecover _ _ _ Hsign).
  now rewrite String.eqb_refl.
Qed.

End ClaimSignature.

Section ClaimSignatureEvaluated.
Import Ethers PaymentUtils Spec Models.

Lemma symbolic_recovers : @recovers_signer symbolic.
Proof.
  intros w m sig Hsig.
  change (signMessage w m) with (@Ok string (hexlify m)) in Hsig.
  inversion Hsig; subst sig.
  change (verifyMessage m (hexlify m))
    with (if String.eqb (hexlify m) (hexlify m) then Ok symbolic_address
          else Throw (Error "invalid signature")).
  now rewrite String.eqb_refl.
Qed.

Lemma symbolic_binds : @binds_message symbolic.
Proof.
  intros w m m' sig recovered Hsig Hother Hrec.
  change (signMessage w m) with (@Ok string (hexlify m)) in Hsig.
  inversion Hsig; subst sig.
  change (verifyMessage m' (hexlify m))
    with (if String.eqb (hexlify m) (hexlify m') then Ok symbolic_address
          else Throw (Error "invalid signature")) in Hrec.
  destruct (String.eqb_spec (hexlify m) (hexlify m')) as [Heq|]; [|discriminate].
  apply hexlify_inj in Heq. congruence.
Qed.

(** No claim can be signed for the escrow address configured for
    Sepolia: packing it fails on the checksum. *)
Example sepolia_claim_cannot_be_signed :
  @generatePaymentSignature symbolic tt Networks.ETHEREUM_SEPOLIA_mpeAddress
    (Number_of_bigint 1) (Number_of_bigint 0) 1000
  = Throw (invalid_argument "bad address checksum").
Proof. vm_compute. reflexivity. Qed.

Lemma claim_signature_binds_witness :
  exists sig,
    @generatePaymentSignature symbolic tt Networks.ETHEREUM_MAINNET_mpeAddress
      (Number_of_bigint 1) (Number_of_bigint 0) 1000 = Ok sig
    /\ @verifyPaymentSignature symbolic Networks.ETHEREUM_MAINNET_mpeAddress
         (Number_of_bigint 1) (Number_of_bigint 0) 1000
         sig.(signature) symbolic_address = Ok true
    /\ @verifyPaymentSignature symbolic Networks.ETHEREUM_MAINNET_mpeAddress
         (Number_of_bigint 2) (Number_of_bigint 0) 1000
         sig.(signature) symbolic_address = Ok false
    /\ @verifyPaymentSignature symbolic Networks.ETHEREUM_MAINNET_mpeAddress
         (Number_of_bigint 1) (Number_of_bigint 1) 1000
         sig.(signature) symbolic_address = Ok false
    /\ @verifyPaymentSignature symbolic Networks.ETHEREUM_MAINNET_mpeAddress
         (Number_of_bigint 1) (Number_of_bigint 0) 1001
         sig.(signature) symbolic_address = Ok false
    /\ @verifyPaymentSignature symbolic symbolic_address
         (Number_of_bigint 1) (Number_of_bigint 0) 1000
         sig.(signature) symbolic_address = Ok false.
Proof.
  pose (sig :=
    match @generatePaymentSignature symbolic tt
            Networks.ETHEREUM_MAINNET_mpeAddress
            (Number_of_bigint 1) (Number_of_bigint 0) 1000
    with
    | Ok sg => sg
    | Throw _ => {| signature := EmptyString; v := 0; r := EmptyString; s := EmptyString |}
    end).
  assert (Hgen : @generatePaymentSignature symbolic tt
                   Networks.ETHEREUM_MAINNET_mpeAddress
                   (Number_of_bigint 1) (Number_of_bigint 0) 1000 = Ok sig)
    by (vm_compute; reflexivity).
  destruct (@claim_signature_binds symbolic symbolic_recovers symbolic_binds tt
              Networks.ETHEREUM_MAINNET_mpeAddress
              (Number_of_bigint 1) (Number_of_bigint 0) 1000 sig Hgen)
    as [Htrue Hfalse].
  exists sig. split; [exact Hgen|]. split; [exact Htrue|].
  split; [|split; [|split]].
  - apply (Hfalse Networks.ETHEREUM_MAINNET_mpeAddress
             (Number_of_bigint 2) (Number_of_bigint 0) 1000).
    + vm_compute. discriminate.
    + intros _. vm_compute. discriminate.
  - apply (Hfalse Networks.ETHEREUM_MAINNET_mpeAddress
             (Number_of_bigint 1) (Number_of_bigint 1) 1000).
    + vm_compute. discriminate.
    + intros _. vm_compute. discriminate.
  - apply (Hfalse Networks.ETHEREUM_MAINNET_mpeAddress
             (Number_of_bigint 1) (Number_of_bigint 0) 1001).
    + vm_compute. discriminate.
    + intros _. vm_compute. discriminate.
  - apply (Hfalse symbolic_address
             (Number_of_bigint 1) (Number_of_bigint 0) 1000).
    + vm_compute. discriminate.
    + intros _. vm_compute. discriminate.
Defined.

(** The spelling of the address is no field of the claim.  A claim signed
    for the escrow address in lower case is verified with the same
    address in its checksum spelling: the two strings differ, the
    digests are equal, and the verifier answers [true]. *)
Example respelled_address_still_verifies :
  "0x5e592f9b1d303183d963635f895f0f0c48284f4e"%string
  <> Networks.ETHEREUM_MAINNET_mpeAddress
  /\ claim_digest "0x5e592f9b1d303183d963635f895f0f0c48284f4e"
       (Number_of_bigint 1) (Number_of_bigint 0) 1000
     = claim_digest Networks.ETHEREUM_MAINNET_mpeAddress
         (Number_of_bigint 1) (Number_of_bigint 0) 1000
  /\ (sig ← @generatePaymentSignature symbolic tt
               "0x5e592f9b1d303183d963635f895f0f0c48284f4e"
               (Number_of_bigint 1) (Number_of_bigint 0) 1000;
      @verifyPaymentSignature symbolic Networks.ETHEREUM_MAINNET_mpeAddress
        (Number_of_bigint 1) (Number_of_bigint 0) 1000
        sig.(signature) symbolic_address)
     = Ok true.
Proof.
  split; [|split].
  - vm_compute. discriminate.
  - vm_compute. reflexivity.
  - vm_compute. reflexivity.
Qed.

End ClaimSignatureEvaluated.
(** ** Exact arithmetic on integers *)

Section Exactness.

Lemma iter_pos_iter {A : Type} (f : A -> A) (p : positive) :
  forall x, iter_pos f p x = Pos.iter f x p.
Proof.
  induction p as [p IH|p IH|]; intros x; cbn [iter_pos Pos.iter].
  - rewrite !IH. now rewrite <- !Pos.iter_swap.
  - now rewrite !IH.
  - reflexivity.
Qed.

(** Shifting out the zero bits that were shifted in loses nothing. *)
Lemma shr_iter_xO (m k : positive) :
  iter_pos shr_1 k {| shr_m := Zpos (Pos.iter xO m k); shr_r := false; shr_s := false |}
  = {| shr_m := Zpos m; shr_r := false; shr_s := false |}.
Proof.
  rewrite iter_pos_iter. revert m.
  induction k as [|k IH] using Pos.peano_ind; intros m.
  - reflexivity.
  - rewrite Pos.iter_succ_r. rewrite Pos.iter_succ.
    cbn [shr_1 orb]. rewrite <- (IH m). f_equal.
Qed.

Lemma bounded_inv (m : positive) (e : Z) :
  bounded prec emax m e = true ->
  fexp prec emax (Zpos (digits2_pos m) + e) = e /\ e <= emax - prec.
Proof.
  unfold bounded, canonical_mantissa. intros Hb.
  apply andb_prop in Hb as [Hc He].
  apply Z.eqb_eq in Hc. apply Z.leb_le in He. now split.
Qed.

(** Rounding a mantissa that is a canonical one followed by zero bits
    gives the canonical one. *)
Lemma binary_round_aux_shifted (s : bool) (m k : positive) (e : Z) :
  bounded prec emax m e = true ->
  binary_round_aux prec emax s (Zpos (Pos.iter xO m k)) (e - Zpos k) loc_Exact
  = S754_finite s m e.
Proof.
  intros Hb. apply bounded_inv in Hb as [Hcanon Hmax].
  unfold binary_round_aux, shr_fexp.
  cbn [Zdigits2]. rewrite iter_xO_digits, Pos2Z.inj_add.
  replace (Zpos (digits2_pos m) + Zpos k + (e - Zpos k))
    with (Zpos (digits2_pos m) + e) by lia.
  rewrite Hcanon.
  replace (e - (e - Zpos k)) with (Zpos k) by lia.
  cbn [shr shr_record_of_loc]. rewrite shr_iter_xO.
  cbn [loc_of_shr_record shr_m round_nearest_even Zdigits2].
  replace (e - Zpos k + Zpos k) with e by lia.
  rewrite Hcanon, Z.sub_diag.
  cbn [shr shr_record_of_loc shr_m].
  apply Z.leb_le in Hmax. now rewrite Hmax.
Qed.

Lemma binary_round_aux_exact (s : bool) (M m : positive) (E e : Z) :
  bounded prec emax m e = true -> E <= e -> Zpos M = Zpos m * 2 ^ (e - E) ->
  binary_round_aux prec emax s (Zpos M) E loc_Exact = S754_finite s m e.
Proof.
  intros Hc HE HM.
  destruct (e - E) as [|k|k] eqn:Hk; [| |lia].
  - assert (E = e) by lia. subst E.
    rewrite Z.pow_0_r, Z.mul_1_r in HM. injection HM as ->.
    apply bounded_inv in Hc as [? ?]. now apply binary_round_aux_canonical.
  - rewrite <- iter_xO_value in HM. injection HM as ->.
    replace E with (e - Zpos k) by lia.
    now apply binary_round_aux_shifted.
Qed.

(** The number of binary digits of a positive integer *)
Lemma digits2_pos_bounds (p : positive) :
  2 ^ (Zpos (digits2_pos p) - 1) <= Zpos p < 2 ^ Zpos (digits2_pos p).
Proof.
  rewrite digits2_pos_size.
  pose proof (Pos.size_le p) as Hle. pose proof (Pos.size_gt p) as Hgt.
  apply Pos2Z.pos_le_pos in Hle. apply Pos2Z.pos_lt_pos in Hgt.
  rewrite Pos2Z.inj_pow in Hle, Hgt.
  change (Zpos p~0) with (2 * Zpos p) in Hle.
  replace (Zpos (Pos.size p)) with (Z.succ (Zpos (Pos.size p) - 1)) in Hle by lia.
  rewrite Z.pow_succ_r in Hle by lia.
  change (Z.pos 2) with 2 in *. lia.
Qed.

Lemma digits2_pos_unique (p : positive) (d : Z) :
  2 ^ (d - 1) <= Zpos p < 2 ^ d -> Zpos (digits2_pos p) = d.
Proof.
  intros [Hlo Hhi]. pose proof (digits2_pos_bounds p) as [Hlo' Hhi'].
  pose proof (Pos2Z.is_pos (digits2_pos p)) as Hpos.
  assert (Hd : 0 < d).
  { destruct (Z_lt_le_dec 0 d) as [|Hd]; [assumption|].
    exfalso. destruct (Z.eq_dec d 0) as [->|].
    - cbn in Hhi. lia.
    - rewrite Z.pow_neg_r in Hhi by lia. lia. }
  destruct (Z.lt_trichotomy (Zpos (digits2_pos p)) d) as [Hlt|[Heq|Hgt]];
    [exfalso|assumption|exfalso].
  - assert (2 ^ Zpos (digits2_pos p) <= 2 ^ (d - 1))
      by (apply Z.pow_le_mono_r; lia). lia.
  - assert (2 ^ d <= 2 ^ (Zpos (digits2_pos p) - 1))
      by (apply Z.pow_le_mono_r; lia). lia.
Qed.

(** The binary64 value of a positive integer below 2^53: its digits,
    moved up to 53 bits. *)
Lemma binary_round_integer (s : bool) (P : positive) :
  Zpos P < 2 ^ 53 ->
  exists m,
    binary_round prec emax s P 0 = S754_finite s m (Zpos (digits2_pos P) - 53)
    /\ bounded prec emax m (Zpos (digits2_pos P) - 53) = true
    /\ Zpos m = Zpos P * 2 ^ (53 - Zpos (digits2_pos P)).
Proof.
  intros HP. pose proof (digits2_pos_bound P HP) as Hd.
  pose proof (Pos2Z.is_pos (digits2_pos P)) as Hd0.
  assert (Hfexp : forall d, 0 < d <= 53 -> fexp prec emax d = d - 53).
  { intros d Hd'. unfold fexp, emin, prec, emax. lia. }
  unfold binary_round, shl_align.
  rewrite Z.add_0_r, Hfexp, Z.sub_0_r by lia.
  destruct (Zpos (digits2_pos P) - 53) as [|k|k] eqn:Hk; [|lia|].
  - exists P.
    assert (Hb : bounded prec emax P 0 = true).
    { unfold bounded, canonical_mantissa. rewrite Z.add_0_r, Hfexp by lia.
      rewrite Hk. reflexivity. }
    split; [|split].
    + apply bounded_inv in Hb as [? ?]. now apply binary_round_aux_canonical.
    + exact Hb.
    + replace (53 - Zpos (digits2_pos P)) with 0 by lia. lia.
  - exists (Pos.iter xO P k).
    assert (Hb : bounded prec emax (Pos.iter xO P k) (Zneg k) = true).
    { unfold bounded, canonical_mantissa.
      rewrite iter_xO_digits, Pos2Z.inj_add.
      replace (Zpos (digits2_pos P) + Zpos k + Zneg k)
        with (Zpos (digits2_pos P)) by lia.
      rewrite Hfexp, Hk by lia. rewrite Z.eqb_refl. reflexivity. }
    split; [|split].
    + apply bounded_inv in Hb as [? ?]. now apply binary_round_aux_canonical.
    + exact Hb.
    + rewrite iter_xO_value. f_equal. f_equal. lia.
Qed.

Lemma Number_of_positive (P : positive) :
  Zpos P < 2 ^ 53 ->
  exists m,
    Number_of_bigint (Zpos P) = S754_finite false m (Zpos (digits2_pos P) - 53)
    /\ bounded prec emax m (Zpos (digits2_pos P) - 53) = true
    /\ Zpos m = Zpos P * 2 ^ (53 - Zpos (digits2_pos P)).
Proof. apply (binary_round_integer false). Qed.

(** A finite binary64 value is what every pair of the same value rounds
    to. *)
Lemma binary_round_down (s : bool) (M m : positive) (E e : Z) :
  bounded prec emax m e = true -> E <= e -> Zpos M = Zpos m * 2 ^ (e - E) ->
  binary_round prec emax s M E = S754_finite s m e.
Proof.
  intros Hb HE HM. pose proof (bounded_inv _ _ Hb) as [Hcanon _].
  assert (Hd : Zpos (digits2_pos M) = Zpos (digits2_pos m) + (e - E)).
  { destruct (e - E) as [|k|k] eqn:Hk; [| |lia].
    - rewrite Z.pow_0_r, Z.mul_1_r in HM. injection HM as ->. lia.
    - rewrite <- iter_xO_value in HM. injection HM as ->.
      rewrite iter_xO_digits. lia. }
  unfold binary_round, shl_align.
  rewrite Hd. replace (Zpos (digits2_pos m) + (e - E) + E)
    with (Zpos (digits2_pos m) + e) by lia.
  rewrite Hcanon.
  destruct (e - E) as [|k|k] eqn:Hk; [| |lia];
    apply binary_round_aux_exact; try assumption; try lia; now rewrite Hk.
Qed.

Lemma binary_round_up (s : bool) (M m : positive) (E e : Z) :
  bounded prec emax m e = true -> e <= E -> Zpos m = Zpos M * 2 ^ (E - e) ->
  binary_round prec emax s M E = S754_finite s m e.
Proof.
  intros Hb HE HM. pose proof (bounded_inv _ _ Hb) as [Hcanon Hmax].
  destruct (Z.eq_dec E e) as [->|Hne].
  - apply binary_round_down; [assumption|lia|].
    rewrite Z.sub_diag, Z.pow_0_r, Z.mul_1_r in *. now injection HM as ->.
  - assert (Hd : Zpos (digits2_pos m) = Zpos (digits2_pos M) + (E - e)).
    { destruct (E - e) as [|k|k] eqn:Hk; [lia| |lia].
      rewrite <- iter_xO_value in HM. injection HM as ->.
      rewrite iter_xO_digits. lia. }
    unfold binary_round, shl_align.
    replace (Zpos (digits2_pos M) + E) with (Zpos (digits2_pos m) + e) by lia.
    rewrite Hcanon.
    destruct (e - E) as [|k|k] eqn:Hk; [lia|lia|].
    assert (HEk : E - e = Zpos k) by lia. rewrite HEk in HM.
    rewrite <- iter_xO_value in HM. injection HM as ->.
    now apply binary_round_aux_canonical.
Qed.

Lemma pow2_split (x y : Z) : 0 <= x -> 0 <= y -> 2 ^ (x + y) = 2 ^ x * 2 ^ y.
Proof. intros. now apply Z.pow_add_r. Qed.

Lemma pow2_pos (x : Z) : 0 <= x -> 0 < 2 ^ x.
Proof. intros. now apply Z.pow_pos_nonneg. Qed.

(** The digits of a product *)
Lemma digits2_pos_mul (a b : positive) :
  Zpos (digits2_pos a) + Zpos (digits2_pos b) - 1 <= Zpos (digits2_pos (a * b)).
Proof.
  pose proof (digits2_pos_bounds a) as [Ha _].
  pose proof (digits2_pos_bounds b) as [Hb _].
  pose proof (digits2_pos_bounds (a * b)) as [_ Hab].
  pose proof (Pos2Z.is_pos (digits2_pos a)).
  pose proof (Pos2Z.is_pos (digits2_pos b)).
  pose proof (Pos2Z.is_pos (digits2_pos (a * b))).
  destruct (Z_lt_le_dec (Zpos (digits2_pos (a * b)))
              (Zpos (digits2_pos a) + Zpos (digits2_pos b) - 1)) as [Hlt|]; [|assumption].
  exfalso.
  assert (H2 : 2 ^ Zpos (digits2_pos (a * b))
               <= 2 ^ ((Zpos (digits2_pos a) - 1) + (Zpos (digits2_pos b) - 1)))
    by (apply Z.pow_le_mono_r; lia).
  rewrite pow2_split in H2 by lia.
  pose proof (pow2_pos (Zpos (digits2_pos a) - 1)).
  pose proof (pow2_pos (Zpos (digits2_pos b) - 1)).
  rewrite Pos2Z.inj_mul in Hab. nia.
Qed.

Lemma digits2_pos_53 (m : positive) (e : Z) :
  bounded prec emax m e = true -> emin prec emax < e ->
  Zpos (digits2_pos m) = 53.
Proof.
  intros Hb He. apply bounded_inv in Hb as [Hc _].
  unfold fexp, emin, prec, emax in *. lia.
Qed.

(** The binary64 value of [c * 2^t], for [c] below 2^53: the mantissa
    of [c], with the exponent moved by [t]. *)
Lemma binary_round_scaled (s : bool) (c P : positive) (t : Z) :
  Zpos c < 2 ^ 53 -> 0 <= t -> Zpos (digits2_pos c) + t <= 1024 ->
  Zpos P = Zpos c * 2 ^ t ->
  exists m,
    binary_round prec emax s P 0
    = S754_finite s m (Zpos (digits2_pos c) - 53 + t)
    /\ bounded prec emax m (Zpos (digits2_pos c) - 53 + t) = true
    /\ Zpos m = Zpos c * 2 ^ (53 - Zpos (digits2_pos c)).
Proof.
  intros Hc Ht Hmax HP.
  destruct (binary_round_integer s c Hc) as (m & _ & Hb & Hm).
  pose proof (digits2_pos_bound c Hc) as Hd.
  pose proof (Pos2Z.is_pos (digits2_pos c)) as Hd0.
  assert (Hdm : Zpos (digits2_pos m) = 53).
  { apply (digits2_pos_53 m _ Hb). unfold emin, prec, emax. lia. }
  assert (Hb' : bounded prec emax m (Zpos (digits2_pos c) - 53 + t) = true).
  { unfold bounded, canonical_mantissa. rewrite Hdm.
    apply andb_true_intro. split.
    - apply Z.eqb_eq. unfold fexp, emin, prec, emax. lia.
    - apply Z.leb_le. unfold prec, emax. lia. }
  exists m. split; [|split; assumption].
  destruct (Z_le_gt_dec 0 (Zpos (digits2_pos c) - 53 + t)) as [Hge|Hlt].
  - apply binary_round_down; [assumption|assumption|].
    rewrite HP, Hm, Z.sub_0_r, <- Z.mul_assoc, <- pow2_split by lia.
    f_equal. f_equal. lia.
  - apply binary_round_up; [assumption|lia|].
    rewrite HP, Hm, <- Z.mul_assoc, <- pow2_split by lia.
    f_equal. f_equal. lia.
Qed.

Lemma scaled_positive (c : positive) (t : Z) :
  0 <= t -> exists P, Zpos c * 2 ^ t = Zpos P.
Proof.
  intros Ht. pose proof (pow2_pos t Ht) as Hp.
  destruct (Zpos c * 2 ^ t) as [|P|P] eqn:HP; try lia. now exists P.
Qed.

Lemma Number_of_scaled (c : positive) (t : Z) :
  Zpos c < 2 ^ 53 -> 0 <= t -> Zpos (digits2_pos c) + t <= 1024 ->
  exists m,
    Number_of_bigint (Zpos c * 2 ^ t)
    = S754_finite false m (Zpos (digits2_pos c) - 53 + t)
    /\ bounded prec emax m (Zpos (digits2_pos c) - 53 + t) = true
    /\ Zpos m = Zpos c * 2 ^ (53 - Zpos (digits2_pos c)).
Proof.
  intros Hc Ht Hmax. destruct (scaled_positive c t Ht) as [P HP].
  rewrite HP. now apply (binary_round_scaled false c P t).
Qed.

(** The product of two such values is exact as long as the product of
    the two factors [a] and [b] is below 2^53. *)
Lemma mul_scaled (a b : positive) (s t : Z) :
  Zpos a * Zpos b < 2 ^ 53 -> 0 <= s -> 0 <= t ->
  Zpos (digits2_pos (a * b)) + s + t <= 1024 ->
  mul (Number_of_bigint (Zpos a * 2 ^ s)) (Number_of_bigint (Zpos b * 2 ^ t))
  = Number_of_bigint (Zpos a * Zpos b * 2 ^ (s + t)).
Proof.
  intros Hab Hs Ht Hmax.
  assert (Ha : Zpos a < 2 ^ 53) by nia.
  assert (Hb : Zpos b < 2 ^ 53) by nia.
  pose proof (digits2_pos_mul a b) as Hd.
  pose proof (digits2_pos_bound a Ha). pose proof (digits2_pos_bound b Hb).
  pose proof (Pos2Z.is_pos (digits2_pos a)).
  pose proof (Pos2Z.is_pos (digits2_pos b)).
  change (Zpos a * Zpos b) with (Zpos (a * b)) in *.
  pose proof (digits2_pos_bound (a * b) Hab).
  destruct (Number_of_scaled a s) as (ma & -> & _ & Hma); [lia..|].
  destruct (Number_of_scaled b t) as (mb & -> & _ & Hmb); [lia..|].
  destruct (Number_of_scaled (a * b) (s + t)) as (mp & -> & Hbp & Hmp); [lia..|].
  unfold mul. cbn [SFmul xorb].
  apply binary_round_aux_exact; [assumption|lia|].
  rewrite Pos2Z.inj_mul, Hma, Hmb, Hmp, Pos2Z.inj_mul.
  rewrite <- (Z.mul_assoc _ (2 ^ _) (2 ^ _)), <- pow2_split by lia.
  replace (53 - Zpos (digits2_pos (a * b))
           + (Zpos (digits2_pos (a * b)) - 53 + (s + t)
              - (Zpos (digits2_pos a) - 53 + s + (Zpos (digits2_pos b) - 53 + t))))
    with ((53 - Zpos (digits2_pos a)) + (53 - Zpos (digits2_pos b))) by lia.
  rewrite pow2_split by lia. ring.
Qed.

Lemma mul_positive (a b : positive) :
  Zpos a * Zpos b < 2 ^ 53 ->
  mul (Number_of_bigint (Zpos a)) (Number_of_bigint (Zpos b))
  = Number_of_bigint (Zpos a * Zpos b).
Proof.
  intros Hab.
  pose proof (mul_scaled a b 0 0 Hab ltac:(lia) ltac:(lia)) as Hmul.
  rewrite !Z.add_0_r, Z.pow_0_r, !Z.mul_1_r in Hmul. apply Hmul.
  change (Zpos a * Zpos b) with (Zpos (a * b)) in Hab.
  pose proof (digits2_pos_bound (a * b) Hab). lia.
Qed.

Lemma mul_integers (a b : Z) :
  0 <= a < 2 ^ 53 -> 0 <= b < 2 ^ 53 -> a * b < 2 ^ 53 ->
  mul (Number_of_bigint a) (Number_of_bigint b) = Number_of_bigint (a * b).
Proof.
  intros Ha Hb Hab. destruct a as [|a|a]; [|destruct b as [|b|b]|]; try lia.
  - destruct b as [|b|b]; [reflexivity| |lia].
    destruct (Number_of_positive b) as (mb & -> & _); [lia|reflexivity].
  - destruct (Number_of_positive a) as (ma & -> & _); [lia|reflexivity].
  - now apply mul_positive.
Qed.

(** [BigInt(Math.floor(n))] is [n] on an integer below 2^53 in
    magnitude. *)
Lemma BigInt_Math_floor_integer (z : Z) :
  Z.abs z < 2 ^ 53 -> BigInt (Math_floor (Number_of_bigint z)) = Ok z.
Proof.
  intros Hz.
  assert (Hgen : forall s P, Zpos P < 2 ^ 53 ->
            BigInt (Math_floor (binary_round prec emax s P 0))
            = Ok (cond_Zopp s (Zpos P))).
  { intros s P HP.
    destruct (binary_round_integer s P HP) as (m & -> & _ & Hm).
    pose proof (digits2_pos_bound P HP) as Hd.
    destruct (Zpos (digits2_pos P) - 53) as [|k|k] eqn:Hk; [|lia|].
    - replace (53 - Zpos (digits2_pos P)) with 0 in Hm by lia.
      rewrite Z.pow_0_r, Z.mul_1_r in Hm.
      unfold BigInt. cbn [Math_floor integer_value].
      now rewrite Z.pow_0_r, Z.mul_1_r, Hm.
    - replace (53 - Zpos (digits2_pos P)) with (Zpos k) in Hm by lia.
      pose proof (pow2_pos (Zpos k) ltac:(lia)) as Hpow.
      assert (Hfloor : floorZ s m (Zneg k) = cond_Zopp s (Zpos P)).
      { unfold floorZ. rewrite Hm.
        destruct s; cbn [cond_Zopp].
        - rewrite <- Z.mul_opp_l. apply Z.div_mul. lia.
        - apply Z.div_mul. lia. }
      unfold BigInt. cbn [Math_floor]. rewrite Hfloor.
      rewrite binary_normalize_exact; [reflexivity|].
      destruct s; cbn [cond_Zopp]; lia. }
  destruct z as [|P|P].
  - reflexivity.
  - apply (Hgen false P). exact Hz.
  - apply (Hgen true P). exact Hz.
Qed.

(** Comparison of two non-negative integers below 2^53 *)
Lemma compare_integers (a b : Z) :
  0 <= a < 2 ^ 53 -> 0 <= b < 2 ^ 53 ->
  SFcompare (Number_of_bigint a) (Number_of_bigint b) = Some (a ?= b).
Proof.
  intros Ha Hb.
  destruct a as [|a|a]; [|destruct b as [|b|b]|]; try lia.
  - destruct b as [|b|b]; [reflexivity| |lia].
    destruct (Number_of_positive b) as (mb & -> & _); [lia|reflexivity].
  - destruct (Number_of_positive a) as (ma & -> & _); [lia|reflexivity].
  - destruct (Number_of_positive a) as (ma & -> & _ & Hma); [lia|].
    destruct (Number_of_positive b) as (mb & -> & _ & Hmb); [lia|].
    pose proof (digits2_pos_bounds a) as [Halo Hahi].
    pose proof (digits2_pos_bounds b) as [Hblo Hbhi].
    pose proof (Pos2Z.is_pos (digits2_pos a)).
    pose proof (Pos2Z.is_pos (digits2_pos b)).
    cbn [SFcompare]. f_equal.
    destruct (Z.compare_spec (Zpos (digits2_pos a) - 53) (Zpos (digits2_pos b) - 53))
      as [Heq|Hlt|Hgt].
    + assert (Hd : Zpos (digits2_pos a) = Zpos (digits2_pos b)) by lia.
      rewrite Hd in Hma.
      change (Pos.compare_cont Eq ma mb) with (Zpos ma ?= Zpos mb).
      rewrite Hma, Hmb.
      assert (Hpow : 0 < 2 ^ (53 - Zpos (digits2_pos b))).
      { apply pow2_pos. pose proof (digits2_pos_bound b). lia. }
      destruct (Z.compare_spec (Zpos a) (Zpos b));
        [apply Z.compare_eq_iff|apply Z.compare_lt_iff|apply Z.compare_gt_iff];
        nia.
    + symmetry. apply Z.compare_lt_iff.
      assert (2 ^ Zpos (digits2_pos a) <= 2 ^ (Zpos (digits2_pos b) - 1))
        by (apply Z.pow_le_mono_r; lia).
      lia.
    + symmetry. apply Z.compare_gt_iff.
      assert (2 ^ Zpos (digits2_pos b) <= 2 ^ (Zpos (digits2_pos a) - 1))
        by (apply Z.pow_le_mono_r; lia).
      lia.
Qed.

Lemma ge_integers (a b : Z) :
  0 <= a < 2 ^ 53 -> 0 <= b < 2 ^ 53 ->
  ge (Number_of_bigint a) (Number_of_bigint b) = (b <=? a).
Proof.
  intros Ha Hb. unfold ge, SFleb. rewrite compare_integers by assumption.
  unfold Z.leb. now destruct (b ?= a).
Qed.

Lemma lt_integers (a b : Z) :
  0 <= a < 2 ^ 53 -> 0 <= b < 2 ^ 53 ->
  lt (Number_of_bigint a) (Number_of_bigint b) = (a <? b).
Proof.
  intros Ha Hb. unfold lt, SFltb. rewrite compare_integers by assumption.
  unfold Z.ltb. now destruct (a ?= b).
Qed.

Lemma digits2_pos_le (a b : positive) :
  Zpos a <= Zpos b -> Zpos (digits2_pos a) <= Zpos (digits2_pos b).
Proof.
  intros Hab.
  pose proof (digits2_pos_bounds a) as [Ha _].
  pose proof (digits2_pos_bounds b) as [_ Hb].
  pose proof (Pos2Z.is_pos (digits2_pos a)).
  pose proof (Pos2Z.is_pos (digits2_pos b)).
  destruct (Z_lt_le_dec (Zpos (digits2_pos b)) (Zpos (digits2_pos a))) as [Hlt|];
    [exfalso|assumption].
  assert (2 ^ Zpos (digits2_pos b) <= 2 ^ (Zpos (digits2_pos a) - 1))
    by (apply Z.pow_le_mono_r; lia).
  lia.
Qed.

Lemma shl_align_value (m : positive) (e e' : Z) :
  e' <= e -> Zpos (fst (shl_align m e e')) = Zpos m * 2 ^ (e - e').
Proof.
  intros He. unfold shl_align.
  destruct (e' - e) as [|d|d] eqn:Hd; [|lia|]; cbn [fst].
  - replace (e - e') with 0 by lia. lia.
  - rewrite iter_xO_value. f_equal. f_equal. lia.
Qed.

(** The sum of two non-negative integers is exact as long as it is
    below 2^53. *)
Lemma add_positive (a b : positive) :
  Zpos a + Zpos b < 2 ^ 53 ->
  add (Number_of_bigint (Zpos a)) (Number_of_bigint (Zpos b))
  = Number_of_bigint (Zpos a + Zpos b).
Proof.
  intros Hab.
  destruct (Number_of_positive a) as (ma & -> & _ & Hma); [lia|].
  destruct (Number_of_positive b) as (mb & -> & _ & Hmb); [lia|].
  rewrite <- Pos2Z.inj_add in *.
  destruct (Number_of_positive (a + b) Hab) as (mv & -> & Hbv & Hmv).
  pose proof (digits2_pos_le a (a + b) ltac:(lia)) as Hda.
  pose proof (digits2_pos_le b (a + b) ltac:(lia)) as Hdb.
  pose proof (digits2_pos_bound (a + b) Hab) as Hdv.
  pose proof (Pos2Z.is_pos (digits2_pos a)).
  pose proof (Pos2Z.is_pos (digits2_pos b)).
  set (da := Zpos (digits2_pos a)) in *.
  set (db := Zpos (digits2_pos b)) in *.
  set (dv := Zpos (digits2_pos (a + b))) in *.
  unfold add. cbn [SFadd cond_Zopp].
  set (ez := Z.min (da - 53) (db - 53)).
  rewrite <- Pos2Z.inj_add. cbn [binary_normalize].
  apply binary_round_down; [assumption|lia|].
  rewrite Pos2Z.inj_add, !shl_align_value by lia.
  rewrite Hma, Hmb, Hmv, Pos2Z.inj_add.
  rewrite <- !Z.mul_assoc, <- !pow2_split by lia.
  replace (53 - da + (da - 53 - ez)) with (- ez) by lia.
  replace (53 - db + (db - 53 - ez)) with (- ez) by lia.
  replace (53 - dv + (dv - 53 - ez)) with (- ez) by lia.
  ring.
Qed.

Lemma add_integers (a b : Z) :
  0 <= a -> 0 <= b -> a + b < 2 ^ 53 ->
  add (Number_of_bigint a) (Number_of_bigint b) = Number_of_bigint (a + b).
Proof.
  intros Ha Hb Hab. destruct a as [|a|a]; [|destruct b as [|b|b]|]; try lia.
  - destruct b as [|b|b]; [reflexivity| |lia].
    destruct (Number_of_positive b) as (mb & Hb' & _); [lia|].
    change (0 + Zpos b) with (Zpos b). rewrite Hb'. reflexivity.
  - destruct (Number_of_positive a) as (ma & Ha' & _); [lia|].
    rewrite Z.add_0_r, Ha'. reflexivity.
  - now apply add_positive.
Qed.

Lemma div_eucl_mul (q b : Z) : b <> 0 -> Z.div_eucl (q * b) b = (q, 0).
Proof.
  intros Hb.
  pose proof (Z.div_mul q b Hb) as Hq. pose proof (Z.mod_mul q b Hb) as Hr.
  unfold Z.div, Z.modulo in Hq, Hr.
  destruct (Z.div_eucl (q * b) b) as [q' r']. now subst.
Qed.

(** A quotient of two such values that is an integer below 2^53 is
    exact. *)
Lemma div_scaled (n d : positive) (t : Z) :
  Zpos n * Zpos d < 2 ^ 53 -> 0 <= t <= 64 ->
  div (Number_of_bigint (Zpos n * Zpos d * 2 ^ t)) (Number_of_bigint (Zpos d * 2 ^ t))
  = Number_of_bigint (Zpos n).
Proof.
  intros Hnd Ht. rewrite <- Pos2Z.inj_mul in *.
  assert (Hn : Zpos n < 2 ^ 53) by (rewrite Pos2Z.inj_mul in Hnd; nia).
  assert (Hd : Zpos d < 2 ^ 53) by (rewrite Pos2Z.inj_mul in Hnd; nia).
  pose proof (digits2_pos_bound (n * d) Hnd) as HdN.
  pose proof (digits2_pos_bound d Hd) as HdD.
  pose proof (digits2_pos_bound n Hn) as Hdn.
  pose proof (Pos2Z.is_pos (digits2_pos n)).
  pose proof (Pos2Z.is_pos (digits2_pos d)).
  pose proof (Pos2Z.is_pos (digits2_pos (n * d))).
  destruct (Number_of_scaled (n * d) t) as (mN & -> & HbN & HmN); [lia..|].
  destruct (Number_of_scaled d t) as (mD & -> & HbD & HmD); [lia..|].
  destruct (Number_of_positive n Hn) as (mn & -> & Hbn & Hmn).
  assert (HdigN : Zpos (digits2_pos mN) = 53).
  { apply (digits2_pos_53 mN _ HbN). unfold emin, prec, emax. lia. }
  assert (HdigD : Zpos (digits2_pos mD) = 53).
  { apply (digits2_pos_53 mD _ HbD). unfold emin, prec, emax. lia. }
  assert (Hdig : Zpos (digits2_pos (n * d))
                 <= Zpos (digits2_pos n) + Zpos (digits2_pos d)).
  { pose proof (digits2_pos_bounds (n * d)) as [Hlo _].
    pose proof (digits2_pos_bounds n) as [_ Hhn].
    pose proof (digits2_pos_bounds d) as [_ Hhd].
    destruct (Z_lt_le_dec (Zpos (digits2_pos n) + Zpos (digits2_pos d))
                (Zpos (digits2_pos (n * d)))) as [Hlt|]; [exfalso|assumption].
    assert (Hp : 2 ^ (Zpos (digits2_pos n) + Zpos (digits2_pos d))
                 <= 2 ^ (Zpos (digits2_pos (n * d)) - 1))
      by (apply Z.pow_le_mono_r; lia).
    rewrite pow2_split in Hp by lia. rewrite Pos2Z.inj_mul in Hlo. nia. }
  set (dN := Zpos (digits2_pos (n * d))) in *.
  set (dD := Zpos (digits2_pos d)) in *.
  set (dn := Zpos (digits2_pos n)) in *.
  unfold div. cbn [SFdiv xorb]. unfold SFdiv_core_binary.
  cbn [Zdigits2]. rewrite HdigN, HdigD.
  replace (53 + (dN - 53 + t) - (53 + (dD - 53 + t))) with (dN - dD) by lia.
  assert (Hfexp : fexp prec emax (dN - dD) = dN - dD - 53).
  { unfold fexp, emin, prec, emax. lia. }
  rewrite Hfexp.
  replace (Z.min (dN - dD - 53) (dN - 53 + t - (dD - 53 + t)))
    with (dN - dD - 53) by lia.
  replace (dN - 53 + t - (dD - 53 + t) - (dN - dD - 53)) with 53 by lia.
  rewrite Z.shiftl_mul_pow2 by lia.
  destruct (53 - dN + dD) as [|k|k] eqn:Hk; [lia| |lia].
  assert (Hq : Zpos mN * 2 ^ 53 = Zpos (Pos.iter xO n k) * Zpos mD).
  { rewrite iter_xO_value, HmN, HmD, Pos2Z.inj_mul, <- Hk.
    rewrite <- (Z.mul_assoc _ (2 ^ _) (2 ^ 53)), <- pow2_split by lia.
    transitivity (Zpos n * Zpos d * (2 ^ (53 - dN + dD) * 2 ^ (53 - dD))); [|ring].
    rewrite <- pow2_split by lia. f_equal. f_equal. lia. }
  rewrite Hq, div_eucl_mul by lia.
  assert (Hloc : new_location (Zpos mD) 0 = loc_Exact).
  { unfold new_location. now destruct (Z.even (Zpos mD)). }
  rewrite Hloc.
  apply binary_round_aux_exact; [assumption|lia|].
  rewrite iter_xO_value, Hmn, <- Z.mul_assoc, <- pow2_split by lia.
  f_equal. f_equal. lia.
Qed.

(** [BigInt(Math.floor(x))] on the binary64 value of the integer
    [c * 2^t] is that integer. *)
Lemma BigInt_Math_floor_scaled (c : positive) (t : Z) :
  Zpos c < 2 ^ 53 -> 0 <= t <= 64 ->
  BigInt (Math_floor (Number_of_bigint (Zpos c * 2 ^ t))) = Ok (Zpos c * 2 ^ t).
Proof.
  intros Hc Ht.
  pose proof (digits2_pos_bound c Hc) as Hd.
  pose proof (Pos2Z.is_pos (digits2_pos c)) as Hd0.
  destruct (Number_of_scaled c t) as (m & -> & _ & Hm); [lia..|].
  destruct (Zpos (digits2_pos c) - 53 + t) as [|k|k] eqn:Hk.
  - unfold BigInt. cbn [Math_floor integer_value cond_Zopp].
    rewrite Z.pow_0_r, Z.mul_1_r, Hm. do 3 f_equal. lia.
  - unfold BigInt. cbn [Math_floor integer_value cond_Zopp].
    rewrite Hm, <- Z.mul_assoc, <- pow2_split by lia. do 3 f_equal. lia.
  - pose proof (pow2_pos (Zpos k) ltac:(lia)) as Hpow.
    assert (Hval : Zpos m = Zpos c * 2 ^ t * 2 ^ Zpos k).
    { rewrite Hm, <- Z.mul_assoc, <- pow2_split by lia. do 2 f_equal. lia. }
    assert (Hsmall : Zpos c * 2 ^ t < 2 ^ 53).
    { pose proof (digits2_pos_bounds c) as [_ Hhi].
      pose proof (pow2_pos t ltac:(lia)).
      assert (2 ^ (Zpos (digits2_pos c) + t) <= 2 ^ 53)
        by (apply Z.pow_le_mono_r; lia).
      rewrite pow2_split in * by lia. nia. }
    unfold BigInt. cbn [Math_floor]. unfold floorZ. cbn [cond_Zopp].
    rewrite Hval, Z.div_mul by lia.
    rewrite binary_normalize_exact; [reflexivity|].
    pose proof (pow2_pos t ltac:(lia)). nia.
Qed.

Lemma integer_value_Number (z : Z) :
  Z.abs z < 2 ^ 53 -> integer_value (Number_of_bigint z) = Some z.
Proof. apply binary_normalize_exact. Qed.

End Exactness.

Section ExactnessOfOne.

Lemma Number_one : Number_of_bigint 1 = S754_finite false 4503599627370496 (-52).
Proof. reflexivity. Qed.

(** Multiplying and dividing by one changes no binary64 value. *)
Lemma mul_one (x : number) :
  is_binary64 x = true -> mul x (Number_of_bigint 1) = x.
Proof.
  intros Hx. rewrite Number_one.
  destruct x as [s|s| |s m e]; cbn [mul SFmul]; unfold mul; cbn [SFmul];
    rewrite ?xorb_false_r; try reflexivity.
  apply binary_round_aux_exact; [exact Hx|lia|].
  replace (e - (e + -52)) with 52 by lia.
  rewrite Pos2Z.inj_mul. reflexivity.
Qed.

Lemma div_one (x : number) :
  is_binary64 x = true -> div x (Number_of_bigint 1) = x.
Proof.
  intros Hx. rewrite Number_one.
  destruct x as [s|s| |s m e]; unfold div; cbn [SFdiv];
    rewrite ?xorb_false_r; try reflexivity.
  pose proof (bounded_inv m e Hx) as [Hc Hmax].
  pose proof (Pos2Z.is_pos (digits2_pos m)) as Hd.
  unfold SFdiv_core_binary. cbn [Zdigits2].
  change (Zpos (digits2_pos 4503599627370496)) with 53.
  set (e' := fexp prec emax (Zpos (digits2_pos m) + e - (53 + -52))).
  assert (He' : e' <= e).
  { subst e'. unfold fexp, emin, prec, emax in *. lia. }
  replace (Z.min e' (e - -52)) with e' by lia.
  destruct (e - -52 - e') as [|k|k] eqn:Hk; [lia| |lia].
  rewrite Z.shiftl_mul_pow2 by lia.
  assert (Hq : Zpos m * 2 ^ Zpos k
               = Zpos m * 2 ^ (e - e') * Zpos 4503599627370496).
  { change (Zpos 4503599627370496) with (2 ^ 52).
    rewrite <- Z.mul_assoc, <- pow2_split by lia. f_equal. f_equal. lia. }
  rewrite Hq, div_eucl_mul by lia.
  change (new_location (Zpos 4503599627370496) 0) with loc_Exact.
  destruct (e - e') as [|j|j] eqn:Hj; [| |lia].
  - rewrite Z.pow_0_r, Z.mul_1_r.
    apply binary_round_aux_exact; [exact Hx|lia|].
    rewrite Hj. lia.
  - rewrite <- iter_xO_value.
    apply binary_round_aux_exact; [exact Hx|lia|].
    rewrite Hj. apply iter_xO_value.
Qed.

End ExactnessOfOne.

(** ** Whole amounts, block numbers and default arguments *)

Section WholeAmounts.
Import UnitConverter Networks.
Context `{Builtins}.

(** Scaling a whole amount [n] by the unit [c * 2^t], and back *)
Lemma scale_whole (n : Z) (c : positive) (t : Z) :
  0 <= n -> Zpos c < 2 ^ 53 -> n * Zpos c < 2 ^ 53 -> 0 <= t <= 64 ->
  BigInt (Math_floor (mul (Number_of_bigint n) (Number_of_bigint (Zpos c * 2 ^ t))))
  = Ok (n * (Zpos c * 2 ^ t)).
Proof.
  intros Hn Hc Hnc Ht. destruct n as [|n|n]; try lia.
  - pose proof (digits2_pos_bound c Hc).
    destruct (Number_of_scaled c t) as (m & -> & _); [lia..|reflexivity].
  - change (Zpos n * Zpos c) with (Zpos (n * c)) in Hnc.
    pose proof (digits2_pos_bound (n * c) Hnc).
    pose proof (mul_scaled n c 0 t) as Hmul.
    rewrite Z.pow_0_r, Z.mul_1_r, Z.add_0_l in Hmul.
    rewrite Hmul by (assumption || lia).
    change (Zpos n * Zpos c) with (Zpos (n * c)).
    rewrite BigInt_Math_floor_scaled by (assumption || lia).
    f_equal. rewrite Pos2Z.inj_mul. ring.
Qed.

Lemma unscale_whole (n : Z) (c : positive) (t : Z) :
  0 <= n -> Zpos c < 2 ^ 53 -> n * Zpos c < 2 ^ 53 -> 0 <= t <= 64 ->
  div (Number_of_bigint (n * (Zpos c * 2 ^ t))) (Number_of_bigint (Zpos c * 2 ^ t))
  = Number_of_bigint n.
Proof.
  intros Hn Hc Hnc Ht. destruct n as [|n|n]; try lia.
  - cbn [Z.mul]. pose proof (digits2_pos_bound c Hc).
    destruct (Number_of_scaled c t) as (m & -> & _); [lia..|reflexivity].
  - rewrite Z.mul_assoc. now apply div_scaled.
Qed.

Lemma agixToCogs_not_finite (x : number) :
  isFinite x = false -> agixToCogs (ANum x) = Throw RangeError.
Proof.
  unfold agixToCogs. rewrite cogs_per_agix_finite.
  destruct x as [s|s| |s m e]; intros Hx; try discriminate; reflexivity.
Qed.

(** X1.  A whole number [n] of AGIX, ETH or ADA converts to exactly [n] times
    10^8 cogs, 10^18 wei or 10^6 lovelace, as long as that product is a
    binary64 value, that is, as long as [n * 5^8], [n * 5^18] or
    [n * 5^6] is below 2^53. *)
Theorem whole_amounts_convert_exactly (n : Z) :
  0 <= n ->
  (n * 5 ^ 8 < 2 ^ 53 ->
   agixToCogs (ANum (Number_of_bigint n)) = Ok (n * 10 ^ 8))
  /\ (n * 5 ^ 18 < 2 ^ 53 ->
      ethToWei (ANum (Number_of_bigint n)) = Ok (n * 10 ^ 18))
  /\ (n * 5 ^ 6 < 2 ^ 53 ->
      adaToLovelace (ANum (Number_of_bigint n)) = Ok (n * 10 ^ 6)).
Proof.
  intros Hn. split; [|split]; intros Hlt.
  - apply (scale_whole n 390625 8); [assumption|reflexivity|exact Hlt|lia].
  - apply (scale_whole n 3814697265625 18); [assumption|reflexivity|exact Hlt|lia].
  - apply (scale_whole n 15625 6); [assumption|reflexivity|exact Hlt|lia].
Qed.

(** X2.  On such amounts the conversions are inverse to each other: the
    smallest units of a whole amount convert back to the amount, and
    from there to the same units again. *)
Theorem whole_amounts_round_trip (n : Z) :
  0 <= n ->
  (n * 5 ^ 8 < 2 ^ 53 ->
   cogsToAgix (UBig (n * 10 ^ 8)) = Ok (Number_of_bigint n)
   /\ (x ← cogsToAgix (UBig (n * 10 ^ 8)); agixToCogs (ANum x)) = Ok (n * 10 ^ 8)
   /\ (c ← agixToCogs (ANum (Number_of_bigint n)); cogsToAgix (UBig c))
      = Ok (Number_of_bigint n))
  /\ (n * 5 ^ 18 < 2 ^ 53 ->
      weiToEth (UBig (n * 10 ^ 18)) = Ok (Number_of_bigint n)
      /\ (x ← weiToEth (UBig (n * 10 ^ 18)); ethToWei (ANum x)) = Ok (n * 10 ^ 18)
      /\ (c ← ethToWei (ANum (Number_of_bigint n)); weiToEth (UBig c))
         = Ok (Number_of_bigint n))
  /\ (n * 5 ^ 6 < 2 ^ 53 ->
      lovelaceToAda (UBig (n * 10 ^ 6)) = Ok (Number_of_bigint n)
      /\ (x ← lovelaceToAda (UBig (n * 10 ^ 6)); adaToLovelace (ANum x))
         = Ok (n * 10 ^ 6)
      /\ (c ← adaToLovelace (ANum (Number_of_bigint n)); lovelaceToAda (UBig c))
         = Ok (Number_of_bigint n)).
Proof.
  intros Hn.
  assert (Hgen : forall c t, Zpos c < 2 ^ 53 -> n * Zpos c < 2 ^ 53 -> 0 <= t <= 64 ->
    let unit := Number_of_bigint (Zpos c * 2 ^ t) in
    let to_units (x : number) := BigInt (Math_floor (mul x unit)) in
    let of_units (z : Z) : Exc number := Ok (div (Number_of_bigint z) unit) in
    of_units (n * (Zpos c * 2 ^ t)) = Ok (Number_of_bigint n)
    /\ (x ← of_units (n * (Zpos c * 2 ^ t)); to_units x) = Ok (n * (Zpos c * 2 ^ t))
    /\ (z ← to_units (Number_of_bigint n); of_units z) = Ok (Number_of_bigint n)).
  { intros c t Hc0 Hc Ht. cbv beta zeta.
    rewrite unscale_whole by assumption. exc_unfold.
    rewrite scale_whole by assumption.
    rewrite unscale_whole by assumption. auto. }
  split; [|split]; intros Hlt.
  - apply (Hgen 390625%positive 8); [reflexivity|exact Hlt|lia].
  - apply (Hgen 3814697265625%positive 18); [reflexivity|exact Hlt|lia].
  - apply (Hgen 15625%positive 6); [reflexivity|exact Hlt|lia].
Qed.

(** X3.  [validateAmount] on an integer below 2^53 in magnitude: it accepts
    those from 0 up to [MAX_SAFE_INTEGER - 1]; [MAX_SAFE_INTEGER] itself
    is refused. *)
Theorem validateAmount_on_integers (n : Z) :
  Z.abs n < 2 ^ 53 ->
  validateAmount (ANum (Number_of_bigint n)) = (0 <=? n) && (n <? 2 ^ 53 - 1).
Proof.
  intros Hn. destruct (Z_lt_le_dec n 0) as [Hneg|Hpos].
  - replace (0 <=? n) with false by (symmetry; apply Z.leb_gt; lia).
    apply validateAmount_rejects. right.
    destruct n as [|p|p]; try lia.
    cbn [amount_number].
    destruct (binary_round_integer true p) as (m & Hm & _); [lia|].
    unfold Number_of_bigint. cbn [binary_normalize]. rewrite Hm. reflexivity.
  - unfold validateAmount. cbn [amount_number].
    unfold MAX_SAFE_INTEGER, MAX_SAFE_INTEGER_Z.
    rewrite ge_integers, lt_integers by lia.
    assert (Hnan : isNaN (Number_of_bigint n) = false).
    { destruct n as [|p|p]; try lia; [reflexivity|].
      destruct (Number_of_positive p) as (m & -> & _); [lia|reflexivity]. }
    rewrite Hnan. reflexivity.
Qed.

(** X4.  With the default of one call, and with the default conversion rate
    of one, the scaling disappears: the cost of a call is the price in
    cogs, and an amount converts to itself between AGIX and ASI. *)
Theorem default_factors_are_neutral (x : number) :
  is_binary64 x = true ->
  calculateServiceCost x None = agixToCogs (ANum x)
  /\ (forall balance,
        isSufficientBalance balance x None
        = (required ← agixToCogs (ANum x); mret (required <=? balance)))
  /\ agixToAsi x None = x
  /\ asiToAgix x None = x
  /\ asiToAgix (agixToAsi x None) None = x.
Proof.
  intros Hx.
  assert (Hcost : calculateServiceCost x None = agixToCogs (ANum x)).
  { unfold calculateServiceCost. cbn [from_option]; unfold id. now rewrite mul_one. }
  split; [exact Hcost|]. split; [|split; [|split]].
  - intros balance. unfold isSufficientBalance. cbn [from_option]; unfold id.
    change (calculateServiceCost x (Some (Number_of_bigint 1)))
      with (calculateServiceCost x None).
    now rewrite Hcost.
  - unfold agixToAsi. cbn [from_option]; unfold id. now apply mul_one.
  - unfold asiToAgix. cbn [from_option]; unfold id. now apply div_one.
  - unfold agixToAsi, asiToAgix. cbn [from_option]; unfold id.
    rewrite mul_one by assumption. now apply div_one.
Qed.

(** X5.  [isSufficientBalance] on whole prices and call counts compares the
    balance with the exact product; in general it is monotone in the
    balance, and it throws instead of answering when the product of price
    and calls is not finite. *)
Theorem isSufficientBalance_spec (balance : Z) (pricePerCall : number)
    (numCalls : option number) :
  (forall p k, 0 <= p < 2 ^ 53 -> 0 <= k < 2 ^ 53 -> p * k * 5 ^ 8 < 2 ^ 53 ->
     pricePerCall = Number_of_bigint p -> numCalls = Some (Number_of_bigint k) ->
     isSufficientBalance balance pricePerCall numCalls
     = Ok (p * k * 10 ^ 8 <=? balance))
  /\ (forall balance',
        isSufficientBalance balance pricePerCall numCalls = Ok true ->
        balance <= balance' ->
        isSufficientBalance balance' pricePerCall numCalls = Ok true)
  /\ (isFinite (mul pricePerCall (default (Number_of_bigint 1) numCalls)) = false ->
      isSufficientBalance balance pricePerCall numCalls = Throw RangeError).
Proof.
  split; [|split].
  - intros p k Hp Hk Hpk -> ->.
    unfold isSufficientBalance, calculateServiceCost, agixToCogs.
    cbn [from_option amount_number]. unfold id.
    rewrite mul_integers by nia.
    pose proof (scale_whole (p * k) 390625 8) as Hscale.
    unfold COGS_PER_AGIX. change 100000000 with (Zpos 390625 * 2 ^ 8).
    rewrite Hscale by (reflexivity || nia). reflexivity.
  - intros balance'. unfold isSufficientBalance.
    destruct (calculateServiceCost _ _) as [c|e]; exc_unfold; [|discriminate].
    intros Hc Hle. injection Hc as Hc. apply Z.leb_le in Hc.
    f_equal. apply Z.leb_le. lia.
  - intros Hfin. unfold isSufficientBalance, calculateServiceCost.
    destruct numCalls as [k|]; cbn [from_option] in *; unfold id in *;
      rewrite (agixToCogs_not_finite _ Hfin); reflexivity.
Qed.

End WholeAmounts.

Section WholeAmountsEvaluated.
Import UnitConverter Networks.

Lemma whole_amounts_convert_exactly_witness :
  @agixToCogs Models.unparsed (ANum (Number_of_bigint 250)) = Ok 25000000000
  /\ @ethToWei Models.unparsed (ANum (Number_of_bigint 2361))
     = Ok 2361000000000000000000
  /\ @adaToLovelace Models.unparsed (ANum (Number_of_bigint 45000000000))
     = Ok 45000000000000000.
Proof.
  split; [|split].
  - apply (@whole_amounts_convert_exactly Models.unparsed 250); lia.
  - apply (@whole_amounts_convert_exactly Models.unparsed 2361); lia.
  - apply (@whole_amounts_convert_exactly Models.unparsed 45000000000); lia.
Defined.

(** Beyond the bound the conversion need not be exact: 2363 * 10^18 is
    no binary64 value, and 2363 ETH convert to 2^18 wei more. *)
Example ethToWei_2363 :
  @ethToWei Models.unparsed (ANum (Number_of_bigint 2363))
  = Ok (2363 * 10 ^ 18 + 2 ^ 18).
Proof. vm_compute. reflexivity. Qed.

Lemma whole_amounts_round_trip_witness :
  @cogsToAgix Models.unparsed (UBig 25000000000) = Ok (Number_of_bigint 250)
  /\ (c ← @ethToWei Models.unparsed (ANum (Number_of_bigint 3));
      @weiToEth Models.unparsed (UBig c)) = Ok (Number_of_bigint 3)
  /\ (x ← @lovelaceToAda Models.unparsed (UBig 7000000);
      @adaToLovelace Models.unparsed (ANum x)) = Ok 7000000.
Proof.
  split; [|split].
  - apply (@whole_amounts_round_trip Models.unparsed 250); lia.
  - apply (@whole_amounts_round_trip Models.unparsed 3); lia.
  - apply (@whole_amounts_round_trip Models.unparsed 7); lia.
Defined.

Lemma validateAmount_on_integers_witness :
  @validateAmount Models.unparsed (ANum (Number_of_bigint (2 ^ 53 - 2))) = true
  /\ @validateAmount Models.unparsed (ANum (Number_of_bigint (2 ^ 53 - 1))) = false
  /\ @validateAmount Models.unparsed (ANum (Number_of_bigint (-1))) = false.
Proof.
  split; [|split].
  - apply (@validateAmount_on_integers Models.unparsed (2 ^ 53 - 2)). lia.
  - apply (@validateAmount_on_integers Models.unparsed (2 ^ 53 - 1)). lia.
  - apply (@validateAmount_on_integers Models.unparsed (-1)). lia.
Defined.

Lemma default_factors_are_neutral_witness :
  @calculateServiceCost Models.unparsed (literal 25 1) None = Ok 250000000
  /\ asiToAgix (agixToAsi (literal 25 1) None) None = literal 25 1.
Proof.
  destruct (@default_factors_are_neutral Models.unparsed (literal 25 1))
    as (Hcost & _ & _ & _ & Hround); [vm_compute; reflexivity|].
  split.
  - rewrite Hcost. vm_compute. reflexivity.
  - exact Hround.
Defined.

Lemma isSufficientBalance_spec_witness :
  @isSufficientBalance Models.unparsed 600000000 (Number_of_bigint 2)
    (Some (Number_of_bigint 3)) = Ok true
  /\ @isSufficientBalance Models.unparsed 599999999 (Number_of_bigint 2)
       (Some (Number_of_bigint 3)) = Ok false
  /\ @isSufficientBalance Models.unparsed 600000000 NaN None = Throw RangeError.
Proof.
  split; [|split].
  - apply (@isSufficientBalance_spec Models.unparsed 600000000 (Number_of_bigint 2)
             (Some (Number_of_bigint 3))) with (p := 2) (k := 3);
      lia || reflexivity.
  - apply (@isSufficientBalance_spec Models.unparsed 599999999 (Number_of_bigint 2)
             (Some (Number_of_bigint 3))) with (p := 2) (k := 3);
      lia || reflexivity.
  - apply (@isSufficientBalance_spec Models.unparsed 600000000 NaN None).
    reflexivity.
Defined.

End WholeAmountsEvaluated.

(** ** Amounts as text and generic unit conversion *)

Section TextAmounts.
Import UnitConverter Networks.
Context `{Builtins}.

Lemma filter_chars_idem (p : ascii -> bool) (s : string) :
  filter_chars p (filter_chars p s) = filter_chars p s.
Proof.
  induction s as [|c r IH]; [reflexivity|].
  cbn [filter_chars]. destruct (p c) eqn:Hc; [|exact IH].
  cbn [filter_chars]. now rewrite Hc, IH.
Qed.

Lemma append_cons (c : ascii) (a b : string) :
  (String c a ++ b)%string = String c (a ++ b).
Proof. reflexivity. Qed.

Lemma filter_chars_app (p : ascii -> bool) (a b : string) :
  filter_chars p (a ++ b) = (filter_chars p a ++ filter_chars p b)%string.
Proof.
  induction a as [|c r IH]; [reflexivity|].
  rewrite append_cons. cbn [filter_chars].
  destruct (p c); rewrite ?append_cons; now rewrite IH.
Qed.

(** X6.  [parseTokenAmount] reads the digits and dots of its argument only:
    every other character is dropped before parsing, wherever it stands,
    so a sign, an exponent letter, a thousands separator or a unit
    changes nothing; and it never answers NaN or a negative zero, both of
    which become 0. *)
Theorem parseTokenAmount_reads_digits_and_dots :
  (forall amountStr,
      parseTokenAmount amountStr
      = parseTokenAmount (filter_chars is_numeric_char amountStr))
  /\ (forall (a b : string) (c : ascii),
        is_numeric_char c = false ->
        parseTokenAmount (a ++ String c b) = parseTokenAmount (a ++ b))
  /\ (forall amountStr,
        isNaN (parseTokenAmount amountStr) = false
        /\ parseTokenAmount amountStr <> S754_zero true).
Proof.
  split; [|split].
  - intros s. unfold parseTokenAmount. now rewrite filter_chars_idem.
  - intros a b c Hc. unfold parseTokenAmount.
    rewrite !filter_chars_app. cbn [filter_chars]. now rewrite Hc.
  - intros s. unfold parseTokenAmount, number_or.
    destruct (parseFloat _); split; try reflexivity; discriminate.
Qed.

Lemma getUnitDecimals_toUpperCase (unit : string) :
  getUnitDecimals (toUpperCase unit) = getUnitDecimals unit.
Proof. unfold getUnitDecimals. now rewrite toLowerCase_toUpperCase. Qed.

Lemma getUnitDecimals_toLowerCase (unit : string) :
  getUnitDecimals (toLowerCase unit) = getUnitDecimals unit.
Proof. unfold getUnitDecimals. now rewrite toLowerCase_idem. Qed.

Lemma getUnitDecimals_display (unit : string) :
  getUnitDecimals unit <> 0 ->
  In (toLowerCase unit) ["cogs"; "wei"; "gwei"; "lovelace"]%string.
Proof.
  unfold getUnitDecimals. cbv zeta.
  repeat match goal with
         | |- context [String.eqb ?a ?b] =>
             destruct (String.eqb_spec a b) as [Heq|?]; [try rewrite Heq|]
         end; cbn; intros Hne; try congruence; tauto.
Qed.

(** X7.  [convertUnits] does not look at the case of the unit names.  From a
    unit of 0 decimals it divides the amount by ten to the decimals of
    the target unit (from [agix] to [cogs] by 10^8), and to a unit of 0
    decimals it multiplies the amount by ten to the decimals of the
    source unit (from [cogs] to [agix] by 10^8).  The decimals of
    [cogs], [wei], [gwei] and [lovelace] are 8, 18, 9 and 6; every other
    unit, known or not, has 0 decimals. *)
Theorem convertUnits_by_decimals (amount : amount_arg) (fromUnit toUnit : string) :
  let x := amount_number amount in
  convertUnits amount (toUpperCase fromUnit) (toUpperCase toUnit)
  = convertUnits amount fromUnit toUnit
  /\ convertUnits amount (toLowerCase fromUnit) (toLowerCase toUnit)
     = convertUnits amount fromUnit toUnit
  /\ (is_binary64 x = true -> getUnitDecimals fromUnit = 0 ->
      convertUnits amount fromUnit toUnit
      = div x (Math_pow10 (getUnitDecimals toUnit)))
  /\ (is_binary64 (mul x (Math_pow10 (getUnitDecimals fromUnit))) = true ->
      getUnitDecimals toUnit = 0 ->
      convertUnits amount fromUnit toUnit
      = mul x (Math_pow10 (getUnitDecimals fromUnit)))
  /\ map getUnitDecimals
       ["agix"; "cogs"; "eth"; "ether"; "wei"; "gwei"; "ada"; "lovelace";
        "asi"; "tokens"]%string
     = [0; 8; 0; 0; 18; 9; 0; 6; 0; 0]
  /\ (forall unit,
        ~ In (toLowerCase unit) ["cogs"; "wei"; "gwei"; "lovelace"]%string ->
        getUnitDecimals unit = 0).
Proof.
  cbv zeta. split; [|split; [|split; [|split; [|split]]]].
  - unfold convertUnits. now rewrite !getUnitDecimals_toUpperCase.
  - unfold convertUnits. now rewrite !getUnitDecimals_toLowerCase.
  - intros Hx Hfrom. unfold convertUnits. rewrite Hfrom.
    change (Math_pow10 0) with (Number_of_bigint 1). now rewrite mul_one.
  - intros Hx Hto. unfold convertUnits. rewrite Hto.
    change (Math_pow10 0) with (Number_of_bigint 1). now apply div_one.
  - reflexivity.
  - intros unit Hother.
    destruct (Z.eq_dec (getUnitDecimals unit) 0) as [Hzero|Hdecimals];
      [exact Hzero|].
    destruct (Hother (getUnitDecimals_display unit Hdecimals)).
Qed.

End TextAmounts.

Section TextAmountsEvaluated.
Import UnitConverter Networks.

Lemma parseTokenAmount_reads_digits_and_dots_witness :
  @parseTokenAmount Models.unparsed "-5" = @parseTokenAmount Models.unparsed "5"
  /\ @parseTokenAmount Models.unparsed "1e3" = @parseTokenAmount Models.unparsed "13"
  /\ @parseTokenAmount Models.unparsed "1,234.5 AGIX"
     = @parseTokenAmount Models.unparsed "1234.5".
Proof.
  destruct (@parseTokenAmount_reads_digits_and_dots Models.unparsed)
    as (Hclean & Hdrop & _).
  split; [|split].
  - apply (Hdrop EmptyString "5" "-"%char). reflexivity.
  - apply (Hdrop "1" "3" "e"%char). reflexivity.
  - rewrite (Hclean "1,234.5 AGIX"). reflexivity.
Defined.

(** One AGIX "in cogs" is 10^-8, and one cog "in AGIX" is 10^8, whereas
    [agixToCogs] makes 10^8 cogs of one AGIX. *)
Lemma convertUnits_by_decimals_witness :
  @convertUnits Models.unparsed (ANum (Number_of_bigint 1)) "AGIX" "cogs"
  = literal 1 8
  /\ @convertUnits Models.unparsed (ANum (Number_of_bigint 1)) "cogs" "agix"
     = Number_of_bigint 100000000
  /\ @agixToCogs Models.unparsed (ANum (Number_of_bigint 1)) = Ok 100000000.
Proof.
  split; [|split].
  - destruct (@convertUnits_by_decimals Models.unparsed
                (ANum (Number_of_bigint 1)) "AGIX" "cogs")
      as (_ & _ & Hdivides & _).
    apply Hdivides; reflexivity.
  - destruct (@convertUnits_by_decimals Models.unparsed
                (ANum (Number_of_bigint 1)) "cogs" "agix")
      as (_ & _ & _ & Hmultiplies & _).
    rewrite Hmultiplies; vm_compute; reflexivity.
  - vm_compute. reflexivity.
Defined.

End TextAmountsEvaluated.

Section Blocks.
Import PaymentUtils.

(** X8.  Whether a channel is expired, on block numbers: for two block
    heights below 2^53 the answer is [expiration <= currentBlock], also
    when the expiration is the one [parseChannelData] read from the
    contract; a NaN on either side is never expired. *)
Theorem isChannelExpired_on_blocks :
  (forall expiration currentBlock : Z,
      0 <= expiration < 2 ^ 53 -> 0 <= currentBlock < 2 ^ 53 ->
      isChannelExpired (Number_of_bigint expiration) (Number_of_bigint currentBlock)
      = (expiration <=? currentBlock))
  /\ (forall (channelData : channel_tuple) (currentBlock : Z),
        0 <= channelData.(t_expiration) < 2 ^ 53 -> 0 <= currentBlock < 2 ^ 53 ->
        isChannelExpired (parseChannelData channelData).(expiration)
          (Number_of_bigint currentBlock)
        = (channelData.(t_expiration) <=? currentBlock))
  /\ (forall x, isChannelExpired NaN x = false /\ isChannelExpired x NaN = false).
Proof.
  split; [|split].
  - intros e h He Hh. unfold isChannelExpired. now apply ge_integers.
  - intros t h He Hh. unfold isChannelExpired. cbn [parseChannelData expiration].
    now apply ge_integers.
  - intros x. unfold isChannelExpired, ge, SFleb. split; [reflexivity|].
    now destruct x.
Qed.

Lemma isChannelExpired_on_blocks_witness :
  isChannelExpired (Number_of_bigint 19011520) (Number_of_bigint 19011519) = false
  /\ isChannelExpired (Number_of_bigint 19011520) (Number_of_bigint 19011520) = true
  /\ isChannelExpired (parseChannelData Models.channel_3).(expiration)
       (Number_of_bigint 19011521) = true.
Proof.
  destruct isChannelExpired_on_blocks as (Hnum & Hread & _).
  split; [|split].
  - apply (Hnum 19011520 19011519); lia.
  - apply (Hnum 19011520 19011520); lia.
  - apply (Hread Models.channel_3 19011521); cbn; lia.
Defined.

(** X9.  The expiration block is computed exactly on whole arguments below
    2^53: it is [currentBlock + days * blocksPerDay], from which block on
    the channel counts as expired; the defaults are 7 days of 6500
    blocks. *)
Theorem calculateExpirationBlock_exact (currentBlock days blocksPerDay : Z) :
  0 <= currentBlock -> 0 <= days < 2 ^ 53 -> 0 <= blocksPerDay < 2 ^ 53 ->
  currentBlock + days * blocksPerDay < 2 ^ 53 ->
  let expiration :=
    calculateExpirationBlock (Number_of_bigint currentBlock)
      (Some (Number_of_bigint days)) (Some (Number_of_bigint blocksPerDay)) in
  expiration = Number_of_bigint (currentBlock + days * blocksPerDay)
  /\ (forall h, 0 <= h < 2 ^ 53 ->
        isChannelExpired expiration (Number_of_bigint h)
        = (currentBlock + days * blocksPerDay <=? h))
  /\ (days = 7 -> blocksPerDay = 6500 ->
      calculateExpirationBlock (Number_of_bigint currentBlock) None None
      = expiration).
Proof.
  intros Hc Hd Hb Hsum. cbv zeta.
  assert (Hexp : calculateExpirationBlock (Number_of_bigint currentBlock)
                   (Some (Number_of_bigint days)) (Some (Number_of_bigint blocksPerDay))
                 = Number_of_bigint (currentBlock + days * blocksPerDay)).
  { unfold calculateExpirationBlock. cbn [from_option]. unfold id.
    rewrite mul_integers by nia. apply add_integers; nia. }
  split; [exact Hexp|split].
  - intros h Hh. rewrite Hexp. unfold isChannelExpired. apply ge_integers; nia.
  - intros -> ->. reflexivity.
Qed.

Lemma calculateExpirationBlock_exact_witness :
  calculateExpirationBlock (Number_of_bigint 19000000) None None
  = Number_of_bigint 19045500
  /\ isChannelExpired
       (calculateExpirationBlock (Number_of_bigint 19000000)
          (Some (Number_of_bigint 7)) (Some (Number_of_bigint 6500)))
       (Number_of_bigint 19045499) = false.
Proof.
  destruct (calculateExpirationBlock_exact 19000000 7 6500)
    as (Hexp & Hexpired & Hdefault);
    [lia..|].
  split.
  - rewrite (Hdefault eq_refl eq_refl). exact Hexp.
  - apply (Hexpired 19045499). lia.
Defined.

End Blocks.

Section Deposits.
Import PaymentUtils.

(** [BigInt(Math.ceil(n))] is [n] on an integer below 2^53 in
    magnitude. *)
Lemma BigInt_Math_ceil_integer (z : Z) :
  Z.abs z < 2 ^ 53 -> BigInt (Math_ceil (Number_of_bigint z)) = Ok z.
Proof.
  intros Hz.
  assert (Hgen : forall s P, Zpos P < 2 ^ 53 ->
            BigInt (Math_ceil (binary_round prec emax s P 0))
            = Ok (cond_Zopp s (Zpos P))).
  { intros s P HP.
    destruct (binary_round_integer s P HP) as (m & -> & _ & Hm).
    pose proof (digits2_pos_bound P HP) as Hd.
    destruct (Zpos (digits2_pos P) - 53) as [|k|k] eqn:Hk; [|lia|].
    - replace (53 - Zpos (digits2_pos P)) with 0 in Hm by lia.
      rewrite Z.pow_0_r, Z.mul_1_r in Hm.
      unfold BigInt. cbn [Math_ceil integer_value].
      now rewrite Z.pow_0_r, Z.mul_1_r, Hm.
    - replace (53 - Zpos (digits2_pos P)) with (Zpos k) in Hm by lia.
      pose proof (pow2_pos (Zpos k) ltac:(lia)) as Hpow.
      assert (Hceil : ceilZ s m (Zneg k) = cond_Zopp s (Zpos P)).
      { unfold ceilZ, floorZ. rewrite Hm.
        destruct s; cbn [cond_Zopp negb].
        - rewrite Z.div_mul by lia. reflexivity.
        - rewrite <- Z.mul_opp_l, Z.div_mul by lia. lia. }
      unfold BigInt. cbn [Math_ceil]. rewrite Hceil.
      rewrite binary_normalize_exact; [reflexivity|].
      destruct s; cbn [cond_Zopp]; lia. }
  destruct z as [|P|P].
  - reflexivity.
  - apply (Hgen false P). exact Hz.
  - apply (Hgen true P). exact Hz.
Qed.

Lemma BigInt_Number (z : Z) :
  Z.abs z < 2 ^ 53 -> BigInt (Number_of_bigint z) = Ok z.
Proof. intros Hz. unfold BigInt. now rewrite integer_value_Number. Qed.

(** X10.  The minimum deposit with a whole safety multiplier is the exact
    product of price, calls and multiplier, as long as it is below 2^53;
    a number of calls that is not an integer (a fraction, NaN, an
    infinity) makes the function throw a RangeError. *)
Theorem calculateMinimumDeposit_whole_multiplier (pricePerCall : Z)
    (estimatedCalls : number) (safetyMultiplier : option number) :
  (forall calls k,
      0 <= pricePerCall -> 0 <= calls < 2 ^ 53 -> 0 <= k < 2 ^ 53 ->
      pricePerCall * calls < 2 ^ 53 -> pricePerCall * calls * k < 2 ^ 53 ->
      estimatedCalls = Number_of_bigint calls ->
      safetyMultiplier = Some (Number_of_bigint k) ->
      calculateMinimumDeposit pricePerCall estimatedCalls safetyMultiplier
      = Ok (pricePerCall * calls * k))
  /\ (integer_value estimatedCalls = None ->
      calculateMinimumDeposit pricePerCall estimatedCalls safetyMultiplier
      = Throw RangeError).
Proof.
  split.
  - intros calls k Hp Hc Hk Hbase Htotal -> ->.
    unfold calculateMinimumDeposit. cbn [from_option]. unfold Datatypes.id.
    rewrite BigInt_Number by lia. exc_unfold.
    rewrite mul_integers by nia.
    apply BigInt_Math_ceil_integer. nia.
  - intros Hcalls.
    assert (Hthrow : BigInt estimatedCalls = Throw RangeError)
      by (unfold BigInt; now rewrite Hcalls).
    unfold calculateMinimumDeposit. now rewrite Hthrow.
Qed.

Lemma calculateMinimumDeposit_whole_multiplier_witness :
  calculateMinimumDeposit 1000000 (Number_of_bigint 100) (Some (Number_of_bigint 2))
  = Ok 200000000
  /\ calculateMinimumDeposit 1000000 (literal 15 1) None = Throw RangeError.
Proof.
  split.
  - destruct (calculateMinimumDeposit_whole_multiplier 1000000
                (Number_of_bigint 100) (Some (Number_of_bigint 2))) as (Hwhole & _).
    apply (Hwhole 100 2); lia || reflexivity.
  - destruct (calculateMinimumDeposit_whole_multiplier 1000000
                (literal 15 1) None) as (_ & Hfraction).
    apply Hfraction. vm_compute. reflexivity.
Defined.

End Deposits.

(** ** Channel ids and channel numbers *)

Section ChannelNumbers.
Import Ethers PaymentUtils EthereumClient Spec.

Lemma hex_digits_value_bytes (bs : bytes) :
  forall acc, hex_digits_value (Some acc) (hex_of_bytes bs)
              = Some (fold_left be_step bs acc).
Proof.
  induction bs as [|b bs IH]; intros acc; [reflexivity|].
  pose proof (byte_value_range b) as Hb.
  cbn [hex_of_bytes hex_of_byte hex_digits_value fold_left].
  rewrite hex_value_char by (split; [apply Z.div_pos; lia|apply Z.div_lt_upper_bound; lia]).
  cbn [hex_digits_value from_option]. unfold Datatypes.id.
  rewrite hex_value_char by (apply Z.mod_pos_bound; lia).
  cbn [from_option]. unfold Datatypes.id.
  rewrite IH. f_equal. f_equal. unfold be_step.
  pose proof (Z.div_mod (byte_value b) 16 ltac:(lia)). lia.
Qed.

(** [parseInt(topic, 16)] on the hexadecimal form of a non-empty byte
    sequence is the big-endian value of the bytes, as a number. *)
Lemma parseInt16_hexlify (b : byte) (bs : bytes) :
  parseInt16 (hexlify (b :: bs)) = Number_of_bigint (be_value (b :: bs)).
Proof.
  pose proof (byte_value_range b) as Hb.
  unfold parseInt16, hexlify. cbn [trim_start].
  change (is_white_space "0") with false. cbv iota.
  cbn [hex_of_bytes hex_of_byte hex_digits_value].
  rewrite hex_value_char by (split; [apply Z.div_pos; lia|apply Z.div_lt_upper_bound; lia]).
  cbn [from_option]. unfold Datatypes.id.
  cbn [hex_digits_value].
  rewrite hex_value_char by (apply Z.mod_pos_bound; lia).
  cbn [from_option]. unfold Datatypes.id.
  rewrite hex_digits_value_bytes.
  unfold be_value. cbn [fold_left cond_Zopp].
  replace (16 * (16 * 0 + byte_value b / 16) + byte_value b mod 16)
    with (be_step 0 b); [reflexivity|].
  unfold be_step. pose proof (Z.div_mod (byte_value b) 16 ltac:(lia)). lia.
Qed.

(** A whole number from 0 to [MAX_SAFE_INTEGER], given as a number, is
    read by the packing as that integer. *)
Lemma getUint_Number (z : Z) :
  0 <= z <= MAX_SAFE_INTEGER_Z ->
  getUint (OfNumber (Number_of_bigint z)) = Ok z.
Proof.
  intros Hz. unfold MAX_SAFE_INTEGER_Z in Hz.
  unfold getUint, getBigInt, Number_isInteger, BigInt.
  rewrite integer_value_Number by lia. cbn [negb].
  assert (Hlow : ge (Number_of_bigint z) (Number_of_bigint (- MAX_SAFE_INTEGER_Z))
                 = true).
  { destruct z as [|p|p]; try lia; [reflexivity|].
    destruct (Number_of_positive p) as (m & -> & _); [lia|reflexivity]. }
  assert (Hhigh : ge MAX_SAFE_INTEGER (Number_of_bigint z) = true).
  { unfold MAX_SAFE_INTEGER, MAX_SAFE_INTEGER_Z.
    rewrite ge_integers by lia. apply Z.leb_le. lia. }
  rewrite Hlow, Hhigh. exc_unfold. cbn [andb negb].
  destruct (Z.ltb_spec z 0); [lia|reflexivity].
Qed.

Lemma pack_Number (z : Z) :
  0 <= z <= MAX_SAFE_INTEGER_Z ->
  pack (SolUint256 (OfNumber (Number_of_bigint z))) = pack (SolUint256 (OfBigInt z)).
Proof.
  intros Hz. unfold pack, toBeArray. rewrite getUint_Number by assumption.
  unfold getUint. cbn [getBigInt]. exc_unfold.
  destruct (Z.ltb_spec z 0); [lia|reflexivity].
Qed.

End ChannelNumbers.

Section ChannelIds.
Import Ethers PaymentUtils EthereumClient Spec.
Context `{Signer} {chain : Type} `{Mpe chain}.

(** X11.  The channel id that [openChannel] returns is the one the contract
    put into the event: when the second topic of the first ChannelOpen
    log is the [uint256] encoding of [id], the result carries [id] as a
    number, which below 2^53 is exactly [id]. *)
Theorem openChannel_returns_the_emitted_id (this : client) (w : wallet)
    (recipient groupId : string) (amount : Z) (expiration : number)
    (st st' : chain) (tx_hash : string) (receipt : Receipt)
    (pre post : list Log) (others : list string) (id : Z) (encoded : bytes) :
  this.(cl_mpe) = true ->
  this.(cl_wallet) = Some w ->
  mpe_openChannel (wallet_address w) recipient groupId amount expiration st
  = Ok (tx_hash, receipt, st') ->
  receipt.(rc_logs)
  = pre ++ {| topics := ChannelOpen_topic :: hexlify encoded :: others |} :: post ->
  Forall (fun l => is_ChannelOpen l = false) pre ->
  pack (SolUint256 (OfBigInt id)) = Ok encoded ->
  exists result,
    openChannel this recipient groupId amount expiration st = Ok (result, st')
    /\ result.(oc_channelId) = Number_of_bigint id
    /\ result.(oc_tx).(hash) = tx_hash
    /\ (id < 2 ^ 53 -> BigInt result.(oc_channelId) = Ok id).
Proof.
  intros Hmpe Hw Hsent Hlogs Hpre Hpack.
  destruct (pack_uint256 _ _ Hpack) as (z & Hz & Hlen & Hvalue).
  pose proof (getUint_nonneg _ _ Hz) as Hnonneg.
  cbn in Hz. destruct (id <? 0); [discriminate|]. injection Hz as <-.
  unfold openChannel. rewrite Hmpe, Hw, Hsent. exc_unfold.
  rewrite Hlogs, (find_first is_ChannelOpen pre post _ Hpre)
    by (unfold is_ChannelOpen; cbn [topics]; apply String.eqb_refl).
  eexists. split; [reflexivity|]. cbn [oc_channelId oc_tx EthereumClient.hash].
  assert (Hid : parseInt16
                  (topic1_string
                     {| topics := ChannelOpen_topic :: hexlify encoded :: others |})
                = Number_of_bigint id).
  { unfold topic1_string. cbn [topics].
    destruct encoded as [|b bs]; [discriminate Hlen|].
    now rewrite parseInt16_hexlify, Hvalue. }
  rewrite Hid. split; [reflexivity|]. split; [reflexivity|].
  intros Hsmall. unfold BigInt. rewrite integer_value_Number by lia.
  reflexivity.
Qed.

(** X12.  The numbers of a channel are exact below 2^53.  The nonce and the
    expiration that [getChannel] and [parseChannelData] return convert
    back to the integers the contract holds, and a claim made with a
    channel id and a nonce from 0 to [MAX_SAFE_INTEGER], given as
    numbers, packs these very integers. *)
Theorem channel_numbers_are_exact (channelData : channel_tuple) (channelId : Z)
    (mpeAddress : string) (amount : Z) :
  (Z.abs channelData.(t_nonce) < 2 ^ 53 ->
   BigInt (parseChannelData channelData).(nonce) = Ok channelData.(t_nonce))
  /\ (Z.abs channelData.(t_expiration) < 2 ^ 53 ->
      BigInt (parseChannelData channelData).(expiration)
      = Ok channelData.(t_expiration))
  /\ (forall this st info,
        getChannel this (Number_of_bigint channelId) st = Ok info ->
        mpe_channels (Number_of_bigint channelId) st = Ok channelData ->
        Z.abs channelId < 2 ^ 53 ->
        Z.abs channelData.(t_nonce) < 2 ^ 53 ->
        Z.abs channelData.(t_expiration) < 2 ^ 53 ->
        BigInt info.(ci_channelId) = Ok channelId
        /\ BigInt info.(ci_nonce) = Ok channelData.(t_nonce)
        /\ BigInt info.(ci_expiration) = Ok channelData.(t_expiration))
  /\ (0 <= channelId <= MAX_SAFE_INTEGER_Z ->
      0 <= channelData.(t_nonce) <= MAX_SAFE_INTEGER_Z ->
      claim_packed mpeAddress (Number_of_bigint channelId)
        (parseChannelData channelData).(nonce) amount
      = solidityPacked
          [SolString "__MPE_claim_message"; SolAddress mpeAddress;
           SolUint256 (OfBigInt channelId);
           SolUint256 (OfBigInt channelData.(t_nonce));
           SolUint256 (OfBigInt amount)]).
Proof.
  split; [|split; [|split]].
  - intros Hn. unfold BigInt. cbn [parseChannelData nonce].
    now rewrite integer_value_Number.
  - intros He. unfold BigInt. cbn [parseChannelData expiration].
    now rewrite integer_value_Number.
  - intros this st info Hget Hread Hid Hn He. unfold getChannel in Hget.
    destruct (negb this.(cl_mpe)); [discriminate|].
    rewrite Hread in Hget. exc_unfold. injection Hget as <-.
    cbn [ci_channelId ci_nonce ci_expiration]. unfold BigInt.
    now rewrite !integer_value_Number.
  - intros Hid Hn. unfold claim_packed. cbn [parseChannelData nonce].
    cbn [solidityPacked]. now rewrite !pack_Number.
Qed.

End ChannelIds.

Section ChannelIdsEvaluated.
Import Ethers PaymentUtils EthereumClient Spec Models.

Lemma openChannel_returns_the_emitted_id_witness :
  exists result,
    @openChannel symbolic scripted scripted_mpe ready_client
      Networks.ETHEREUM_MAINNET_mpeAddress zero_bytes32 500000000
      (Number_of_bigint 19011520) ledger_3
    = Ok (result, {| script := [("0x02", receipt_without_event)];
                     table := ledger_3.(table) |})
    /\ result.(oc_channelId) = Number_of_bigint 42
    /\ BigInt result.(oc_channelId) = Ok 42.
Proof.
  pose (encoded := repeat Byte.x00 31 ++ [Byte.x2a]).
  pose (others :=
          ["0x00000000000000000000000000c5496aee77c1ba1f0854206a26dda82a81d6d8";
           "0x0000000000000000000000005e592f9b1d303183d963635f895f0f0c48284f4e"]%string).
  assert (Hlogs : receipt_with_event.(rc_logs)
                  = [ {| topics := [transfer_topic] |} ]
                    ++ {| topics := ChannelOpen_topic :: hexlify encoded :: others |}
                    :: []) by (vm_compute; reflexivity).
  assert (Hpre : Forall (fun l => is_ChannelOpen l = false)
                   [ {| topics := [transfer_topic] |} ])
    by (constructor; [vm_compute; reflexivity|constructor]).
  assert (Hpack : pack (SolUint256 (OfBigInt 42)) = Ok encoded)
    by (vm_compute; reflexivity).
  destruct (@openChannel_returns_the_emitted_id symbolic scripted scripted_mpe
              ready_client tt Networks.ETHEREUM_MAINNET_mpeAddress zero_bytes32
              500000000 (Number_of_bigint 19011520) ledger_3
              {| script := [("0x02", receipt_without_event)];
                 table := ledger_3.(table) |}
              "0x01" receipt_with_event
              [ {| topics := [transfer_topic] |} ] [] others 42 encoded
              eq_refl eq_refl eq_refl Hlogs Hpre Hpack)
    as (result & Hrun & Hid & _ & Hsmall).
  exists result. split; [exact Hrun|]. split; [exact Hid|].
  apply Hsmall. lia.
Defined.

Lemma channel_numbers_are_exact_witness :
  BigInt (parseChannelData channel_3).(expiration) = Ok 19011520
  /\ claim_packed Networks.ETHEREUM_MAINNET_mpeAddress (Number_of_bigint 3)
       (parseChannelData channel_3).(nonce) 1000
     = solidityPacked
         [SolString "__MPE_claim_message";
          SolAddress Networks.ETHEREUM_MAINNET_mpeAddress;
          SolUint256 (OfBigInt 3); SolUint256 (OfBigInt 0);
          SolUint256 (OfBigInt 1000)].
Proof.
  destruct (@channel_numbers_are_exact symbolic scripted scripted_mpe channel_3 3
              Networks.ETHEREUM_MAINNET_mpeAddress 1000)
    as (_ & Hexpiration & _ & Hclaim).
  split.
  - apply Hexpiration. cbn. lia.
  - apply Hclaim; cbn; unfold MAX_SAFE_INTEGER_Z; lia.
Defined.

End ChannelIdsEvaluated.

(** ** Hashes *)

Section Hashes.
Import Ethers PaymentUtils Spec.

Lemma xor_lanes_length (st blk : list Z) :
  List.length (Keccak.xor_lanes st blk) = List.length st.
Proof.
  revert blk. induction st as [|a st IH]; intros [|b blk]; cbn; try reflexivity.
  now rewrite IH.
Qed.

Lemma round_length (st : list Z) (rc : Z) :
  List.length (Keccak.round st rc) = 25%nat.
Proof. reflexivity. Qed.

Lemma keccak_f_length (st : list Z) : List.length (Keccak.keccak_f st) = 25%nat.
Proof.
  unfold Keccak.keccak_f, Keccak.round_constants.
  cbn [fold_left]. apply round_length.
Qed.

Lemma absorb_length (fuel : nat) :
  forall st data,
    List.length st = 25%nat -> List.length (Keccak.absorb fuel st data) = 25%nat.
Proof.
  induction fuel as [|fuel IH]; intros st data Hst; [exact Hst|].
  cbn [Keccak.absorb]. destruct data as [|b data]; [exact Hst|].
  apply IH, keccak_f_length.
Qed.

(** A hash has 32 bytes. *)
Lemma keccak256_length (msg : bytes) :
  List.length (Keccak.keccak256 msg) = 32%nat.
Proof.
  with_strategy transparent [Keccak.keccak256] unfold Keccak.keccak256.
  cbv zeta. rewrite length_map.
  set (st := Keccak.absorb _ _ _).
  assert (Hst : List.length st = 25%nat).
  { apply absorb_length. reflexivity. }
  destruct st as [|a [|b [|c [|d st]]]]; try discriminate Hst.
  reflexivity.
Qed.

Lemma keccak256_bytes (data : bytes) :
  getBytes (keccak256 data) = Ok (Keccak.keccak256 data).
Proof. apply getBytes_hexlify. Qed.

End Hashes.

Section Digests.
Import Ethers PaymentUtils Spec.
Context `{Signer}.

(** X13.  A group id is a [bytes32] value: [0x] and 64 hexadecimal digits,
    which decode to 32 bytes, whatever the group name is.  What
    [generatePaymentSignature] and [generateFreeCallToken] hand to the
    wallet to sign is a digest of 32 bytes as well. *)
Theorem group_ids_and_digests_have_32_bytes :
  (forall groupName,
      String.length (generateGroupId groupName) = 66%nat
      /\ exists bs, getBytes (generateGroupId groupName) = Ok bs
                    /\ List.length bs = 32%nat)
  /\ (forall w mpeAddress channelId nonce amount sig,
        generatePaymentSignature w mpeAddress channelId nonce amount = Ok sig ->
        exists digest,
          List.length digest = 32%nat
          /\ signMessage w digest = Ok sig.(signature))
  /\ (forall w userAddress organizationId serviceId currentBlock token,
        generateFreeCallToken w userAddress organizationId serviceId currentBlock
        = Ok token ->
        exists digest sigText,
          List.length digest = 32%nat
          /\ signMessage w digest = Ok sigText
          /\ token = Buffer_toString_base64 (Buffer_from_string sigText)).
Proof.
  split; [|split].
  - intros groupName. unfold generateGroupId, id.
    pose proof (keccak256_bytes (toUtf8 groupName)) as Hbytes.
    split.
    + rewrite (getBytes_length _ _ Hbytes), keccak256_length. reflexivity.
    + eexists. split; [exact Hbytes|apply keccak256_length].
  - intros w mpeAddress channelId nonce amount sig.
    unfold generatePaymentSignature, solidityPackedKeccak256.
    destruct (solidityPacked _) as [packed|e]; exc_unfold; [|discriminate].
    rewrite keccak256_bytes.
    destruct (signMessage w _) as [sigText|e] eqn:Hsign; [|discriminate].
    destruct (Signature_from sigText) as [parts|e]; [|discriminate].
    intros [= <-]. eexists. split; [apply keccak256_length|exact Hsign].
  - intros w userAddress organizationId serviceId currentBlock token.
    unfold generateFreeCallToken, solidityPackedKeccak256.
    destruct (solidityPacked _) as [packed|e]; exc_unfold; [|discriminate].
    rewrite keccak256_bytes.
    destruct (signMessage w _) as [sigText|e] eqn:Hsign; [|discriminate].
    intros [= <-]. eexists. eexists.
    split; [apply keccak256_length|]. split; [exact Hsign|reflexivity].
Qed.

End Digests.

Section DigestsEvaluated.
Import Ethers PaymentUtils Spec Models.

Lemma group_ids_and_digests_have_32_bytes_witness :
  exists digest,
    List.length digest = 32%nat
    /\ @signMessage symbolic tt digest
       = Ok (match @generatePaymentSignature symbolic tt
                     Networks.ETHEREUM_MAINNET_mpeAddress
                     (Number_of_bigint 1) (Number_of_bigint 0) 1000 with
             | Ok sig => sig.(signature)
             | Throw _ => EmptyString
             end).
Proof.
  pose (call := @generatePaymentSignature symbolic tt
                  Networks.ETHEREUM_MAINNET_mpeAddress
                  (Number_of_bigint 1) (Number_of_bigint 0) 1000).
  pose (sig := match call with
               | Ok sig => sig
               | Throw _ => {| signature := EmptyString; v := 0;
                               r := EmptyString; s := EmptyString |}
               end).
  assert (Hcall : call = Ok sig) by (vm_compute; reflexivity).
  destruct (@group_ids_and_digests_have_32_bytes symbolic) as (_ & Hclaim & _).
  destruct (Hclaim tt Networks.ETHEREUM_MAINNET_mpeAddress
              (Number_of_bigint 1) (Number_of_bigint 0) 1000 sig Hcall)
    as (digest & Hlen & Hsign).
  exists digest. split; [exact Hlen|].
  fold call. rewrite Hcall. exact Hsign.
Defined.

End DigestsEvaluated.

(** ** The gRPC client: endpoints and request headers *)

Section Endpoints.
Import GrpcClient.

Lemma startsWith_app (p s : string) : startsWith (p ++ s) p = true.
Proof. unfold startsWith. now rewrite after_prefix_app. Qed.

(** X14.  An endpoint is stored with a scheme, and normalising it again
    changes nothing, whatever [useSsl] is: an endpoint that carries a
    scheme is kept as it is (an [http://] endpoint stays one when
    [useSsl] is set), and any other gets [https://] or [http://] in
    front.  So setting the endpoint of a client to its own endpoint
    leaves it unchanged. *)
Theorem normalizeEndpoint_idempotent (endpoint : string) (useSsl useSsl' : bool) :
  let normal := normalizeEndpoint endpoint useSsl in
  (startsWith normal "http://" || startsWith normal "https://" = true)
  /\ normalizeEndpoint normal useSsl' = normal
  /\ (startsWith endpoint "http://" || startsWith endpoint "https://" = true ->
      normal = endpoint)
  /\ (startsWith endpoint "http://" || startsWith endpoint "https://" = false ->
      normal = ((if useSsl then "https://" else "http://") ++ endpoint)%string)
  /\ (let this := new_GrpcClient endpoint (Some useSsl) in
      getEndpoint this = normal
      /\ this.(baseURL) = normal
      /\ getEndpoint (setEndpoint this (getEndpoint this) (Some useSsl')) = normal).
Proof.
  cbv zeta.
  assert (Hscheme :
    startsWith (normalizeEndpoint endpoint useSsl) "http://"
    || startsWith (normalizeEndpoint endpoint useSsl) "https://" = true).
  { unfold normalizeEndpoint.
    destruct (startsWith endpoint "http://" || startsWith endpoint "https://")
      eqn:Hs; [exact Hs|].
    destruct useSsl.
    - change ("https" ++ "://" ++ endpoint)%string with ("https://" ++ endpoint)%string.
      rewrite (startsWith_app "https://" endpoint). apply orb_true_r.
    - change ("http" ++ "://" ++ endpoint)%string with ("http://" ++ endpoint)%string.
      now rewrite (startsWith_app "http://" endpoint). }
  assert (Hidem : forall b,
    normalizeEndpoint (normalizeEndpoint endpoint useSsl) b
    = normalizeEndpoint endpoint useSsl).
  { intros b. unfold normalizeEndpoint at 1. now rewrite Hscheme. }
  split; [exact Hscheme|]. split; [apply Hidem|]. split; [|split].
  - intros Hs. unfold normalizeEndpoint. now rewrite Hs.
  - intros Hs. unfold normalizeEndpoint. rewrite Hs. now destruct useSsl.
  - unfold getEndpoint, setEndpoint, new_GrpcClient.
    cbn [GrpcClient.endpoint baseURL from_option]. unfold id.
    split; [reflexivity|]. split; [reflexivity|]. apply Hidem.
Qed.

Lemma normalizeEndpoint_idempotent_witness :
  normalizeEndpoint "http://daemon.example.com:7000" true
  = "http://daemon.example.com:7000"%string
  /\ normalizeEndpoint "daemon.example.com:7000" true
     = "https://daemon.example.com:7000"%string.
Proof.
  split.
  - destruct (normalizeEndpoint_idempotent "http://daemon.example.com:7000" true true)
      as (_ & _ & Hkept & _).
    apply Hkept. reflexivity.
  - destruct (normalizeEndpoint_idempotent "daemon.example.com:7000" true true)
      as (_ & _ & _ & Hadded & _).
    apply Hadded. reflexivity.
Defined.

Lemma foldl_insert_present (l : list (string * string)) :
  forall h : gmap string string,
    (forall k v, (k, v) ∈ l -> h !! k = Some v) ->
    foldl (fun h kv => <[kv.1 := kv.2]> h) h l = h.
Proof.
  induction l as [|[k v] l IH]; intros h Hl; [reflexivity|].
  cbn [foldl fst snd].
  rewrite insert_id by (apply Hl; left).
  apply IH. intros k' v' Hin. apply Hl. now right.
Qed.

Lemma call_headers_union (metadata : gmap string string) :
  call_headers metadata = metadata ∪ {[ "Content-Type" := "application/json" ]}.
Proof.
  unfold call_headers, object_literal. cbn [fold_left fst snd].
  rewrite insert_empty. apply foldl_insert_present.
  intros k v Hin. apply elem_of_map_to_list in Hin.
  now apply lookup_union_Some_l.
Qed.

(** X15.  The request of a unary call.  Its path starts with a slash: a method
    that has one is kept, any other gets one in front.  Its headers are
    the metadata and, unless the metadata has such an entry, the JSON
    content type: the loop that assigns the metadata once more changes
    nothing. *)
Theorem call_request (method : string) (metadata : gmap string string) :
  startsWith (methodPath method) "/" = true
  /\ methodPath (methodPath method) = methodPath method
  /\ call_headers metadata
     = metadata ∪ {[ "Content-Type" := "application/json" ]}
  /\ (forall k v, metadata !! k = Some v -> call_headers metadata !! k = Some v)
  /\ (metadata !! "Content-Type" = None ->
      call_headers metadata !! "Content-Type" = Some "application/json")
  /\ (forall k, k <> "Content-Type"%string ->
        call_headers metadata !! k = metadata !! k).
Proof.
  assert (Hpath : startsWith (methodPath method) "/" = true).
  { unfold methodPath. destruct (startsWith method "/") eqn:Hs; [exact Hs|].
    unfold startsWith. cbn. reflexivity. }
  pose proof (call_headers_union metadata) as Hheaders.
  split; [exact Hpath|]. split; [|split; [exact Hheaders|]].
  - unfold methodPath at 1. now rewrite Hpath.
  - rewrite Hheaders. split; [|split].
    + intros k v Hk. now apply lookup_union_Some_l.
    + intros Hnone. rewrite lookup_union_r by exact Hnone.
      apply lookup_singleton_eq.
    + intros k Hk. destruct (metadata !! k) as [v|] eqn:Hm.
      * now apply lookup_union_Some_l.
      * rewrite lookup_union_r by exact Hm. now apply lookup_singleton_ne.
Qed.

(** The headers of a call that pays through a channel *)
Lemma call_request_witness :
  let paid := @createPaymentMetadata Models.unparsed (Number_of_bigint 3)
                (Number_of_bigint 0) 1000 "0x01ff" in
  call_headers paid !! "snet-payment-type" = Some "escrow"%string
  /\ call_headers paid !! "snet-payment-channel-id" = Some "3"%string
  /\ call_headers paid !! "Content-Type" = Some "application/json"%string.
Proof.
  cbv zeta.
  destruct (call_request "example/Method"
              (@createPaymentMetadata Models.unparsed (Number_of_bigint 3)
                 (Number_of_bigint 0) 1000 "0x01ff"))
    as (_ & _ & _ & Hmeta & Hcontent & _).
  split; [|split].
  - apply Hmeta. vm_compute. reflexivity.
  - apply Hmeta. vm_compute. reflexivity.
  - apply Hcontent. vm_compute. reflexivity.
Defined.

End Endpoints.

Section Calls.
Import GrpcClient.
Context {body data : Type} `{Http body data}.

(** X16.  How a unary call treats its arguments.  The method may be given
    with or without the leading slash; leaving the options out is giving
    empty metadata and a timeout of 60000; and passing the headers of a
    call as its metadata changes nothing.  What [call] throws is the
    error of the HTTP client, with [gRPC call failed: ] in front of the
    message when it is an axios error; [healthCheck] throws nothing and
    answers true on status 200 only. *)
Theorem call_normalises_its_request (this : client) (method : string)
    (input : body) (options : option GrpcCallOptions) :
  let meta := default ∅ (options ≫= metadata) in
  let time := default (Number_of_bigint 60000) (options ≫= timeout) in
  call this (methodPath method) input options = call this method input options
  /\ call this method input options
     = call this method input (Some {| metadata := Some meta; timeout := Some time |})
  /\ call this method input
       (Some {| metadata := Some (call_headers meta); timeout := Some time |})
     = call this method input options
  /\ (forall e,
        call this method input options = Throw e ->
        http_post this (methodPath method) input (call_headers meta) time
        = Failure e
        \/ exists text, e = Error ("gRPC call failed: " ++ text))
  /\ (healthCheck this = true
      <-> http_get this "/health" (Number_of_bigint 5000) = Response 200).
Proof.
  cbv zeta.
  assert (Hpath : methodPath (methodPath method) = methodPath method).
  { unfold methodPath at 1.
    destruct (startsWith (methodPath method) "/") eqn:Hs; [reflexivity|].
    unfold methodPath in Hs. destruct (startsWith method "/") eqn:Hm.
    - congruence.
    - discriminate Hs. }
  assert (Hidem : forall m, call_headers (call_headers m) = call_headers m).
  { intros m. rewrite !call_headers_union.
    rewrite <- (assoc_L (∪)). now rewrite (idemp_L (∪)). }
  split; [|split; [|split; [|split]]].
  - unfold call. now rewrite Hpath.
  - unfold call. destruct options as [[m t]|]; reflexivity.
  - unfold call. destruct options as [[m t]|]; cbn [option_bind mbind from_option];
      unfold id; cbn [metadata timeout from_option]; unfold id;
      now rewrite Hidem.
  - intros e. unfold call.
    destruct options as [[m t]|]; cbn [option_bind mbind from_option];
      unfold id; cbn [metadata timeout from_option]; unfold id;
      (destruct (http_post _ _ _ _ _) as [d|rm msg|e']; [discriminate| |]);
      intros [= <-]; (now left) || (right; eexists; reflexivity).
  - unfold healthCheck.
    destruct (http_get _ _ _) as [status|rm msg|e]; split; try discriminate.
    + intros Hs. apply Z.eqb_eq in Hs. now subst.
    + intros [= ->]. reflexivity.
Qed.

End Calls.

Section CallsEvaluated.
Import GrpcClient Models.

Lemma call_normalises_its_request_witness :
  @call _ _ echo_http (new_GrpcClient "daemon.example.com:7000" None)
    "/example.Service/Method" ∅ None
  = @call _ _ echo_http (new_GrpcClient "daemon.example.com:7000" None)
      "example.Service/Method" ∅ None
  /\ (@http_post _ _ echo_http (new_GrpcClient "daemon.example.com:7000" None)
        "/missing" ∅ (call_headers ∅) (Number_of_bigint 60000)
      = Failure (Error "gRPC call failed: unavailable")
      \/ exists text,
           Error "gRPC call failed: unavailable"
           = Error ("gRPC call failed: " ++ text))
  /\ @healthCheck _ _ echo_http (new_GrpcClient "daemon.example.com:7000" None)
     = true.
Proof.
  split; [|split].
  - destruct (@call_normalises_its_request _ _ echo_http
                (new_GrpcClient "daemon.example.com:7000" None)
                "example.Service/Method" ∅ None) as (Hslash & _).
    exact Hslash.
  - destruct (@call_normalises_its_request _ _ echo_http
                (new_GrpcClient "daemon.example.com:7000" None)
                "missing" ∅ None) as (_ & _ & _ & Herror & _).
    apply (Herror (Error "gRPC call failed: unavailable")). reflexivity.
  - destruct (@call_normalises_its_request _ _ echo_http
                (new_GrpcClient "daemon.example.com:7000" None)
                "missing" ∅ None) as (_ & _ & _ & _ & Hhealth).
    apply Hhealth. reflexivity.
Defined.

End CallsEvaluated.

(** ** Networks and the construction of the Ethereum client *)

Section NetworkIds.
Import Networks.

Lemma startsWith_inv (s p : string) :
  startsWith s p = true -> exists r, s = (p ++ r)%string.
Proof.
  unfold startsWith. revert s.
  induction p as [|a p IH]; intros s Hs.
  - now exists s.
  - destruct s as [|b s]; [discriminate|]. cbn [after_prefix] in Hs.
    destruct (Ascii.eqb_spec a b) as [->|]; [|discriminate].
    destruct (IH s Hs) as [r ->]. now exists r.
Qed.

Lemma ethereum_kind_unconfigured (networkId : string) :
  isEthereumNetwork networkId = true ->
  networkId <> "ethereumMainnet"%string ->
  networkId <> "ethereumSepolia"%string ->
  getNetworkConfig networkId = Undefined.
Proof.
  unfold isEthereumNetwork. intros He Hm Hs.
  apply orb_prop in He as [He|He].
  - apply startsWith_inv in He as [r ->].
    unfold getNetworkConfig, NETWORKS, Object_prototype_names.
    cbn [own_property existsb].
    change (String.eqb "ethereumMainnet" ("ethereum" ++ r))
      with (String.eqb "Mainnet" r).
    change (String.eqb "ethereumSepolia" ("ethereum" ++ r))
      with (String.eqb "Sepolia" r).
    destruct (String.eqb_spec "Mainnet" r) as [<-|_]; [now elim Hm|].
    destruct (String.eqb_spec "Sepolia" r) as [<-|_]; [now elim Hs|].
    reflexivity.
  - apply String.eqb_eq in He as ->. reflexivity.
Qed.

Lemma cardano_kind_unconfigured (networkId : string) :
  isCardanoNetwork networkId = true ->
  networkId <> "cardanoMainnet"%string ->
  networkId <> "cardanoPreprod"%string ->
  getNetworkConfig networkId = Undefined.
Proof.
  unfold isCardanoNetwork. intros Hc Hm Hp.
  apply startsWith_inv in Hc as [r ->].
  unfold getNetworkConfig, NETWORKS, Object_prototype_names.
  cbn [own_property existsb].
  change (String.eqb "cardanoMainnet" ("cardano" ++ r))
    with (String.eqb "Mainnet" r).
  change (String.eqb "cardanoPreprod" ("cardano" ++ r))
    with (String.eqb "Preprod" r).
  change (String.eqb "ethereumMainnet" ("cardano" ++ r)) with false.
  change (String.eqb "ethereumSepolia" ("cardano" ++ r)) with false.
  cbv iota.
  destruct (String.eqb_spec "Mainnet" r) as [<-|_]; [now elim Hm|].
  destruct (String.eqb_spec "Preprod" r) as [<-|_]; [now elim Hp|].
  reflexivity.
Qed.

(** The configured networks, by id *)
Lemma getNetworkConfig_configured (networkId : string) (config : NetworkConfig) :
  getNetworkConfig networkId = Configured config ->
  (networkId = "ethereumMainnet"%string /\ config = ETHEREUM_MAINNET)
  \/ (networkId = "ethereumSepolia"%string /\ config = ETHEREUM_SEPOLIA)
  \/ (networkId = "cardanoMainnet"%string /\ config = CARDANO_MAINNET)
  \/ (networkId = "cardanoPreprod"%string /\ config = CARDANO_PREPROD).
Proof.
  unfold getNetworkConfig, NETWORKS. cbn [own_property].
  destruct (String.eqb_spec "ethereumMainnet" networkId) as [<-|_];
    [intros [= <-]; tauto|].
  destruct (String.eqb_spec "ethereumSepolia" networkId) as [<-|_];
    [intros [= <-]; tauto|].
  destruct (String.eqb_spec "cardanoMainnet" networkId) as [<-|_];
    [intros [= <-]; tauto|].
  destruct (String.eqb_spec "cardanoPreprod" networkId) as [<-|_];
    [intros [= <-]; tauto|].
  destruct (existsb _ _); discriminate.
Qed.

(** X17.  The two kinds of network are exclusive.  Every configured network
    is of exactly one kind, the Ethereum ones being those with a chain
    id.  An id of the Ethereum kind is configured only if it is
    [ethereumMainnet] or [ethereumSepolia]: [custom], which is of that
    kind, and every other id that starts with [ethereum] have no
    configuration; likewise for the ids that start with [cardano]. *)
Theorem network_kinds (networkId : string) :
  (isEthereumNetwork networkId = true -> isCardanoNetwork networkId = false)
  /\ (forall config,
        getNetworkConfig networkId = Configured config ->
        isEthereumNetwork networkId = negb (isCardanoNetwork networkId)
        /\ (isEthereumNetwork networkId = true <-> config.(chainId) <> None))
  /\ (isEthereumNetwork networkId = true ->
      networkId <> "ethereumMainnet"%string ->
      networkId <> "ethereumSepolia"%string ->
      getNetworkConfig networkId = Undefined)
  /\ (isCardanoNetwork networkId = true ->
      networkId <> "cardanoMainnet"%string ->
      networkId <> "cardanoPreprod"%string ->
      getNetworkConfig networkId = Undefined).
Proof.
  split; [|split; [|split]].
  - unfold isEthereumNetwork, isCardanoNetwork. intros He.
    apply orb_prop in He as [He|He].
    + apply startsWith_inv in He as [r ->]. reflexivity.
    + apply String.eqb_eq in He as ->. reflexivity.
  - intros config Hc.
    destruct (getNetworkConfig_configured _ _ Hc)
      as [[-> ->]|[[-> ->]|[[-> ->]|[-> ->]]]];
      (split; [reflexivity|]); split; try discriminate; try reflexivity;
      now intros [].
  - apply ethereum_kind_unconfigured.
  - apply cardano_kind_unconfigured.
Qed.

Lemma network_kinds_witness :
  isCardanoNetwork "ethereumSepolia" = false
  /\ getNetworkConfig "custom" = Undefined
  /\ getNetworkConfig "ethereumGoerli" = Undefined
  /\ (isEthereumNetwork "cardanoPreprod" = negb (isCardanoNetwork "cardanoPreprod")).
Proof.
  split; [|split; [|split]].
  - destruct (network_kinds "ethereumSepolia") as (Hexclusive & _).
    apply Hexclusive. reflexivity.
  - destruct (network_kinds "custom") as (_ & _ & Hethereum & _).
    apply Hethereum; [reflexivity|discriminate|discriminate].
  - destruct (network_kinds "ethereumGoerli") as (_ & _ & Hethereum & _).
    apply Hethereum; [reflexivity|discriminate|discriminate].
  - destruct (network_kinds "cardanoPreprod") as (_ & Hconfigured & _).
    apply (Hconfigured CARDANO_PREPROD). reflexivity.
Defined.

End NetworkIds.

Section Construction.
Import Networks Ethers EthereumClient.
Context `{Wallets}.

Lemma new_EthereumClient_ok (config : EthereumClientConfig) (this : instance) :
  new_EthereumClient config = Ok this ->
  this.(networkConfig) = getNetworkConfig config.(network)
  /\ getNetworkConfig config.(network) <> Undefined
  /\ this.(contracts) = initializeContracts (getNetworkConfig config.(network))
  /\ (truthy_opt config.(privateKey) = false ->
      truthy_opt config.(mnemonic) = false -> this.(inst_wallet) = None).
Proof.
  unfold new_EthereumClient.
  destruct (getNetworkConfig config.(network)) as [c| |] eqn:Hnet;
    [| |discriminate].
  all: destruct (truthy_opt config.(privateKey)) eqn:Hkey;
    [destruct (Wallet_new _) as [w|e]; exc_unfold; [|discriminate];
     intros [= <-]; cbn; repeat split; try discriminate
    |destruct (truthy_opt config.(mnemonic)) eqn:Hphrase;
     [destruct (Wallet_fromPhrase _) as [hd|e]; exc_unfold; [|discriminate];
      destruct (derivePath _ _) as [w|e]; [|discriminate];
      intros [= <-]; cbn; repeat split; try discriminate
     |exc_unfold; intros [= <-]; cbn; repeat split; try discriminate]].
Qed.

(** X18.  A client is constructed for a configured network only: on an id
    without configuration, such as [custom] and every id of the
    Ethereum kind other than the two configured ones, the constructor
    throws [Unknown network], before it looks at the key material. *)
Theorem createEthereumClient_unknown_network (credentials : gmap string string) :
  let networkId := default "undefined"%string (credentials !! "network") in
  (getNetworkConfig networkId = Undefined ->
   createEthereumClient credentials
   = Throw (Error ("Unknown network: " ++ networkId)))
  /\ (isEthereumNetwork networkId = true ->
      networkId <> "ethereumMainnet"%string ->
      networkId <> "ethereumSepolia"%string ->
      createEthereumClient credentials
      = Throw (Error ("Unknown network: " ++ networkId)))
  /\ (forall this, createEthereumClient credentials = Ok this ->
        getNetworkConfig networkId <> Undefined).
Proof.
  cbv zeta.
  assert (Hundefined :
    getNetworkConfig (default "undefined"%string (credentials !! "network"))
    = Undefined ->
    createEthereumClient credentials
    = Throw (Error ("Unknown network: "
                    ++ default "undefined"%string (credentials !! "network")))).
  { intros Hnet. unfold createEthereumClient, new_EthereumClient.
    cbn [network]. now rewrite Hnet. }
  split; [exact Hundefined|split].
  - intros He Hm Hs. apply Hundefined.
    now apply ethereum_kind_unconfigured.
  - intros this Hok. unfold createEthereumClient in Hok.
    now apply new_EthereumClient_ok in Hok as (_ & Hnet & _).
Qed.

(** X19.  The contract instances of a constructed client.  The token, the
    escrow and the registry contract are always there, the ASI token
    never, staking on Ethereum Mainnet only; so [openChannel] and
    [getChannel] never meet a missing escrow contract.  On the two
    Ethereum networks the escrow instance sits at the address that
    [getMpeAddress] reports, which is the spender [approveAgix] names;
    on every other network for which a client is constructed, the
    Cardano ones among them, the instances are those of Sepolia, and
    [getMpeAddress] does not report their address. *)
Theorem createEthereumClient_contracts (credentials : gmap string string)
    (this : instance) :
  let networkId := default "undefined"%string (credentials !! "network") in
  createEthereumClient credentials = Ok this ->
  this.(contracts).(agixToken) = Some CONTRACT_ADDRESSES_ethereumMainnet.(ca_agixToken)
  /\ this.(contracts).(registry) = Some CONTRACT_ADDRESSES_ethereumMainnet.(ca_registry)
  /\ this.(contracts).(asiToken) = None
  /\ (as_client this).(cl_mpe) = true
  /\ (networkId = "ethereumMainnet"%string ->
      this.(contracts).(mpe) = Some ETHEREUM_MAINNET_mpeAddress
      /\ getMpeAddress this = this.(contracts).(mpe)
      /\ getRegistryAddress this = this.(contracts).(registry)
      /\ this.(contracts).(staking) = ETHEREUM_MAINNET.(stakingAddress))
  /\ (networkId = "ethereumSepolia"%string ->
      this.(contracts).(mpe) = Some ETHEREUM_SEPOLIA_mpeAddress
      /\ getMpeAddress this = this.(contracts).(mpe)
      /\ getRegistryAddress this = this.(contracts).(registry)
      /\ this.(contracts).(staking) = None)
  /\ (networkId <> "ethereumMainnet"%string ->
      this.(contracts).(mpe) = Some ETHEREUM_SEPOLIA_mpeAddress
      /\ this.(contracts).(staking) = None)
  /\ (isCardanoNetwork networkId = true ->
      getMpeAddress this = Some EmptyString
      /\ getMpeAddress this <> this.(contracts).(mpe)).
Proof.
  cbv zeta. intros Hok. unfold createEthereumClient in Hok.
  apply new_EthereumClient_ok in Hok as (Hnet & Hdefined & Hcontracts & _).
  cbn [network] in *.
  set (networkId := default "undefined"%string (credentials !! "network")) in *.
  unfold as_client, getMpeAddress, getRegistryAddress. cbn [cl_mpe].
  rewrite Hcontracts, Hnet.
  destruct (getNetworkConfig networkId) as [config| |] eqn:Hlookup;
    [| |now elim Hdefined].
  - destruct (getNetworkConfig_configured _ _ Hlookup)
      as [[-> ->]|[[-> ->]|[[-> ->]|[-> ->]]]];
      repeat split; try reflexivity; try discriminate; try congruence.
  - assert (Hm : networkId <> "ethereumMainnet"%string).
    { intros Heq. rewrite Heq in Hlookup. discriminate. }
    assert (Hs : networkId <> "ethereumSepolia"%string).
    { intros Heq. rewrite Heq in Hlookup. discriminate. }
    assert (Hc : isCardanoNetwork networkId = false).
    { destruct (isCardanoNetwork networkId) eqn:Hc; [|reflexivity].
      destruct (String.eqb_spec networkId "cardanoMainnet") as [Heq|Hcm];
        [rewrite Heq in Hlookup; discriminate|].
      destruct (String.eqb_spec networkId "cardanoPreprod") as [Heq|Hcp];
        [rewrite Heq in Hlookup; discriminate|].
      rewrite (cardano_kind_unconfigured _ Hc Hcm Hcp) in Hlookup.
      discriminate. }
    repeat split; try reflexivity; try congruence.
Qed.

(** X20.  Which credentials give a client without a wallet: an authentication
    method other than [privateKey] and [mnemonic], and also the chosen
    method with a missing or empty secret, for which the constructor
    raises nothing. *)
Theorem createEthereumClient_wallet (credentials : gmap string string)
    (this : instance) :
  createEthereumClient credentials = Ok this ->
  (credentials !! "authMethod" <> Some "privateKey"%string ->
   credentials !! "authMethod" <> Some "mnemonic"%string ->
   this.(inst_wallet) = None)
  /\ (credentials !! "authMethod" = Some "privateKey"%string ->
      truthy_opt (credentials !! "privateKey") = false ->
      this.(inst_wallet) = None)
  /\ (credentials !! "authMethod" = Some "mnemonic"%string ->
      truthy_opt (credentials !! "mnemonic") = false ->
      this.(inst_wallet) = None)
  /\ (credentials !! "authMethod" = Some "privateKey"%string ->
      truthy_opt (credentials !! "privateKey") = true ->
      exists w, Wallet_new (default EmptyString (credentials !! "privateKey")) = Ok w
                /\ this.(inst_wallet) = Some w).
Proof.
  intros Hok. unfold createEthereumClient in Hok.
  pose proof (new_EthereumClient_ok _ _ Hok) as (_ & _ & _ & Hnone).
  cbn [privateKey mnemonic] in Hnone.
  unfold new_EthereumClient in Hok.
  cbn [network privateKey mnemonic rpcUrl derivationPath] in Hok.
  destruct (decide (credentials !! "authMethod" = Some "privateKey"%string))
    as [Hk'|Hk'];
    destruct (decide (credentials !! "authMethod" = Some "mnemonic"%string))
      as [Hm'|Hm'];
    try congruence.
  - split; [|split; [|split]]; try congruence.
    + intros _ Hempty. now apply Hnone.
    + intros _ Hkey.
      destruct (getNetworkConfig _); [| |discriminate];
        rewrite Hkey in Hok;
        (destruct (Wallet_new _) as [w|e]; exc_unfold; [|discriminate]);
        injection Hok as <-; exists w; split; reflexivity.
  - split; [|split; [|split]]; try congruence.
    intros _ Hempty. now apply Hnone.
  - split; [|split; [|split]]; try congruence.
    intros _ _. now apply Hnone.
Qed.

End Construction.

Section Transactions.
Import Networks Ethers EthereumClient.
Context `{Signer} {chain : Type} `{Chain chain} `{Mpe chain}.

(** X21.  A client without a wallet sends nothing: [getAddress] and every
    method that sends a transaction throw, and leave the chain as it
    was; the reads that are given an address are answered. *)
Theorem client_without_wallet_sends_nothing (this : instance) (st : chain) :
  this.(inst_wallet) = None ->
  getAddress this = Throw (Error "No wallet configured")
  /\ (forall to amount,
        transferAgix this to amount st
        = (Throw (Error "AGIX token contract or wallet not initialized"), st))
  /\ (forall amount,
        approveAgix this amount st
        = (Throw (Error "AGIX token contract or wallet not initialized"), st)
        /\ depositToEscrow this amount st
           = (Throw (Error "MPE contract or wallet not initialized"), st)
        /\ withdrawFromEscrow this amount st
           = (Throw (Error "MPE contract or wallet not initialized"), st))
  /\ (forall channelId amount newExpiration,
        addFundsToChannel this channelId amount st
        = (Throw (Error "MPE contract or wallet not initialized"), st)
        /\ extendChannel this channelId newExpiration st
           = (Throw (Error "MPE contract or wallet not initialized"), st)
        /\ claimChannelTimeout this channelId st
           = (Throw (Error "MPE contract or wallet not initialized"), st))
  /\ (forall recipient groupId amount expiration,
        openChannel (as_client this) recipient groupId amount expiration st
        = Throw (Error "MPE contract or wallet not initialized"))
  /\ (forall address,
        truthy address = true ->
        getEthBalance this (Some address) st = getBalance address st
        /\ (getEthBalance this None st = Throw (Error "No wallet configured")))
  /\ (forall channelId,
        this.(contracts).(mpe) <> None ->
        getChannel (as_client this) channelId st
        = (channel ← mpe_channels channelId st;
           mret {| ci_channelId := channelId;
                   ci_nonce := Number_of_bigint channel.(PaymentUtils.t_nonce);
                   ci_sender := channel.(PaymentUtils.t_sender);
                   ci_signer := channel.(PaymentUtils.t_signer);
                   ci_recipient := channel.(PaymentUtils.t_recipient);
                   ci_groupId := channel.(PaymentUtils.t_groupId);
                   ci_value := channel.(PaymentUtils.t_value);
                   ci_expiration :=
                     Number_of_bigint channel.(PaymentUtils.t_expiration) |})).
Proof.
  intros Hw.
  unfold getAddress, transferAgix, approveAgix, depositToEscrow,
    withdrawFromEscrow, addFundsToChannel, extendChannel, claimChannelTimeout,
    openChannel, getChannel, getEthBalance, address_or_own, getAddress, as_client.
  cbn [cl_wallet cl_mpe]. rewrite Hw.
  split; [reflexivity|].
  split; [intros; now destruct (agixToken _)|].
  split; [intros; repeat split;
          (now destruct (agixToken _)) || (now destruct (mpe _))|].
  split; [intros; repeat split; now destruct (mpe _)|].
  split; [intros; now destruct (mpe _)|].
  split.
  - intros address Ha. cbn [truthy_opt from_option]. rewrite Ha. unfold id.
    split; reflexivity.
  - intros channelId Hmpe. destruct (mpe _); [reflexivity|contradiction].
Qed.

End Transactions.

Section Deposit.
Import Networks Ethers EthereumClient Models.
Context `{Signer} {chain : Type} `{Chain chain}.

(** X22.  What [depositToEscrow] sends.  On a client with a wallet it first
    sends the approval of the amount to the token contract, naming the
    address that [getMpeAddress] reports as the spender.  When that
    throws, the error is the result and nothing else is sent.  When it
    returns, whatever the status of its receipt, the deposit of the same
    amount is sent to the escrow contract, and its outcome is the
    result. *)
Theorem depositToEscrow_sends_approval_first (this : instance) (w : wallet)
    (token escrow : string) (amount : Z) (st : traced chain) :
  this.(inst_wallet) = Some w ->
  this.(contracts).(agixToken) = Some token ->
  this.(contracts).(mpe) = Some escrow ->
  let approval :=
    (wallet_address w, token, agixToken_approve (getMpeAddress this) amount) in
  let deposit := (wallet_address w, escrow, mpe_deposit amount) in
  match send (wallet_address w) token
          (agixToken_approve (getMpeAddress this) amount) st.(inner) with
  | (Throw e, st1) =>
      @depositToEscrow _ _ traced_chain this amount st
      = (Throw e, {| sent := st.(sent) ++ [approval]; inner := st1 |})
  | (Ok _, st1) =>
      match send (wallet_address w) escrow (mpe_deposit amount) st1 with
      | (Ok (tx_hash, receipt), st2) =>
          @depositToEscrow _ _ traced_chain this amount st
          = (Ok (transaction_result tx_hash receipt),
             {| sent := st.(sent) ++ [approval; deposit]; inner := st2 |})
      | (Throw e, st2) =>
          @depositToEscrow _ _ traced_chain this amount st
          = (Throw e, {| sent := st.(sent) ++ [approval; deposit]; inner := st2 |})
      end
  end.
Proof.
  intros Hw Htoken Hescrow. cbv zeta.
  unfold depositToEscrow, approveAgix, send_and_wait.
  rewrite Hw, Htoken, Hescrow. cbn [send traced_chain sent inner].
  destruct (send (wallet_address w) token _ st.(inner)) as [[[h rc]|e] st1];
    [|reflexivity].
  cbn [sent inner].
  destruct (send (wallet_address w) escrow _ st1) as [[[h2 rc2]|e2] st2];
    rewrite <- app_assoc; reflexivity.
Qed.

End Deposit.

Section ClientsEvaluated.
Import Networks Ethers EthereumClient Models.

Lemma depositToEscrow_sends_approval_first_witness :
  @depositToEscrow symbolic _ (@traced_chain _ scripted_chain)
    mainnet_instance 500000000 {| sent := []; inner := ledger_3 |}
  = (Ok (transaction_result "0x02" receipt_without_event),
     {| sent :=
          [(symbolic_address, CONTRACT_ADDRESSES_ethereumMainnet.(ca_agixToken),
            agixToken_approve (Some ETHEREUM_MAINNET_mpeAddress) 500000000);
           (symbolic_address, CONTRACT_ADDRESSES_ethereumMainnet.(ca_mpe),
            mpe_deposit 500000000)];
        inner := {| script := []; table := ledger_3.(table) |} |}).
Proof.
  exact (@depositToEscrow_sends_approval_first symbolic scripted scripted_chain
           mainnet_instance tt
           CONTRACT_ADDRESSES_ethereumMainnet.(ca_agixToken)
           CONTRACT_ADDRESSES_ethereumMainnet.(ca_mpe)
           500000000 {| sent := []; inner := ledger_3 |}
           eq_refl eq_refl eq_refl).
Defined.

Lemma createEthereumClient_unknown_network_witness :
  @createEthereumClient symbolic symbolic_wallets
    (<["network" := "custom"%string]> mainnet_credentials)
  = Throw (Error "Unknown network: custom")
  /\ @createEthereumClient symbolic symbolic_wallets
       (<["network" := "ethereumGoerli"%string]> mainnet_credentials)
     = Throw (Error "Unknown network: ethereumGoerli").
Proof.
  split.
  - destruct (@createEthereumClient_unknown_network symbolic symbolic_wallets
                (<["network" := "custom"%string]> mainnet_credentials))
      as (_ & Hkind & _).
    apply Hkind; vm_compute; [reflexivity|discriminate|discriminate].
  - destruct (@createEthereumClient_unknown_network symbolic symbolic_wallets
                (<["network" := "ethereumGoerli"%string]> mainnet_credentials))
      as (Hundefined & _).
    apply Hundefined. vm_compute. reflexivity.
Defined.

Lemma createEthereumClient_contracts_witness :
  (@createEthereumClient symbolic symbolic_wallets mainnet_credentials
   = Ok mainnet_instance
   /\ getMpeAddress mainnet_instance = mainnet_instance.(contracts).(mpe))
  /\ (@createEthereumClient symbolic symbolic_wallets cardano_credentials
      = Ok cardano_instance
      /\ cardano_instance.(contracts).(mpe) = Some ETHEREUM_SEPOLIA_mpeAddress
      /\ getMpeAddress cardano_instance = Some EmptyString).
Proof.
  assert (Hmain : @createEthereumClient symbolic symbolic_wallets mainnet_credentials
                  = Ok mainnet_instance) by (vm_compute; reflexivity).
  assert (Hcardano : @createEthereumClient symbolic symbolic_wallets
                       cardano_credentials
                     = Ok cardano_instance) by (vm_compute; reflexivity).
  split; (split; [assumption|]).
  - destruct (@createEthereumClient_contracts symbolic symbolic_wallets
                mainnet_credentials mainnet_instance Hmain)
      as (_ & _ & _ & _ & Hmainnet & _).
    apply Hmainnet. vm_compute. reflexivity.
  - destruct (@createEthereumClient_contracts symbolic symbolic_wallets
                cardano_credentials cardano_instance Hcardano)
      as (_ & _ & _ & _ & _ & _ & Hother & Hkind).
    split.
    + apply Hother. vm_compute. discriminate.
    + apply Hkind. vm_compute. reflexivity.
Defined.

Lemma createEthereumClient_wallet_witness :
  @createEthereumClient symbolic symbolic_wallets keyless_credentials
  = Ok keyless_instance
  /\ keyless_instance.(inst_wallet) = None.
Proof.
  assert (Hok : @createEthereumClient symbolic symbolic_wallets keyless_credentials
                = Ok keyless_instance) by (vm_compute; reflexivity).
  split; [exact Hok|].
  destruct (@createEthereumClient_wallet symbolic symbolic_wallets
              keyless_credentials keyless_instance Hok) as (_ & Hempty & _).
  apply Hempty; vm_compute; reflexivity.
Defined.

Lemma client_without_wallet_sends_nothing_witness :
  @depositToEscrow symbolic _ scripted_chain keyless_instance 500000000 ledger_3
  = (Throw (Error "MPE contract or wallet not initialized"), ledger_3)
  /\ @getAddress symbolic keyless_instance = Throw (Error "No wallet configured").
Proof.
  destruct (@client_without_wallet_sends_nothing symbolic scripted scripted_chain
              scripted_mpe keyless_instance ledger_3 eq_refl)
    as (Haddress & _ & Hescrow & _).
  split; [|exact Haddress].
  apply (Hescrow 500000000).
Defined.

End ClientsEvaluated.

(** ** The Cardano client *)

Section Cardano.
Import CardanoClient.
Context `{Builtins} `{Blockfrost}.

(** X23.  [getTransaction] never throws and never reports a failure: an
    answer of the API gives [success] with the fields of the answer, and
    every error of the request, whatever it is, gives [pending] with the
    hash that was asked for. *)
Theorem getTransaction_never_throws (hash : string) :
  (forall response_data,
      get_transaction ("/txs/" ++ hash) = Ok response_data ->
      getTransaction hash
      = Ok {| CardanoClient.hash := response_data.(td_hash);
              block := response_data.(td_block);
              slot := response_data.(td_slot);
              status := success |})
  /\ (forall e,
        get_transaction ("/txs/" ++ hash) = Throw e ->
        getTransaction hash
        = Ok {| CardanoClient.hash := hash; block := None; slot := None;
                status := pending |})
  /\ exists result,
       getTransaction hash = Ok result /\ result.(status) <> failed.
Proof.
  unfold getTransaction.
  destruct (get_transaction ("/txs/" ++ hash)) as [d|e]; exc_unfold.
  - split; [now intros ? [= <-]|]. split; [discriminate|].
    eexists. split; [reflexivity|discriminate].
  - split; [discriminate|]. split; [reflexivity|].
    eexists. split; [reflexivity|discriminate].
Qed.

Lemma find_app_last {A : Type} (p : A -> bool) (l : list A) (a : A) :
  List.find p (l ++ [a])
  = match List.find p l with
    | Some x => Some x
    | None => if p a then Some a else None
    end.
Proof.
  induction l as [|b l IH]; [reflexivity|].
  cbn [List.find app]. now destruct (p b).
Qed.

Lemma assign_lookup {A : Type} (key unit : string) (value : A)
    (obj : gmap string A) :
  unit <> "__proto__"%string ->
  assign key value obj !! unit
  = if String.eqb key unit then Some value else obj !! unit.
Proof.
  intros Hunit. unfold assign.
  destruct (String.eqb_spec key "__proto__") as [->|Hkey].
  - destruct (String.eqb_spec "__proto__" unit) as [<-|_]; [now elim Hunit|reflexivity].
  - destruct (String.eqb_spec key unit) as [->|Hne].
    + apply lookup_insert_eq.
    + now apply lookup_insert_ne.
Qed.

Lemma assign_proto {A : Type} (key : string) (value : A) (obj : gmap string A) :
  assign key value obj !! "__proto__" = obj !! "__proto__".
Proof.
  unfold assign. destruct (String.eqb_spec key "__proto__") as [->|Hkey];
    [reflexivity|]. now apply lookup_insert_ne.
Qed.

(** The loop of [getTokenBalances], entry by entry *)
Lemma token_balances_ok (amounts : list CardanoAmount) :
  forall acc balances,
    token_balances amounts acc = Ok balances ->
    Forall (fun a => exists z, BigInt_of_string a.(ca_quantity) = Ok z) amounts
    /\ balances !! "__proto__" = acc !! "__proto__"
    /\ forall unit, unit <> "__proto__"%string ->
         match Spec.last_entry unit amounts with
         | Some a => exists z, BigInt_of_string a.(ca_quantity) = Ok z
                               /\ balances !! unit = Some z
         | None => balances !! unit = acc !! unit
         end.
Proof.
  induction amounts as [|a rest IH]; intros acc balances Hrun.
  - injection Hrun as <-. split; [constructor|]. split; [reflexivity|].
    intros unit _. reflexivity.
  - cbn [token_balances] in Hrun.
    destruct (BigInt_of_string a.(ca_quantity)) as [q|e] eqn:Hq;
      exc_unfold; [|discriminate].
    destruct (IH _ _ Hrun) as (Hall & Hproto & Hunits).
    split; [constructor; [now exists q|exact Hall]|].
    split; [now rewrite Hproto, assign_proto|].
    intros unit Hunit. specialize (Hunits unit Hunit).
    unfold Spec.last_entry in *. cbn [rev]. rewrite find_app_last.
    destruct (List.find _ (rev rest)) as [b|]; [exact Hunits|].
    rewrite Hunits, assign_lookup by exact Hunit.
    destruct (String.eqb a.(ca_unit) unit); [now exists q|reflexivity].
Qed.

Lemma token_balances_throw (pre : list CardanoAmount) :
  forall acc a post e,
    Forall (fun b => exists z, BigInt_of_string b.(ca_quantity) = Ok z) pre ->
    BigInt_of_string a.(ca_quantity) = Throw e ->
    token_balances (pre ++ a :: post) acc = Throw e.
Proof.
  induction pre as [|b pre IH]; intros acc a post e Hpre Ha.
  - cbn [app token_balances]. now rewrite Ha.
  - inversion Hpre as [|? ? [z Hz] Hpre']; subst.
    cbn [app token_balances]. rewrite Hz. exc_unfold. now apply IH.
Qed.

(** With one entry per unit, the first entry for a unit is the last. *)
Lemma find_rev_NoDup (unit : string) (amounts : list CardanoAmount) :
  NoDup (map ca_unit amounts) ->
  Spec.last_entry unit amounts
  = List.find (fun a => String.eqb a.(ca_unit) unit) amounts.
Proof.
  unfold Spec.last_entry.
  induction amounts as [|a rest IH]; intros Hnodup; [reflexivity|].
  cbn [map] in Hnodup. inversion Hnodup as [|? ? Hnotin Hnodup']; subst.
  cbn [rev List.find]. rewrite find_app_last, (IH Hnodup').
  destruct (String.eqb_spec a.(ca_unit) unit) as [Heq|Hne].
  - destruct (List.find _ rest) as [b|] eqn:Hfind; [|reflexivity].
    exfalso. apply find_some in Hfind as [Hin Hb].
    apply String.eqb_eq in Hb. apply Hnotin.
    apply in_map_iff. exists b. split; [congruence|exact Hin].
  - now destruct (List.find _ rest).
Qed.

Lemma balance_of_unit (unit : string) (amounts : list CardanoAmount)
    (balances : gmap string Z) :
  unit <> "__proto__"%string ->
  BigInt_of_string EmptyString = Ok 0 -> BigInt_of_string "0" = Ok 0 ->
  NoDup (map ca_unit amounts) ->
  token_balances amounts ∅ = Ok balances ->
  BigInt_of_string
    (quantity_or_zero (List.find (fun a => String.eqb a.(ca_unit) unit) amounts))
  = Ok (default 0 (balances !! unit)).
Proof.
  intros Hunit Hempty Hzero Hnodup Hrun.
  apply token_balances_ok in Hrun as (_ & _ & Hunits).
  specialize (Hunits unit Hunit). rewrite find_rev_NoDup in Hunits by exact Hnodup.
  destruct (List.find _ amounts) as [a|]; cbn [quantity_or_zero].
  - destruct Hunits as (z & Hz & ->). cbn [from_option]. unfold id, string_or, truthy.
    destruct (String.eqb_spec a.(ca_quantity) EmptyString) as [Heq|_];
      cbn [negb]; [|exact Hz].
    rewrite Heq, Hempty in Hz. injection Hz as <-. exact Hzero.
  - rewrite Hunits, lookup_empty. exact Hzero.
Qed.

(** X24.  The token balances of an address.  When [getTokenBalances] returns,
    every quantity of the answer was parsed, a unit has the quantity of
    its last entry, and a unit without entry has no balance; an entry
    under [__proto__] leaves no balance.  It throws as soon as one
    quantity is not parsed, with the error of the first such entry. *)
Theorem getTokenBalances_last_entry_wins (address : string)
    (info : CardanoAddressInfo) :
  get_address ("/addresses/" ++ address) = Ok info ->
  (forall balances,
      getTokenBalances address = Ok balances ->
      Forall (fun a => exists z, BigInt_of_string a.(ca_quantity) = Ok z)
        info.(ai_amount)
      /\ balances !! "__proto__" = None
      /\ forall unit, unit <> "__proto__"%string ->
           match Spec.last_entry unit info.(ai_amount) with
           | Some a => exists z, BigInt_of_string a.(ca_quantity) = Ok z
                                 /\ balances !! unit = Some z
           | None => balances !! unit = None
           end)
  /\ (forall pre a post e,
        info.(ai_amount) = pre ++ a :: post ->
        Forall (fun b => exists z, BigInt_of_string b.(ca_quantity) = Ok z) pre ->
        BigInt_of_string a.(ca_quantity) = Throw e ->
        getTokenBalances address = Throw e).
Proof.
  intros Hinfo. unfold getTokenBalances, getAddressInfo. rewrite Hinfo.
  exc_unfold. split.
  - intros balances Hrun. apply token_balances_ok in Hrun. exact Hrun.
  - intros pre a post e -> Hpre Ha. now apply token_balances_throw.
Qed.

(** X25.  The ADA and the AGIX balance are read from the first entry of their
    unit, a missing entry and an empty quantity counting as 0, and no
    other quantity is parsed.  With one entry per unit, and a runtime
    that parses the empty string and [0] as zero, they are the balances
    that [getTokenBalances] has for the two units, or 0 where it has
    none. *)
Theorem getAdaBalance_reads_one_entry (address : string)
    (info : CardanoAddressInfo) :
  get_address ("/addresses/" ++ address) = Ok info ->
  let agixUnit := (AGIX_POLICY_ID ++ AGIX_ASSET_NAME)%string in
  getAdaBalance address
  = BigInt_of_string
      (quantity_or_zero
         (List.find (fun a => String.eqb a.(ca_unit) "lovelace") info.(ai_amount)))
  /\ getAgixBalance address
     = BigInt_of_string
         (quantity_or_zero
            (List.find (fun a => String.eqb a.(ca_unit) agixUnit) info.(ai_amount)))
  /\ (List.find (fun a => String.eqb a.(ca_unit) "lovelace") info.(ai_amount) = None ->
      getAdaBalance address = BigInt_of_string "0")
  /\ (forall balances,
        BigInt_of_string EmptyString = Ok 0 -> BigInt_of_string "0" = Ok 0 ->
        NoDup (map ca_unit info.(ai_amount)) ->
        getTokenBalances address = Ok balances ->
        getAdaBalance address = Ok (default 0 (balances !! "lovelace"))
        /\ getAgixBalance address = Ok (default 0 (balances !! agixUnit))).
Proof.
  intros Hinfo. cbv zeta.
  unfold getAdaBalance, getAgixBalance, getAddressInfo. rewrite Hinfo.
  exc_unfold. split; [reflexivity|]. split; [reflexivity|].
  split; [now intros ->|].
  intros balances Hempty Hzero Hnodup Hrun.
  unfold getTokenBalances, getAddressInfo in Hrun. rewrite Hinfo in Hrun.
  exc_unfold.
  split; apply balance_of_unit; try assumption; discriminate.
Qed.

End Cardano.

Section CardanoEvaluated.
Import CardanoClient Models.

Lemma getTransaction_never_throws_witness :
  @getTransaction sample_blockfrost "00"
  = Ok {| CardanoClient.hash := "00"; block := None; slot := None;
          status := pending |}
  /\ exists result,
       @getTransaction sample_blockfrost sample_transaction = Ok result
       /\ result.(status) = success.
Proof.
  split.
  - destruct (@getTransaction_never_throws sample_blockfrost "00")
      as (_ & Hpending & _).
    apply (Hpending (Error "Request failed with status code 404")).
    reflexivity.
  - destruct (@getTransaction_never_throws sample_blockfrost sample_transaction)
      as (Hsuccess & _).
    eexists. split; [apply Hsuccess; reflexivity|reflexivity].
Defined.

Lemma getTokenBalances_last_entry_wins_witness :
  @getTokenBalances decimal sample_blockfrost sample_address
  = Ok {[ "lovelace"%string := 1500000;
          (AGIX_POLICY_ID ++ AGIX_ASSET_NAME)%string := 250000000 ]}
  /\ Forall (fun a => exists z, @BigInt_of_string decimal a.(ca_quantity) = Ok z)
       sample_address_info.(ai_amount).
Proof.
  assert (Hrun : @getTokenBalances decimal sample_blockfrost sample_address
                 = Ok {[ "lovelace"%string := 1500000;
                         (AGIX_POLICY_ID ++ AGIX_ASSET_NAME)%string := 250000000 ]})
    by (vm_compute; reflexivity).
  split; [exact Hrun|].
  destruct (@getTokenBalances_last_entry_wins decimal sample_blockfrost
              sample_address sample_address_info eq_refl) as (Hok & _).
  apply (Hok _ Hrun).
Defined.

Lemma getAdaBalance_reads_one_entry_witness :
  @getAdaBalance decimal sample_blockfrost sample_address = Ok 1500000
  /\ @getAgixBalance decimal sample_blockfrost sample_address = Ok 250000000.
Proof.
  pose (balances := ({[ "lovelace"%string := 1500000;
                        (AGIX_POLICY_ID ++ AGIX_ASSET_NAME)%string := 250000000 ]}
                     : gmap string Z)).
  assert (Hrun : @getTokenBalances decimal sample_blockfrost sample_address
                 = Ok balances) by (vm_compute; reflexivity).
  assert (Hnodup : NoDup (map ca_unit sample_address_info.(ai_amount))).
  { cbn [map ai_amount sample_address_info ca_unit].
    constructor; [|constructor; [|constructor]]; cbn [In].
    - intros [Heq|[]]. vm_compute in Heq. discriminate.
    - intros []. }
  destruct (@getAdaBalance_reads_one_entry decimal sample_blockfrost
              sample_address sample_address_info eq_refl)
    as (_ & _ & _ & Hagree).
  destruct (Hagree balances eq_refl eq_refl Hnodup Hrun) as [Hada Hagix].
  split; [rewrite Hada|rewrite Hagix]; vm_compute; reflexivity.
Defined.

End CardanoEvaluated.
